(** * SecureContract: access control, version archival and live synchronisation

    A shallow embedding of the server of the collaborative contract review
    platform:

    - [server/src/routes/contracts.ts]   create, read, rename and delete,
    - [server/src/routes/versions.ts]    history, upload, download, restore,
    - [server/src/routes/permissions.ts] invitation, role update, removal,
    - [server/src/routes/auth.ts]        register, login, current user,
    - [server/src/routes/notifications.ts] the inbox of a user,
    - [server/src/services/yjs.ts]       the registry of live Yjs documents,
    - [server/src/socket/index.ts]       the socket.io synchronisation handler,
    - [client/src/lib/errors.ts]         the retry helper of the client.

    Every REST handler is a function from the request and the store to a reply
    and the next store; the invitation is also given with its [await]s as
    suspension points, so that two requests can be interleaved.  The socket
    server is an event-driven transition system whose suspension points are
    the [await]s of the source; a listener that throws ends the process. *)

From Stdlib Require Import ZArith Ascii String List Lia HexadecimalString.
From stdpp Require Import base option list gmap strings pretty sorting.

Local Open Scope string_scope.
Local Open Scope Z_scope.
Local Open Scope list_scope.

(** ** JavaScript values that cross the request boundary *)

Module Js.

(** A JSON value of a request body, as far as the handlers inspect it.
    [JOther] stands for arrays and objects. *)
Inductive value :=
| JUndefined
| JNull
| JBool (b : bool)
| JNum (n : Z)
| JStr (s : string)
| JOther.

(** [!v] *)
Definition falsy (v : value) : bool :=
  match v with
  | JUndefined | JNull => true
  | JBool b => negb b
  | JNum n => bool_decide (n = 0)
  | JStr s => bool_decide (s = "")
  | JOther => false
  end.

(** [typeof v === 'string'] *)
Definition isString (v : value) : bool :=
  match v with JStr _ => true | _ => false end.

(** White space and line terminators of [String.prototype.trim], for code
    units below 256: TAB, LF, VT, FF, CR, SP and NBSP. *)
Definition isWhiteSpace (a : ascii) : bool :=
  let n := nat_of_ascii a in
  bool_decide (n = 9 ∨ n = 10 ∨ n = 11 ∨ n = 12 ∨ n = 13 ∨ n = 32 ∨ n = 160)%nat.

Fixpoint trimStart (s : string) : string :=
  match s with
  | EmptyString => EmptyString
  | String a s' => if isWhiteSpace a then trimStart s' else s
  end.

Definition trimEnd (s : string) : string :=
  String.rev (trimStart (String.rev s)).

Definition trim (s : string) : string := trimEnd (trimStart s).

(** [a || b] on an optional string: the empty string is falsy. *)
Definition orElse (a : option string) (b : string) : string :=
  match a with
  | Some s => if bool_decide (s = "") then b else s
  | None => b
  end.

End Js.

(** ** The relational data model (Prisma client) *)

Inductive Role := VIEWER | COMMENTER | EDITOR | ADMIN.

#[global] Instance Role_eq_dec : EqDecision Role.
Proof. solve_decision. Defined.

Module User.
Record t := mk {
  id : string;
  email : string;
  passwordHash : string;
  name : string;
  color : string }.

Definition setPasswordHash (h : string) (u : t) : t :=
  mk (id u) (email u) h (name u) (color u).
End User.

Module Contract.
Record t := mk {
  id : string;
  title : string;
  s3Key : string;
  ownerId : string;
  fileSize : Z;
  pageCount : Z;
  version : Z }.

Definition setTitle (x : string) (c : t) : t :=
  mk (id c) x (s3Key c) (ownerId c) (fileSize c) (pageCount c) (version c).

Definition setVersion (key : string) (v : Z) (c : t) : t :=
  mk (id c) (title c) key (ownerId c) (fileSize c) (pageCount c) v.

Definition setUpload (key : string) (v size : Z) (c : t) : t :=
  mk (id c) (title c) key (ownerId c) size (pageCount c) v.
End Contract.

Module ContractVersion.
Record t := mk {
  id : string;
  contractId : string;
  version : Z;
  s3Key : string;
  changeNote : string;
  createdById : string }.
End ContractVersion.

Module Permission.
Record t := mk {
  id : string;
  contractId : string;
  userId : string;
  role : Role }.

Definition setRole (r : Role) (p : t) : t :=
  mk (id p) (contractId p) (userId p) r.
End Permission.

(** The tables, in insertion order. *)
Record Db := mkDb {
  users : list User.t;
  contracts : list Contract.t;
  contractVersions : list ContractVersion.t;
  permissions : list Permission.t }.

(** An object of the S3 bucket. *)
Record S3Object := mkObject {
  objBody : list Byte.byte;
  objContentType : string }.

(** Everything a REST handler reads and writes. *)
Record Store := mkStore {
  db : Db;
  bucket : gmap string S3Object }.

(** What a request meets outside the handler: the clock ([Date.now()]), the
    identifier the database gives to a row created by the request, and
    whether the object store answers. *)
Record Env := mkEnv {
  now : Z;
  newId : string;
  s3Up : bool }.

Module Prisma.

Definition withContracts (cs : list Contract.t) (d : Db) : Db :=
  mkDb (users d) cs (contractVersions d) (permissions d).
Definition withVersions (vs : list ContractVersion.t) (d : Db) : Db :=
  mkDb (users d) (contracts d) vs (permissions d).
Definition withPermissions (ps : list Permission.t) (d : Db) : Db :=
  mkDb (users d) (contracts d) (contractVersions d) ps.
Definition withUsers (us : list User.t) (d : Db) : Db :=
  mkDb us (contracts d) (contractVersions d) (permissions d).

Definition hasId (i : string) (c : Contract.t) : bool :=
  bool_decide (Contract.id c = i).

(** [prisma.contract.findUnique({ where: { id } })] *)
Definition contract_findUnique (i : string) (d : Db) : option Contract.t :=
  find (hasId i) (contracts d).

(** [prisma.contract.findFirst({ where })] *)
Definition contract_findFirst (where_ : Contract.t → bool) (d : Db)
  : option Contract.t :=
  find where_ (contracts d).

(** [prisma.contract.update({ where: { id }, data })]: the updated row and
    the new table, or [None] where Prisma throws (no such row). *)
Definition contract_update (i : string) (data : Contract.t → Contract.t)
    (d : Db) : option (Contract.t * Db) :=
  match contract_findUnique i d with
  | None => None
  | Some c =>
      Some (data c,
            withContracts
              (map (λ x, if hasId i x then data x else x) (contracts d)) d)
  end.

(** Modelled from the spec: the referential actions of
    prisma/schema.prisma, which is not part of the sources.  Snapshots are
    "cleared only with the parent document", and a grant relates a user to
    an existing document, so [prisma.contract.delete({ where: { id } })]
    takes the rows that refer to the contract with it. *)
Definition contract_delete (i : string) (d : Db) : option Db :=
  match contract_findUnique i d with
  | None => None
  | Some _ =>
      Some (mkDb (users d)
              (filter (λ c, Contract.id c ≠ i) (contracts d))
              (filter (λ v, ContractVersion.contractId v ≠ i)
                 (contractVersions d))
              (filter (λ p, Permission.contractId p ≠ i) (permissions d)))
  end.

(** [prisma.contractVersion.findUnique({ where: { contractId_version } })] *)
Definition contractVersion_findUnique (cid : string) (v : Z) (d : Db)
  : option ContractVersion.t :=
  find (λ x, bool_decide (ContractVersion.contractId x = cid)
             && bool_decide (ContractVersion.version x = v))
       (contractVersions d).

(** [prisma.contractVersion.create({ data })]: the compound key
    [contractId_version] is unique, a second row for it is refused. *)
Definition contractVersion_create (row : ContractVersion.t) (d : Db)
  : option Db :=
  match contractVersion_findUnique (ContractVersion.contractId row)
          (ContractVersion.version row) d with
  | Some _ => None
  | None => Some (withVersions (contractVersions d ++ [row]) d)
  end.

(** [prisma.permission.findUnique({ where: { contractId_userId } })] *)
Definition permission_findUniquePair (cid uid : string) (d : Db)
  : option Permission.t :=
  find (λ p, bool_decide (Permission.contractId p = cid)
             && bool_decide (Permission.userId p = uid))
       (permissions d).

(** [prisma.permission.findUnique({ where: { id } })] *)
Definition permission_findUnique (i : string) (d : Db)
  : option Permission.t :=
  find (λ p, bool_decide (Permission.id p = i)) (permissions d).

(** [prisma.permission.update({ where: { id }, data: { role } })] *)
Definition permission_update (i : string) (r : Role) (d : Db)
  : option (Permission.t * Db) :=
  match permission_findUnique i d with
  | None => None
  | Some p =>
      Some (Permission.setRole r p,
            withPermissions
              (map (λ x, if bool_decide (Permission.id x = i)
                         then Permission.setRole r x else x)
                   (permissions d)) d)
  end.

(** [prisma.permission.create({ data })]: the compound key
    [contractId_userId] is unique. *)
Definition permission_create (row : Permission.t) (d : Db) : option Db :=
  match permission_findUniquePair (Permission.contractId row)
          (Permission.userId row) d with
  | Some _ => None
  | None => Some (withPermissions (permissions d ++ [row]) d)
  end.

(** [prisma.user.findUnique({ where: { id } })] *)
Definition user_findUnique (i : string) (d : Db) : option User.t :=
  find (λ u, bool_decide (User.id u = i)) (users d).

(** [prisma.user.findUnique({ where: { email } })] *)
Definition user_findByEmail (e : string) (d : Db) : option User.t :=
  find (λ u, bool_decide (User.email u = e)) (users d).

(** [permissions: { some: where }] on a contract row *)
Definition permissions_some (where_ : Permission.t → bool)
    (d : Db) (c : Contract.t) : bool :=
  existsb (λ p, bool_decide (Permission.contractId p = Contract.id c)
                && where_ p)
          (permissions d).

End Prisma.


(** ** jsonwebtoken, keyed with the server's [JWT_SECRET] *)

Module Jwt.

(** A bearer string is either a token this server signed, with its claims,
    or anything else. *)
Inductive token :=
| Signed (sub : string) (iat exp : Z)
| Garbage (raw : string).

(** [jwt.sign({ sub }, secret, { expiresIn: '7d' })] at [Date.now() = t]. *)
Definition sign (sub : string) (t : Z) : token :=
  Signed sub (t / 1000) (t / 1000 + 7 * 24 * 60 * 60).

(** [!token]: of the bearer strings, the empty one is falsy. *)
Definition empty (tok : token) : bool :=
  match tok with
  | Garbage raw => bool_decide (raw = "")
  | Signed _ _ _ => false
  end.

(** [jwt.verify(token, secret)]: the subject, or [None] where it throws. *)
Definition verify (tok : token) (t : Z) : option string :=
  match tok with
  | Signed sub _ exp => if bool_decide (exp ≤ t / 1000) then None else Some sub
  | Garbage _ => None
  end.

End Jwt.

(** ** Replies of the REST handlers *)

(** The user columns a handler selects for a reply
    ([select: { id: true, name: true, email: true }]). *)
Record UserRef := mkUserRef {
  refId : string;
  refName : string;
  refEmail : string }.

(** The user object of a register or login reply. *)
Record AuthUser := mkAuthUser {
  authId : string;
  authEmail : string;
  authName : string;
  authColor : string }.

Inductive Body :=
| BError (error : string)
| BMessage (message : string)
| BContract (c : Contract.t)
| BVersionUploaded (message : string) (version : Z)
| BRestored (message : string) (newVersion : Z)
| BPermission (p : Permission.t) (user : option UserRef)
| BAuth (token : Jwt.token) (user : AuthUser)
| BObject (o : gmap string Js.value).

(** [res.status(n).json(body)], or a rejected handler promise outside any
    [try]: Express 4 sends nothing for it. *)
Inductive Reply :=
| Json (status : nat) (body : Body)
| Unhandled.

Definition statusOf (r : Reply) : option nat :=
  match r with Json n _ => Some n | Unhandled => None end.

(** ** Handlers that suspend

    An [async] handler runs without interruption up to its next [await]
    of a database call.  The call takes effect at some moment while the
    handler is suspended, and steps of other requests may come before it.
    A step of a request is that moment: the call runs on the database as
    it then is, and the handler goes on with the result up to its next
    [await]. *)

Module Async.

(** A handler at a suspension point: it has sent its reply, or it awaits a
    query, or it awaits a call that writes.  A call that throws leaves the
    database as it is; [k None] is what the handler does with the
    exception. *)
Inductive Handler :=
| Respond (r : Reply)
| AwaitRead {A : Type} (query : Db → A) (k : A → Handler)
| AwaitWrite {A : Type} (call : Db → option (A * Db))
    (k : option A → Handler).

(** One step: the awaited call runs and the handler goes on to its next
    suspension point. *)
Definition resume (h : Handler) (d : Db) : Handler * Db :=
  match h with
  | Respond r => (Respond r, d)
  | AwaitRead query k => (k (query d), d)
  | AwaitWrite call k =>
      match call d with
      | Some (a, d') => (k (Some a), d')
      | None => (k None, d)
      end
  end.

(** The handler runs to its reply with no other request in between. *)
Fixpoint finish (h : Handler) (d : Db) : Reply * Db :=
  match h with
  | Respond r => (r, d)
  | AwaitRead query k => finish (k (query d)) d
  | AwaitWrite call k =>
      match call d with
      | Some (a, d') => finish (k (Some a)) d'
      | None => finish (k None) d
      end
  end.

(** The requests in progress, and the one that takes the next step. *)
Definition advance (pool : list Handler * Db) (i : nat)
  : list Handler * Db :=
  match fst pool !! i with
  | None => pool
  | Some h =>
      let '(h', d') := resume h (snd pool) in (<[i := h']> (fst pool), d')
  end.

Definition schedule (order : list nat) (pool : list Handler) (d : Db)
  : list Handler * Db :=
  foldl advance (pool, d) order.

(** The reply of request [i], once it is sent. *)
Definition replyOf (i : nat) (pool : list Handler) : option Reply :=
  match pool !! i with
  | Some (Respond r) => Some r
  | _ => None
  end.

End Async.

(** ** server/src/services/s3.ts *)

Module S3.

(** [uploadToS3(key, body, contentType)]; [None] where the client throws. *)
Definition uploadToS3 (e : Env) (key : string) (body : list Byte.byte)
    (contentType : string) (b : gmap string S3Object)
  : option (gmap string S3Object) :=
  if s3Up e then Some (<[key := mkObject body contentType]> b) else None.

(** [deleteFromS3(key)] *)
Definition deleteFromS3 (e : Env) (key : string) (b : gmap string S3Object)
  : option (gmap string S3Object) :=
  if s3Up e then Some (delete key b) else None.

End S3.

(** ** server/src/routes/contracts.ts *)

Module Contracts.

(** [!title || typeof title !== 'string' || title.trim().length === 0] *)
Definition titleMissing (title : Js.value) : bool :=
  Js.falsy title
  || negb (Js.isString title)
  || match title with
     | Js.JStr s => bool_decide (String.length (Js.trim s) = 0%nat)
     | _ => false
     end.

Definition titleText (title : Js.value) : string :=
  match title with Js.JStr s => s | _ => "" end.

(** [router.patch('/:id', authenticate, ...)]: rename. *)
Definition patch (user : User.t) (id : string) (title : Js.value)
    (st : Store) : Reply * Store :=
  if titleMissing title then (Json 400 (BError "Title is required"), st)
  else
    match Prisma.contract_findUnique id (db st) with
    | None => (Json 404 (BError "Not found"), st)
    | Some contract =>
        if bool_decide (Contract.ownerId contract ≠ User.id user)
        then (Json 403 (BError "Only owner can rename"), st)
        else
          match Prisma.contract_update id
                  (Contract.setTitle (Js.trim (titleText title))) (db st) with
          | None => (Unhandled, st)
          | Some (updated, d') =>
              (Json 200 (BContract updated), mkStore d' (bucket st))
          end
    end.

(** [router.delete('/:id', authenticate, ...)] *)
Definition delete (e : Env) (user : User.t) (id : string) (st : Store)
  : Reply * Store :=
  match Prisma.contract_findUnique id (db st) with
  | None => (Json 404 (BError "Not found"), st)
  | Some contract =>
      if bool_decide (Contract.ownerId contract ≠ User.id user)
      then (Json 403 (BError "Only owner can delete"), st)
      else
        match S3.deleteFromS3 e (Contract.s3Key contract) (bucket st) with
        | None => (Unhandled, st)
        | Some b' =>
            match Prisma.contract_delete id (db st) with
            | None => (Unhandled, mkStore (db st) b')
            | Some d' =>
                (Json 200 (BMessage "Deleted successfully"), mkStore d' b')
            end
        end
  end.

End Contracts.

(** ** server/src/routes/versions.ts *)

(** [req.file] of multer's memory storage. *)
Record File := mkFile {
  buffer : list Byte.byte;
  mimetype : string;
  size : Z }.

Module Versions.

(** The [where] of the upload route: the contract [contractId], owned by
    the user or shared with the user as EDITOR or ADMIN. *)
Definition ownerOrEditor (user : User.t) (contractId : string) (d : Db)
    (c : Contract.t) : bool :=
  Prisma.hasId contractId c
  && (bool_decide (Contract.ownerId c = User.id user)
      || Prisma.permissions_some
           (λ p, bool_decide (Permission.userId p = User.id user)
                 && bool_decide (Permission.role p ∈ [EDITOR; ADMIN]))
           d c).

(** The [where] of the restore route: the contract, owned by the user. *)
Definition ownedBy (user : User.t) (contractId : string) (c : Contract.t)
  : bool :=
  Prisma.hasId contractId c
  && bool_decide (Contract.ownerId c = User.id user).

(** [`contracts/${contractId}/v${contract.version + 1}-${Date.now()}.pdf`] *)
Definition newS3Key (e : Env) (contractId : string) (c : Contract.t)
  : string :=
  "contracts/" +:+ contractId +:+ "/v" +:+ pretty (Contract.version c + 1)
    +:+ "-" +:+ pretty (now e) +:+ ".pdf".

(** The row that archives the current state of [c]. *)
Definition archiveOf (e : Env) (user : User.t) (c : Contract.t)
    (note : string) : ContractVersion.t :=
  ContractVersion.mk (newId e) (Contract.id c) (Contract.version c)
    (Contract.s3Key c) note (User.id user).

Definition failed (msg : string) : Reply := Json 500 (BError msg).

(** [router.post('/:contractId', authenticate, upload.single('file'), ...)]:
    upload of a new version.  The whole body is inside [try]; a throw
    leaves the writes made before it in place. *)
Definition upload (e : Env) (user : User.t) (contractId : string)
    (changeNote : option string) (file : option File) (st : Store)
  : Reply * Store :=
  match file with
  | None => (Json 400 (BError "No file uploaded"), st)
  | Some f =>
      match Prisma.contract_findFirst
              (ownerOrEditor user contractId (db st)) (db st) with
      | None =>
          (Json 403 (BError "Permission denied. Must be owner or editor."),
           st)
      | Some contract =>
          let note :=
            Js.orElse changeNote
              ("Version " +:+ pretty (Contract.version contract)) in
          match Prisma.contractVersion_create
                  (archiveOf e user contract note) (db st) with
          | None => (failed "Failed to upload new version", st)
          | Some d1 =>
              let key := newS3Key e contractId contract in
              match S3.uploadToS3 e key (buffer f) (mimetype f)
                      (bucket st) with
              | None =>
                  (failed "Failed to upload new version",
                   mkStore d1 (bucket st))
              | Some b1 =>
                  match Prisma.contract_update contractId
                          (Contract.setUpload key
                             (Contract.version contract + 1) (size f))
                          d1 with
                  | None =>
                      (failed "Failed to upload new version", mkStore d1 b1)
                  | Some (updatedContract, d2) =>
                      (Json 200
                         (BVersionUploaded "New version uploaded"
                            (Contract.version updatedContract)),
                       mkStore d2 b1)
                  end
              end
          end
      end
  end.

(** [router.post('/:contractId/:version/restore', authenticate, ...)].
    [versionNum] is [parseInt(version)] of a numeric route parameter. *)
Definition restore (e : Env) (user : User.t) (contractId : string)
    (versionNum : Z) (st : Store) : Reply * Store :=
  match Prisma.contract_findFirst (ownedBy user contractId) (db st) with
  | None => (Json 403 (BError "Only owner can restore versions"), st)
  | Some contract =>
      match Prisma.contractVersion_findUnique contractId versionNum
              (db st) with
      | None => (Json 404 (BError "Version not found"), st)
      | Some historicalVersion =>
          match Prisma.contractVersion_create
                  (archiveOf e user contract
                     ("Before restoring to v" +:+ pretty versionNum))
                  (db st) with
          | None => (failed "Failed to restore version", st)
          | Some d1 =>
              match Prisma.contract_update contractId
                      (Contract.setVersion
                         (ContractVersion.s3Key historicalVersion)
                         (Contract.version contract + 1))
                      d1 with
              | None =>
                  (failed "Failed to restore version",
                   mkStore d1 (bucket st))
              | Some (restoredContract, d2) =>
                  (Json 200
                     (BRestored
                        ("Restored to version " +:+ pretty versionNum)
                        (Contract.version restoredContract)),
                   mkStore d2 (bucket st))
              end
          end
      end
  end.

End Versions.

(** ** server/src/routes/permissions.ts *)

Record InviteBody := mkInviteBody {
  inviteEmail : Js.value;
  inviteRole : Js.value }.

Module Permissions.

(** [z.enum(['VIEWER', 'COMMENTER', 'EDITOR', 'ADMIN'])] *)
Definition parseRole (v : Js.value) : option Role :=
  match v with
  | Js.JStr s =>
      if bool_decide (s = "VIEWER") then Some VIEWER
      else if bool_decide (s = "COMMENTER") then Some COMMENTER
      else if bool_decide (s = "EDITOR") then Some EDITOR
      else if bool_decide (s = "ADMIN") then Some ADMIN
      else None
  | _ => None
  end.

(** [include: { user: { select: { id: true, name: true, email: true } } }] *)
Definition includeUser (p : Permission.t) (d : Db) : option UserRef :=
  (λ u, mkUserRef (User.id u) (User.name u) (User.email u))
    <$> Prisma.user_findUnique (Permission.userId p) d.

Section Zod.

(** zod's e-mail pattern. *)
Variable isEmail : string → bool.

(** [inviteSchema.parse(req.body)], [None] for a [ZodError]. *)
Definition parseInvite (b : InviteBody) : option (string * Role) :=
  match inviteEmail b with
  | Js.JStr e =>
      if isEmail e then (λ r, (e, r)) <$> parseRole (inviteRole b)
      else None
  | _ => None
  end.

(** [prisma.permission.update({ where: { id }, data: { role },
      include: { user } })] *)
Definition updateRole (i : string) (role : Role) (d : Db)
  : option ((Permission.t * option UserRef) * Db) :=
  match Prisma.permission_update i role d with
  | None => None
  | Some (updated, d') => Some ((updated, includeUser updated d'), d')
  end.

(** [prisma.permission.create({ data, include: { user } })] *)
Definition createGrant (row : Permission.t) (d : Db)
  : option ((Permission.t * option UserRef) * Db) :=
  match Prisma.permission_create row d with
  | None => None
  | Some d' => Some ((row, includeUser row d'), d')
  end.

Definition inviteFailed : Reply := Json 500 (BError "Failed to invite user").

(** [router.post('/:contractId', authenticate, ...)]: invite a user.  The
    handler awaits three lookups and one write; each definition below is
    the code that follows one [await], from the last to the first. *)

(** After [await prisma.permission.update] or [create]: the reply, or the
    [catch] of the handler. *)
Definition replied (status : nat)
    (result : option (Permission.t * option UserRef)) : Async.Handler :=
  match result with
  | None => Async.Respond inviteFailed
  | Some (permission, user) =>
      Async.Respond (Json status (BPermission permission user))
  end.

(** After [await prisma.permission.findUnique({ contractId_userId })]. *)
Definition afterExisting (e : Env) (contractId userId : string)
    (role : Role) (existing : option Permission.t) : Async.Handler :=
  match existing with
  | Some existing =>
      Async.AwaitWrite (updateRole (Permission.id existing) role)
        (replied 200)
  | None =>
      Async.AwaitWrite
        (createGrant (Permission.mk (newId e) contractId userId role))
        (replied 201)
  end.

(** After [await prisma.user.findUnique({ where: { email } })]. *)
Definition afterInvitedUser (e : Env) (user : User.t) (contractId : string)
    (role : Role) (invitedUser : option User.t) : Async.Handler :=
  match invitedUser with
  | None =>
      Async.Respond
        (Json 404 (BError "User not found. They must register first."))
  | Some invitedUser =>
      if bool_decide (User.id invitedUser = User.id user)
      then Async.Respond (Json 400 (BError "Cannot invite yourself"))
      else
        Async.AwaitRead
          (Prisma.permission_findUniquePair contractId (User.id invitedUser))
          (afterExisting e contractId (User.id invitedUser) role)
  end.

(** After [await prisma.contract.findFirst({ where: { id, ownerId } })]. *)
Definition afterContract (e : Env) (user : User.t) (contractId : string)
    (email : string) (role : Role) (contract : option Contract.t)
  : Async.Handler :=
  match contract with
  | None =>
      Async.Respond
        (Json 403 (BError "Only contract owner can invite users"))
  | Some _ =>
      Async.AwaitRead (Prisma.user_findByEmail email)
        (afterInvitedUser e user contractId role)
  end.

(** From the start of the handler to its first [await]. *)
Definition inviteHandler (e : Env) (user : User.t) (contractId : string)
    (body : InviteBody) : Async.Handler :=
  match parseInvite body with
  | None => Async.Respond (Json 400 (BError "ZodError"))
  | Some (email, role) =>
      Async.AwaitRead
        (Prisma.contract_findFirst (Versions.ownedBy user contractId))
        (afterContract e user contractId email role)
  end.

(** The invitation when no other request runs between its awaits. *)
Definition invite (e : Env) (user : User.t) (contractId : string)
    (body : InviteBody) (d : Db) : Reply * Db :=
  Async.finish (inviteHandler e user contractId body) d.

End Zod.

(** [router.patch('/:permissionId', authenticate, ...)]: change a role.
    [permission.contract] is the row the grant refers to. *)
Definition patch (user : User.t) (permissionId : string) (role : Js.value)
    (d : Db) : Reply * Db :=
  match parseRole role with
  | None => (Json 400 (BError "ZodError"), d)
  | Some r =>
      match Prisma.permission_findUnique permissionId d with
      | None => (Json 404 (BError "Permission not found"), d)
      | Some permission =>
          match Prisma.contract_findUnique
                  (Permission.contractId permission) d with
          | None => (Json 500 (BError "Failed to update permission"), d)
          | Some contract =>
              if bool_decide (Contract.ownerId contract ≠ User.id user)
              then
                (Json 403 (BError "Only owner can modify permissions"), d)
              else
                match Prisma.permission_update permissionId r d with
                | None =>
                    (Json 500 (BError "Failed to update permission"), d)
                | Some (updated, d') =>
                    (Json 200
                       (BPermission updated (includeUser updated d')), d')
                end
          end
      end
  end.

End Permissions.

(** ** server/src/routes/auth.ts and server/src/middleware/auth.ts *)

Record RegisterBody := mkRegisterBody {
  regEmail : Js.value;
  regPassword : Js.value;
  regName : Js.value }.

Record LoginBody := mkLoginBody {
  loginEmail : Js.value;
  loginPassword : Js.value }.

(** The random draws of a registration: the bcrypt salt and
    [Math.floor(Math.random() * 16777215)]. *)
Record Dice := mkDice {
  salt : string;
  colorDraw : N }.

Module Auth.

(** The row as the JavaScript object Prisma hands to the handler. *)
Definition toObject (u : User.t) : gmap string Js.value :=
  <["id" := Js.JStr (User.id u)]>
    (<["email" := Js.JStr (User.email u)]>
       (<["passwordHash" := Js.JStr (User.passwordHash u)]>
          (<["name" := Js.JStr (User.name u)]>
             (<["color" := Js.JStr (User.color u)]> ∅)))).

(** [prisma.user.create({ data })]; the e-mail column is unique. *)
Definition user_create (row : User.t) (d : Db) : option Db :=
  match Prisma.user_findByEmail (User.email row) d with
  | Some _ => None
  | None => Some (Prisma.withUsers (users d ++ [row]) d)
  end.

(** ['#' + Math.floor(Math.random() * 16777215).toString(16)] *)
Definition randomColor (r : Dice) : string :=
  "#" +:+ HexadecimalString.NilZero.string_of_uint (N.to_hex_uint (colorDraw r)).

(** The [authenticate] middleware: the reply that ends the request, or the
    user it attaches to it. *)
Definition authenticate (bearer : option Jwt.token) (t : Z) (d : Db)
  : Reply + User.t :=
  match bearer with
  | None => inl (Json 401 (BError "Authentication required"))
  | Some tok =>
      if Jwt.empty tok
      then inl (Json 401 (BError "Authentication required"))
      else
        match Jwt.verify tok t with
        | None => inl (Json 401 (BError "Invalid token"))
        | Some sub =>
            match Prisma.user_findUnique sub d with
            | None => inl (Json 401 (BError "User not found"))
            | Some user => inr user
            end
        end
  end.

(** The handler of [GET /me]:
    [const { passwordHash, ...userWithoutPassword } = req.user]. *)
Definition me (reqUser : gmap string Js.value) : Reply :=
  Json 200 (BObject (delete "passwordHash" reqUser)).

(** [router.get('/me', authenticate, ...)] *)
Definition getMe (bearer : option Jwt.token) (t : Z) (d : Db) : Reply :=
  match authenticate bearer t d with
  | inl r => r
  | inr user => me (toObject user)
  end.

Section Libraries.

(** zod's e-mail pattern, [bcrypt.hash(password, 10)] for a given salt and
    [bcrypt.compare(password, hash)]. *)
Variable isEmail : string → bool.
Variable bcryptHash : string → string → string.
Variable bcryptCompare : string → string → bool.

(** [registerSchema.parse(req.body)] *)
Definition parseRegister (b : RegisterBody)
  : option (string * string * string) :=
  match regEmail b, regPassword b, regName b with
  | Js.JStr e, Js.JStr p, Js.JStr n =>
      if isEmail e
         && bool_decide (6 ≤ String.length p)%nat
         && bool_decide (2 ≤ String.length n)%nat
      then Some (e, p, n) else None
  | _, _, _ => None
  end.

(** [loginSchema.parse(req.body)] *)
Definition parseLogin (b : LoginBody) : option (string * string) :=
  match loginEmail b, loginPassword b with
  | Js.JStr e, Js.JStr p => if isEmail e then Some (e, p) else None
  | _, _ => None
  end.

Definition invalidInput : Reply := Json 400 (BError "Invalid input").

(** [router.post('/register', ...)] *)
Definition register (e : Env) (r : Dice) (body : RegisterBody) (d : Db)
  : Reply * Db :=
  match parseRegister body with
  | None => (invalidInput, d)
  | Some (email, password, name) =>
      match Prisma.user_findByEmail email d with
      | Some existing => (Json 400 (BError "User already exists"), d)
      | None =>
          let passwordHash := bcryptHash (salt r) password in
          let color := randomColor r in
          let user := User.mk (newId e) email passwordHash name color in
          match user_create user d with
          | None => (invalidInput, d)
          | Some d' =>
              let token := Jwt.sign (User.id user) (now e) in
              (Json 200
                 (BAuth token (mkAuthUser (User.id user) email name color)),
               d')
          end
      end
  end.

(** [router.post('/login', ...)] *)
Definition login (e : Env) (body : LoginBody) (d : Db) : Reply :=
  match parseLogin body with
  | None => invalidInput
  | Some (email, password) =>
      match Prisma.user_findByEmail email d with
      | None => Json 401 (BError "Invalid credentials")
      | Some user =>
          if negb (bcryptCompare password (User.passwordHash user))
          then Json 401 (BError "Invalid credentials")
          else
            let token := Jwt.sign (User.id user) (now e) in
            Json 200
              (BAuth token
                 (mkAuthUser (User.id user) (User.email user)
                    (User.name user) (User.color user)))
      end
  end.

End Libraries.

End Auth.

(** ** The yjs library, as far as the server drives it

    The merge substrate is a convergent replicated data type.  A document is
    the set of items integrated so far and an update is a set of items; the
    items are numbered.  Merging is union, which is commutative, associative
    and idempotent.  The base64 transport coding of an update is the
    identity on this representation; what a client sends in place of an
    update need not decode at all. *)

Module Y.

(** A [Y.Doc] object: its content and its ['update'] observers.  The
    observers are the closures registered by [getYjsDoc]; each one is
    given by the [docId] it captured. *)
Record Doc := mkDoc {
  items : gset nat;
  observers : list string }.

(** [new Y.Doc({ gc })] *)
Definition new : Doc := mkDoc ∅ [].

(** [Y.encodeStateAsUpdate(doc)] *)
Definition encodeStateAsUpdate (doc : Doc) : gset nat := items doc.

(** [Y.applyUpdate(doc, update)]: the document after the transaction, and
    whether the transaction had content, in which case the ['update']
    observers are called. *)
Definition applyUpdate (doc : Doc) (update : gset nat) : Doc * bool :=
  (mkDoc (items doc ∪ update) (observers doc),
   bool_decide (¬ update ⊆ items doc)).

(** [doc.on('update', f)] *)
Definition on (docId : string) (doc : Doc) : Doc :=
  mkDoc (items doc) (observers doc ++ [docId]).

(** The argument of an ['update'] event as it arrives from a client: the
    base64 text of an encoded update, or anything else. *)
Inductive Wire :=
| Encoded (update : gset nat)
| Malformed (raw : string).

(** [Buffer.from(updateBase64, 'base64')] and the decoder that
    [Y.applyUpdate] runs on the bytes: the update they encode, or [None]
    where decoding throws. *)
Definition readUpdate (arg : Wire) : option (gset nat) :=
  match arg with
  | Encoded update => Some update
  | Malformed _ => None
  end.

End Y.

(** ** The socket server: server/src/services/yjs.ts and
       server/src/socket/index.ts *)

(** A suspended ['join-contract'] handler: the socket, the contract id and
    the reference of the document [getYjsDoc] has constructed and is
    loading. *)
Record Joining := mkJoining {
  jSocket : nat;
  jContract : string;
  jDoc : nat }.

(** Modelled from the spec: server/src/services/redis.js, which creates the
    client, is not part of the sources.  The Durable State Store is a
    key/value store with "get(key) -> bytes|absent" and "put(key, bytes)".
    The commands [getBuffer] and [set] go over the one connection of the
    client and are answered in the order they were sent; a command sent and
    not yet answered is in flight. *)
Inductive RedisCmd :=
| GetBuffer (key : string) (k : Joining)
| RedisSet (key : string) (value : gset nat).

Definition isWrite (c : RedisCmd) : bool :=
  match c with RedisSet _ _ => true | GetBuffer _ _ => false end.

(** What a client receives. *)
Inductive Message :=
| ConnectError (reason : string)
| Sync (state : gset nat)
| UpdateMsg (update : gset nat)
| CursorMsg (userId userName color position : string).

#[global] Instance Message_eq_dec : EqDecision Message.
Proof. solve_decision. Defined.

(** The closures a ['join-contract'] registers on the socket for ['update']
    and ['cursor']: they capture [contractId] and [doc]. *)
Record Listener := mkListener {
  lContract : string;
  lDoc : nat }.

Record Socket := mkSocket {
  sUser : User.t;
  sListeners : list Listener }.

(** The state of the serving process and of what it talks to.  Objects of
    class [Y.Doc] live in [heap] and are referred to by their index, so that
    the map [docs] and the closures can share one. *)
Record World := mkWorld {
  wDb : Db;
  docs : gmap string nat;
  heap : list Y.Doc;
  redis : gmap string (gset nat);
  inflight : list RedisCmd;
  sockets : gmap nat Socket;
  rooms : gmap string (gset nat);
  outbox : list (nat * Message) }.

Inductive Event :=
| Connect (sid : nat) (token : option Jwt.token) (t : Z)
| JoinContract (sid : nat) (contractId : string)
| Update (sid : nat) (arg : Y.Wire)
| Cursor (sid : nat) (position : string)
| Disconnect (sid : nat)
| RedisReply.

Module Yjs.

Definition key (docId : string) : string := "yjs:doc:" +:+ docId.

(** The body of the observer [getYjsDoc] registers, up to its [await]:
    encode the whole document and send the [SET]. *)
Definition autoSave (doc : Y.Doc) (docId : string) : RedisCmd :=
  RedisSet (key docId) (Y.encodeStateAsUpdate doc).

(** [getYjsDoc(docId)] up to its first suspension.  A hit in [docs]
    returns the reference; a miss constructs a document and sends the
    read. *)
Definition getYjsDoc_start (k : nat → Joining) (docId : string) (w : World)
  : option nat * World :=
  match docs w !! docId with
  | Some a => (Some a, w)
  | None =>
      let a := length (heap w) in
      (None,
       mkWorld (wDb w) (docs w) (heap w ++ [Y.new]) (redis w)
         (inflight w ++ [GetBuffer (key docId) (k a)])
         (sockets w) (rooms w) (outbox w))
  end.

(** [getYjsDoc(docId)] after [await redis.getBuffer]: apply what was
    stored, publish the document in [docs], register the observer. *)
Definition getYjsDoc_resume (docId : string) (a : nat)
    (stored : option (gset nat)) (w : World) : World :=
  let load (doc : Y.Doc) :=
    match stored with
    | Some st => fst (Y.applyUpdate doc st)
    | None => doc
    end in
  mkWorld (wDb w) (<[docId := a]> (docs w))
    (alter (λ doc, Y.on docId (load doc)) a (heap w))
    (redis w) (inflight w) (sockets w) (rooms w) (outbox w).

End Yjs.

Module SocketServer.

Definition room (contractId : string) : string := "contract:" +:+ contractId.

Definition emit (to : nat) (m : Message) (w : World) : World :=
  mkWorld (wDb w) (docs w) (heap w) (redis w) (inflight w) (sockets w)
    (rooms w) (outbox w ++ [(to, m)]).

(** [socket.to(room).emit(...)]: every member of the room but the sender. *)
Definition broadcast (from : nat) (r : string) (m : Message) (w : World)
  : World :=
  let members := elements (default ∅ (rooms w !! r) ∖ {[from]}) in
  mkWorld (wDb w) (docs w) (heap w) (redis w) (inflight w) (sockets w)
    (rooms w) (outbox w ++ map (λ to, (to, m)) members).

(** The [io.use] middleware: verify the token, look the user up, attach
    it to the socket. *)
Definition connect (sid : nat) (token : option Jwt.token) (t : Z)
    (w : World) : World :=
  let refuse reason := emit sid (ConnectError reason) w in
  match token with
  | None => refuse "Authentication required"
  | Some tok =>
      if Jwt.empty tok then refuse "Authentication required"
      else
        match Jwt.verify tok t with
        | None => refuse "Invalid token"
        | Some sub =>
            match Prisma.user_findUnique sub (wDb w) with
            | None => refuse "User not found"
            | Some user =>
                mkWorld (wDb w) (docs w) (heap w) (redis w) (inflight w)
                  (<[sid := mkSocket user []]> (sockets w)) (rooms w)
                  (outbox w)
            end
        end
  end.

(** [socket.join(`contract:${contractId}`)] *)
Definition socketJoin (sid : nat) (contractId : string) (w : World)
  : World :=
  let r := room contractId in
  mkWorld (wDb w) (docs w) (heap w) (redis w) (inflight w) (sockets w)
    (<[r := {[sid]} ∪ default ∅ (rooms w !! r)]> (rooms w)) (outbox w).

(** The ['join-contract'] handler after [await getYjsDoc(contractId)]:
    send the initial state, register the ['update'] and ['cursor']
    listeners. *)
Definition joined (sid : nat) (contractId : string) (a : nat) (w : World)
  : World :=
  match sockets w !! sid, heap w !! a with
  | Some sock, Some doc =>
      let w1 := emit sid (Sync (Y.encodeStateAsUpdate doc)) w in
      mkWorld (wDb w1) (docs w1) (heap w1) (redis w1) (inflight w1)
        (<[sid := mkSocket (sUser sock)
                    (sListeners sock ++ [mkListener contractId a])]>
           (sockets w1))
        (rooms w1) (outbox w1)
  | _, _ => w
  end.

(** The ['join-contract'] handler up to its suspension.  No permission is
    consulted ("Permission check could go here"). *)
Definition joinContract (sid : nat) (contractId : string) (w : World)
  : World :=
  match sockets w !! sid with
  | None => w
  | Some _ =>
      let w1 := socketJoin sid contractId w in
      match Yjs.getYjsDoc_start (mkJoining sid contractId) contractId w1 with
      | (Some a, w2) => joined sid contractId a w2
      | (None, w2) => w2
      end
  end.

(** One ['update'] listener past the decoding of its argument: apply the
    update to the captured document, run the document's observers if the
    transaction had content, relay the update to the rest of the room. *)
Definition merge (sid : nat) (update : gset nat) (w : World)
    (l : Listener) : World :=
  match heap w !! lDoc l with
  | None => w
  | Some doc =>
      let '(doc', fired) := Y.applyUpdate doc update in
      let writes :=
        if fired then map (Yjs.autoSave doc') (Y.observers doc') else [] in
      let w1 :=
        mkWorld (wDb w) (docs w) (<[lDoc l := doc']> (heap w)) (redis w)
          (inflight w ++ writes) (sockets w) (rooms w) (outbox w) in
      broadcast sid (room (lContract l)) (UpdateMsg update) w1
  end.

(** One ['update'] listener, called with whatever the client sent; [None]
    where it throws.  The listener has no [try]. *)
Definition onUpdate (sid : nat) (arg : Y.Wire) (w : World) (l : Listener)
  : option World :=
  match Y.readUpdate arg with
  | Some update => Some (merge sid update w l)
  | None => None
  end.

(** socket.io calls the listeners of an event in the order they were
    registered; the first one that throws ends the call. *)
Fixpoint dispatch (f : World → Listener → option World) (w : World)
    (ls : list Listener) : option World :=
  match ls with
  | [] => Some w
  | l :: rest =>
      match f w l with
      | Some w' => dispatch f w' rest
      | None => None
      end
  end.

(** An exception that reaches the event loop ends the Node process, and
    with it the live documents, the sockets, the rooms and the handlers
    that wait for an answer.  The database, what Redis holds, the writes
    already sent to it and the messages already emitted stay: this is the
    state a process that is started again finds. *)
Definition crash (w : World) : World :=
  mkWorld (wDb w) ∅ [] (redis w) (filter (λ c, isWrite c) (inflight w)) ∅ ∅
    (outbox w).

(** One ['cursor'] listener. *)
Definition onCursor (sid : nat) (user : User.t) (position : string)
    (w : World) (l : Listener) : World :=
  broadcast sid (room (lContract l))
    (CursorMsg (User.id user) (User.name user) (User.color user) position)
    w.

(** A disconnected socket leaves its rooms and loses its listeners. *)
Definition disconnect (sid : nat) (w : World) : World :=
  mkWorld (wDb w) (docs w) (heap w) (redis w) (inflight w)
    (delete sid (sockets w)) ((λ members, members ∖ {[sid]}) <$> rooms w)
    (outbox w).

(** The answer to the oldest command in flight. *)
Definition redisReply (w : World) : World :=
  match inflight w with
  | [] => w
  | RedisSet k v :: rest =>
      mkWorld (wDb w) (docs w) (heap w) (<[k := v]> (redis w)) rest
        (sockets w) (rooms w) (outbox w)
  | GetBuffer k j :: rest =>
      let w1 :=
        mkWorld (wDb w) (docs w) (heap w) (redis w) rest (sockets w)
          (rooms w) (outbox w) in
      joined (jSocket j) (jContract j) (jDoc j)
        (Yjs.getYjsDoc_resume (jContract j) (jDoc j) (redis w !! k) w1)
  end.

Definition step (w : World) (e : Event) : World :=
  match e with
  | Connect sid token t => connect sid token t w
  | JoinContract sid contractId => joinContract sid contractId w
  | Update sid arg =>
      match sockets w !! sid with
      | None => w
      | Some sock =>
          match dispatch (onUpdate sid arg) w (sListeners sock) with
          | Some w' => w'
          | None => crash w
          end
      end
  | Cursor sid position =>
      match sockets w !! sid with
      | None => w
      | Some sock =>
          foldl (onCursor sid (sUser sock) position) w (sListeners sock)
      end
  | Disconnect sid => disconnect sid w
  | RedisReply => redisReply w
  end.

Definition run (w : World) (es : list Event) : World := foldl step w es.

End SocketServer.

(** ** Integrity constraints of the schema *)

(** The primary key of the contract table. *)
Definition contractKey (d : Db) : Prop :=
  NoDup (map Contract.id (contracts d)).

(** Every archived snapshot of a contract carries a version number below
    the contract's current one. *)
Definition versionsBelow (d : Db) : Prop :=
  ∀ c v, c ∈ contracts d → v ∈ contractVersions d →
         ContractVersion.contractId v = Contract.id c →
         ContractVersion.version v < Contract.version c.

(** The compound key [contractId_userId] of the permission table. *)
Definition grantOf (p : Permission.t) : string * string :=
  (Permission.contractId p, Permission.userId p).

Definition grantKey (d : Db) : Prop :=
  NoDup (map grantOf (permissions d)).

(** The primary key of the permission table. *)
Definition permissionKey (d : Db) : Prop :=
  NoDup (map Permission.id (permissions d)).

(** The database with every stored password hash replaced: the hash of
    user [u] becomes [h u], nothing else changes. *)
Definition reHash (h : User.t → string) (d : Db) : Db :=
  Prisma.withUsers (map (λ u, User.setPasswordHash (h u) u) (users d)) d.

(** The world with other contracts and grants in its database; users, live
    documents, sockets and queues are kept. *)
Definition reshare (cs : list Contract.t) (ps : list Permission.t)
    (w : World) : World :=
  mkWorld (mkDb (users (wDb w)) cs (contractVersions (wDb w)) ps)
    (docs w) (heap w) (redis w) (inflight w) (sockets w) (rooms w)
    (outbox w).

(** ** A small installation, used to run the handlers *)

Module Sample.

Definition alice : User.t :=
  User.mk "u1" "alice@example.com" "hash-a" "Alice" "#a1b2c3".
Definition bob : User.t :=
  User.mk "u2" "bob@example.com" "hash-b" "Bob" "#00ff00".
Definition carol : User.t :=
  User.mk "u3" "carol@example.com" "hash-c" "Carol" "#0000ff".

(** The contract of Alice, at version 2; version 1 is archived. *)
Definition nda : Contract.t :=
  Contract.mk "c1" "NDA" "contracts/c1/v2-1700.pdf" "u1" 100 1 2.

Definition ndaV1 : ContractVersion.t :=
  ContractVersion.mk "v1" "c1" 1 "contracts/1600-nda.pdf" "Version 1" "u1".

(** Bob holds the grant [r] on the contract, Carol holds none. *)
Definition dbWith (r : Role) : Db :=
  mkDb [alice; bob; carol] [nda] [ndaV1] [Permission.mk "p1" "c1" "u2" r].

Definition store (r : Role) : Store := mkStore (dbWith r) ∅.

(** Bob is ADMIN and Carol is VIEWER of the contract. *)
Definition shared : Db :=
  mkDb [alice; bob; carol] [nda] [ndaV1]
    [Permission.mk "p1" "c1" "u2" ADMIN; Permission.mk "p2" "c1" "u3" VIEWER].

(** A stand-in for zod's e-mail pattern that lets every string through; the
    addresses used below are well formed. *)
Definition anyEmail (s : string) : bool := true.

Definition inviteCarol (r : string) : InviteBody :=
  mkInviteBody (Js.JStr "carol@example.com") (Js.JStr r).

(** The serving process at start, Bob holding the grant [r]; Redis holds
    the items 1 and 2 of the contract's document. *)
Definition world (r : Role) : World :=
  mkWorld (dbWith r) ∅ [] {[ "yjs:doc:c1" := {[1%nat; 2%nat]} ]} [] ∅ ∅ [].

(** The socket [sid] of user [u] connects with a token signed at time 0. *)
Definition hello (sid : nat) (u : User.t) : Event :=
  Connect sid (Some (Jwt.sign (User.id u) 0)) 5.

(** Alice and Bob are in the room of the contract; Bob sends an update that
    adds item 7. *)
Definition bobEdits : list Event :=
  [hello 1 alice; hello 2 bob; JoinContract 1 "c1"; RedisReply;
   JoinContract 2 "c1"; Update 2 (Y.Encoded {[7%nat]})].

(** Carol connects and joins the room of the contract. *)
Definition carolJoins : list Event :=
  [hello 3 carol; JoinContract 3 "c1"; RedisReply].

(** Alice and Bob join before the document was ever loaded, and the second
    join arrives before Redis has answered the first read. *)
Definition racingJoins : list Event :=
  [hello 1 alice; hello 2 bob; JoinContract 1 "c1"; JoinContract 2 "c1"].

(** Both reads are answered; Alice adds item 7; Carol joins. *)
Definition afterRace : list Event :=
  [RedisReply; RedisReply; Update 1 (Y.Encoded {[7%nat]}); hello 3 carol;
   JoinContract 3 "c1"].

(** Alice alone sends two updates before Redis answers any write. *)
Definition burst : list Event :=
  [hello 1 alice; JoinContract 1 "c1"; RedisReply;
   Update 1 (Y.Encoded {[7%nat]}); Update 1 (Y.Encoded {[8%nat]})].

(** Stand-ins for bcrypt: the hash records salt and password, and a
    password matches the hashes made from it. *)
Definition toyHash (salt password : string) : string :=
  salt +:+ "$" +:+ password.

Definition toyCompare (password hash : string) : bool :=
  bool_decide (hash = "s1$" +:+ password)
  || bool_decide (hash = "s2$" +:+ password).

(** Dana registered with the password "tr0ub4dor" and the salt "s1". *)
Definition dana : User.t :=
  User.mk "u4" "dana@example.com" "s1$tr0ub4dor" "Dana" "#123456".

Definition members : Db := mkDb [alice; dana] [] [] [].

Definition danaLogin : LoginBody :=
  mkLoginBody (Js.JStr "dana@example.com") (Js.JStr "tr0ub4dor").

(** The same password hashed under the other salt. *)
Definition otherSalt (u : User.t) : string := "s2$tr0ub4dor".

Definition env : Env := mkEnv 1800 "id9" true.

Definition pdf : File := mkFile [] "application/pdf" 0.

End Sample.

(** * The remaining routes *)

(** What a route sends: [res.status(n).json(data)], the error object
    [res.status(n).json({ error })], or nothing where the handler promise
    is rejected outside any [try]. *)
Inductive Answer (A : Type) :=
| Sent (status : nat) (data : A)
| Refused (status : nat) (error : string)
| Crashed.

Arguments Sent {A} status data.
Arguments Refused {A} status error.
Arguments Crashed {A}.

Definition answerStatus {A} (r : Answer A) : option nat :=
  match r with
  | Sent n _ | Refused n _ => Some n
  | Crashed => None
  end.

(** A presigned GET URL: the object it opens and the seconds it lasts. *)
Record SignedUrl := mkSignedUrl {
  urlKey : string;
  urlExpiresIn : Z }.

(** [getSignedUrl(key, expiresIn = 3600)] of services/s3.ts, also exported
    as [getSignedDownloadUrl]. *)
Definition getSignedUrl (key : string) : SignedUrl := mkSignedUrl key 3600.

(** The [where] shared by the read routes: the contract [contractId], owned
    by the user or shared with the user under any role. *)
Definition ownedOrShared (user : User.t) (contractId : string) (d : Db)
    (c : Contract.t) : bool :=
  Prisma.hasId contractId c
  && (bool_decide (Contract.ownerId c = User.id user)
      || Prisma.permissions_some
           (λ p, bool_decide (Permission.userId p = User.id user)) d c).

(** ** server/src/routes/contracts.ts: create and read *)

Record ContractDetails := mkContractDetails {
  dContract : Contract.t;
  dOwner : option UserRef;
  dPermissions : list (Permission.t * option UserRef);
  dPdfUrl : SignedUrl }.

Module Catalog.

Definition userRef (u : User.t) : UserRef :=
  mkUserRef (User.id u) (User.name u) (User.email u).

(** [include: { permissions: { include: { user: { select } } } }] *)
Definition permissionsOf (c : Contract.t) (d : Db)
  : list (Permission.t * option UserRef) :=
  map (λ p, (p, userRef <$> Prisma.user_findUnique (Permission.userId p) d))
      (filter (λ p, Permission.contractId p = Contract.id c) (permissions d)).

(** [router.get('/:id', authenticate, ...)] *)
Definition get (user : User.t) (id : string) (d : Db)
  : Answer ContractDetails :=
  match Prisma.contract_findUnique id d with
  | None => Refused 404 "Not found"
  | Some contract =>
      let shared := permissionsOf contract d in
      let hasAccess :=
        bool_decide (Contract.ownerId contract = User.id user)
        || existsb (λ p, bool_decide (Permission.userId (fst p) = User.id user))
             shared in
      if negb hasAccess then Refused 403 "Access denied"
      else
        Sent 200
          (mkContractDetails contract
             (userRef <$> Prisma.user_findUnique (Contract.ownerId contract) d)
             shared (getSignedUrl (Contract.s3Key contract)))
  end.

(** Modelled from the spec: the column default of [version] in
    prisma/schema.prisma, which is not part of the sources; the "current
    version number (monotonic, starts at 1)".  The row of
    [prisma.contract.create] for the data the route passes. *)
Definition newContract (e : Env) (user : User.t) (title s3Key : string)
    (f : File) : Contract.t :=
  Contract.mk (newId e) title s3Key (User.id user) (size f) 1 1.

(** [router.post('/', authenticate, upload.single('file'), ...)]: the file
    with its original name, and the title field of the form. *)
Definition post (e : Env) (user : User.t) (file : option (File * string))
    (title : option string) (st : Store) : Answer Contract.t * Store :=
  match file with
  | None => (Refused 400 "No file uploaded", st)
  | Some (f, originalname) =>
      match title with
      | None => (Refused 400 "Title is required", st)
      | Some t =>
          if bool_decide (t = "") then (Refused 400 "Title is required", st)
          else
            let s3Key := "contracts/" +:+ pretty (now e) +:+ "-"
                           +:+ originalname in
            match S3.uploadToS3 e s3Key (buffer f) (mimetype f)
                    (bucket st) with
            | None => (Refused 500 "Failed to upload file", st)
            | Some b' =>
                let contract := newContract e user t s3Key f in
                (Sent 200 contract,
                 mkStore
                   (Prisma.withContracts (contracts (db st) ++ [contract])
                      (db st))
                   b')
            end
      end
  end.

End Catalog.

(** ** server/src/routes/versions.ts: history and download *)

(** An entry of the version history. *)
Record VersionEntry := mkVersionEntry {
  eId : string;
  eVersion : Z;
  eChangeNote : string;
  eCreatedById : string;
  eIsCurrent : bool }.

(** The reply of the download route. *)
Record VersionUrl := mkVersionUrl {
  vPdfUrl : SignedUrl;
  vVersion : Z;
  vChangeNote : option string;
  vIsCurrent : bool }.

Module History.

(** [orderBy: { version: 'desc' }] *)
Definition newerFirst (a b : ContractVersion.t) : Prop :=
  ContractVersion.version b ≤ ContractVersion.version a.

#[global] Instance newerFirst_dec : RelDecision newerFirst.
Proof. intros a b. unfold newerFirst. apply _. Defined.

(** [prisma.contractVersion.findMany({ where: { contractId }, orderBy })] *)
Definition findMany (contractId : string) (d : Db)
  : list ContractVersion.t :=
  merge_sort newerFirst
    (filter (λ v, ContractVersion.contractId v = contractId)
       (contractVersions d)).

Definition currentEntry (c : Contract.t) : VersionEntry :=
  mkVersionEntry (Contract.id c) (Contract.version c) "Current version"
    (Contract.ownerId c) true.

Definition pastEntry (v : ContractVersion.t) : VersionEntry :=
  mkVersionEntry (ContractVersion.id v) (ContractVersion.version v)
    (ContractVersion.changeNote v) (ContractVersion.createdById v) false.

(** [router.get('/:contractId', authenticate, ...)] *)
Definition list (user : User.t) (contractId : string) (d : Db)
  : Answer (list VersionEntry) :=
  match Prisma.contract_findFirst (ownedOrShared user contractId d) d with
  | None => Refused 404 "Contract not found or access denied"
  | Some contract =>
      Sent 200 (currentEntry contract :: map pastEntry (findMany contractId d))
  end.

(** [router.get('/:contractId/:version', authenticate, ...)];
    [versionNum] is [parseInt(version)] of a numeric route parameter. *)
Definition get (user : User.t) (contractId : string) (versionNum : Z)
    (d : Db) : Answer VersionUrl :=
  match Prisma.contract_findFirst (ownedOrShared user contractId d) d with
  | None => Refused 404 "Contract not found or access denied"
  | Some contract =>
      if bool_decide (versionNum = Contract.version contract)
      then
        Sent 200
          (mkVersionUrl (getSignedUrl (Contract.s3Key contract))
             (Contract.version contract) None true)
      else
        match Prisma.contractVersion_findUnique contractId versionNum d with
        | None => Refused 404 "Version not found"
        | Some historicalVersion =>
            Sent 200
              (mkVersionUrl
                 (getSignedUrl (ContractVersion.s3Key historicalVersion))
                 (ContractVersion.version historicalVersion)
                 (Some (ContractVersion.changeNote historicalVersion)) false)
        end
  end.

End History.

(** ** server/src/routes/permissions.ts: list and removal *)

Module Grants.

(** [router.get('/:contractId', authenticate, ...)] *)
Definition list (user : User.t) (contractId : string) (d : Db)
  : Answer (list (Permission.t * option UserRef)) :=
  match Prisma.contract_findFirst (Versions.ownedBy user contractId) d with
  | None => Refused 404 "Contract not found or not owner"
  | Some _ =>
      Sent 200
        (map (λ p, (p, Permissions.includeUser p d))
           (filter (λ p, Permission.contractId p = contractId)
              (permissions d)))
  end.

(** [prisma.permission.delete({ where: { id } })] *)
Definition permission_delete (i : string) (d : Db) : option Db :=
  match Prisma.permission_findUnique i d with
  | None => None
  | Some _ =>
      Some (Prisma.withPermissions
              (filter (λ p, Permission.id p ≠ i) (permissions d)) d)
  end.

(** [router.delete('/:permissionId', authenticate, ...)]: the owner removes
    anyone, a user removes the own grant. *)
Definition delete (user : User.t) (permissionId : string) (d : Db)
  : Answer bool * Db :=
  match Prisma.permission_findUnique permissionId d with
  | None => (Refused 404 "Permission not found", d)
  | Some permission =>
      match Prisma.contract_findUnique (Permission.contractId permission) d
      with
      | None => (Refused 500 "Failed to remove permission", d)
      | Some contract =>
          if bool_decide (Contract.ownerId contract ≠ User.id user)
             && bool_decide (Permission.userId permission ≠ User.id user)
          then (Refused 403 "Cannot remove this permission", d)
          else
            match permission_delete permissionId d with
            | None => (Refused 500 "Failed to remove permission", d)
            | Some d' => (Sent 200 true, d')
            end
      end
  end.

End Grants.

(** The user [uid] holds a grant, of whatever role, on the contract [cid]. *)
Definition holdsGrant (uid cid : string) (d : Db) : Prop :=
  ∃ p, p ∈ permissions d
       ∧ Permission.contractId p = cid
       ∧ Permission.userId p = uid.

(** The user owns the contract or holds a grant on it. *)
Definition mayRead (user : User.t) (c : Contract.t) (d : Db) : Prop :=
  Contract.ownerId c = User.id user
  ∨ holdsGrant (User.id user) (Contract.id c) d.

(** The compound key [contractId_version] of the snapshot table. *)
Definition snapshotOf (v : ContractVersion.t) : string * Z :=
  (ContractVersion.contractId v, ContractVersion.version v).

Definition versionKey (d : Db) : Prop :=
  NoDup (map snapshotOf (contractVersions d)).

(** Entry [a] carries a higher version number than entry [b]. *)
Definition newerEntry (a b : VersionEntry) : Prop :=
  eVersion b < eVersion a.

(** ** A contract with a longer history *)

Module Demo.

(** The contract of Alice at version 3; versions 1 and 2 are archived. *)
Definition lease : Contract.t :=
  Contract.mk "c7" "Lease" "contracts/c7/v3-3000.pdf" "u1" 200 1 3.

Definition leaseV1 : ContractVersion.t :=
  ContractVersion.mk "v71" "c7" 1 "contracts/1000-lease.pdf" "Version 1" "u1".

Definition leaseV2 : ContractVersion.t :=
  ContractVersion.mk "v72" "c7" 2 "contracts/c7/v2-2000.pdf" "typos" "u2".

(** Bob is EDITOR of the lease and COMMENTER of the NDA; Carol is VIEWER of
    the lease. *)
Definition office : Db :=
  mkDb [Sample.alice; Sample.bob; Sample.carol] [Sample.nda; lease]
    [leaseV1; Sample.ndaV1; leaseV2]
    [Permission.mk "p7" "c7" "u2" EDITOR;
     Permission.mk "p8" "c1" "u2" COMMENTER;
     Permission.mk "p9" "c7" "u3" VIEWER].

Definition desk : Store := mkStore office ∅.

(** The object store does not answer. *)
Definition outage : Env := mkEnv 4000 "id10" false.

Definition later : Env := mkEnv 5000 "id11" true.

End Demo.

(** The unique e-mail column and the primary key of the user table. *)
Definition emailKey (d : Db) : Prop := NoDup (map User.email (users d)).

Definition userKey (d : Db) : Prop := NoDup (map User.id (users d)).

(** Seven days, in seconds: the life of a token. *)
Definition tokenLife : Z := 7 * 24 * 60 * 60.

(** ** Vocabulary for the socket server *)

(** Every live document of [h] is still there in [h'], with at least the
    items it had. *)
Definition grows (h h' : list Y.Doc) : Prop :=
  ∀ a doc, h !! a = Some doc →
           ∃ doc', h' !! a = Some doc' ∧ Y.items doc ⊆ Y.items doc'.

Definition isSet (c : RedisCmd) : Prop :=
  match c with RedisSet _ _ => True | GetBuffer _ _ => False end.

(** Redis answers every command that is in flight. *)
Definition drain (w : World) : World :=
  SocketServer.run w (replicate (length (inflight w)) RedisReply).

(** The claims a bearer token would have to carry to pass the handshake. *)
Definition handshakeUser (token : option Jwt.token) (t : Z) (d : Db)
  : option User.t :=
  match token with
  | None => None
  | Some tok =>
      match Jwt.verify tok t with
      | None => None
      | Some sub => Prisma.user_findUnique sub d
      end
  end.

(** The events a client sends over the socket [sid] once it is connected. *)
Definition sentBy (sid : nat) (e : Event) : Prop :=
  match e with
  | JoinContract s _ | Update s _ | Cursor s _ => s = sid
  | _ => False
  end.

(** The members of a room. *)
Definition members (r : string) (w : World) : gset nat :=
  default ∅ (rooms w !! r).

(** The effect of an answered [SET] on the store. *)
Definition applySet (m : gmap string (gset nat)) (c : RedisCmd)
  : gmap string (gset nat) :=
  match c with
  | RedisSet k v => <[k := v]> m
  | GetBuffer _ _ => m
  end.

(** The serving process when it starts on a database and on what Redis
    holds: no live document, no socket, nothing in flight. *)
Definition boot (d : Db) (stored : gmap string (gset nat)) : World :=
  mkWorld d ∅ [] stored [] ∅ ∅ [].

(** The document at reference [a] is constructed and carries the one
    observer that [getYjsDoc(docId)] registers. *)
Definition observed (h : list Y.Doc) (docId : string) (a : nat) : Prop :=
  ∃ doc, h !! a = Some doc ∧ Y.observers doc = [docId].

(** A read in flight is that of a document that is constructed and has no
    observer yet. *)
Definition loading (h : list Y.Doc) (c : RedisCmd) : Prop :=
  match c with
  | GetBuffer _ j => ∃ doc, h !! jDoc j = Some doc ∧ Y.observers doc = []
  | RedisSet _ _ => True
  end.

(** The references of the documents whose read is in flight. *)
Definition loads (q : list RedisCmd) : list nat :=
  omap (λ c, match c with
             | GetBuffer _ j => Some (jDoc j)
             | RedisSet _ _ => None
             end) q.

(** What holds of the registry of live documents in every state the server
    reaches: the map and the listeners refer to documents that have their
    one observer, and every document still loading is awaited by one read. *)
Record coherent (w : World) : Prop := mkCoherent {
  co_docs : ∀ docId a, docs w !! docId = Some a → observed (heap w) docId a;
  co_listeners :
    ∀ sid sock l, sockets w !! sid = Some sock → l ∈ sListeners sock →
                  observed (heap w) (lContract l) (lDoc l);
  co_loading : Forall (loading (heap w)) (inflight w);
  co_loads : NoDup (loads (inflight w)) }.

(** Every document of [h] is still at its reference in [h'], with the
    observers it had. *)
Definition keepsObservers (h h' : list Y.Doc) : Prop :=
  ∀ a doc, h !! a = Some doc →
           ∃ doc', h' !! a = Some doc' ∧ Y.observers doc' = Y.observers doc.

(** * client/src/lib/errors.ts: the retry helper *)

Module Retry.

(** What a call can throw: an axios error, with the status of the response
    if there was one, or anything else. *)
Inductive Failure :=
| AxiosError (status : option Z)
| OtherError (message : string).

(** The outcome of one call of [fn]. *)
Inductive Outcome (T : Type) :=
| Resolved (value : T)
| Thrown (error : Failure).

Arguments Resolved {T} value.
Arguments Thrown {T} error.

(** How [withRetry] ends: with the value of a call, or throwing; it throws
    [undefined] if no call was made. *)
Inductive Ending (T : Type) :=
| Returned (value : T)
| Rethrown (lastError : option Failure).

Arguments Returned {T} value.
Arguments Rethrown {T} lastError.

(** A run: how it ends, how often [fn] was called, and the delays handed
    to [setTimeout], in order.  What a timer does with its delay is the
    browser's affair. *)
Record Run (T D : Type) := mkRun {
  ending : Ending T;
  calls : nat;
  timers : list D }.

Arguments mkRun {T D} ending calls timers.
Arguments ending {T D} r.
Arguments calls {T D} r.
Arguments timers {T D} r.

(** [{ maxRetries = 3, baseDelay = 1000 } = options], for options that are
    whole numbers. *)
Record Options := mkOptions {
  maxRetries : option Z;
  baseDelay : option Z }.

(** [Number.MAX_SAFE_INTEGER]: up to here [attempt++] counts exactly. *)
Definition maxSafe : Z := 2 ^ 53 - 1.

(** [axios.isAxiosError(error) && error.response?.status
      && error.response.status < 500] *)
Definition clientError (error : Failure) : bool :=
  match error with
  | AxiosError (Some status) =>
      negb (bool_decide (status = 0)) && bool_decide (status < 500)
  | _ => false
  end.

Section Loop.

Context {T D : Type}.

(** [baseDelay * Math.pow(2, attempt)]: a product of doubles, whose value
    is left to the arithmetic of the engine. *)
Variable delayOf : Z → nat → D.

(** The successive outcomes of [fn()]: the outcome of call number [k]. *)
Variable fn : nat → Outcome T.
Variables (max base : Z).

(** The [for] loop from [attempt] on, with [remaining] iterations to go. *)
Fixpoint loop (remaining attempt : nat) (lastError : option Failure)
    (naps : list D) : Run T D :=
  match remaining with
  | O => mkRun (Rethrown lastError) attempt naps
  | S remaining' =>
      match fn attempt with
      | Resolved value => mkRun (Returned value) (S attempt) naps
      | Thrown error =>
          if clientError error
          then mkRun (Rethrown (Some error)) (S attempt) naps
          else
            let naps' :=
              if bool_decide (Z.of_nat attempt < max - 1)
              then naps ++ [delayOf base attempt]
              else naps in
            loop remaining' (S attempt) (Some error) naps'
      end
  end.

End Loop.

(** [withRetry(fn, options)] *)
Definition withRetry {T D} (delayOf : Z → nat → D) (fn : nat → Outcome T)
    (options : Options) : Run T D :=
  let max := default 3 (maxRetries options) in
  let base := default 1000 (baseDelay options) in
  loop delayOf fn max base (Z.to_nat max) 0 None [].

(** The delays before the attempts 1, ..., [n]. *)
Definition backoff {D} (delayOf : Z → nat → D) (base : Z) (n : nat)
  : list D :=
  map (delayOf base) (seq 0 n).

(** A failure that is tried again. *)
Definition retried {T} (o : Outcome T) : Prop :=
  match o with
  | Thrown error => clientError error = false
  | Resolved _ => False
  end.

(** How a call that is not tried again ends the run. *)
Definition endingOf {T} (o : Outcome T) : Ending T :=
  match o with
  | Resolved value => Returned value
  | Thrown error => Rethrown (Some error)
  end.

(** The product on whole numbers, exact as long as it stays a double that
    counts exactly. *)
Definition exactDelay (base : Z) (attempt : nat) : Z :=
  base * 2 ^ Z.of_nat attempt.

End Retry.

(** * server/src/routes/notifications.ts *)

Module Notification.
Record t := mk {
  id : string;
  userId : string;
  type : string;
  title : string;
  message : string;
  contractId : option string;
  commentId : option string;
  read : bool;
  createdAt : Z }.

Definition setRead (n : t) : t :=
  mk (id n) (userId n) (type n) (title n) (message n) (contractId n)
    (commentId n) true (createdAt n).
End Notification.

Module Notifications.

(** [orderBy: { createdAt: 'desc' }] *)
Definition newerFirst (a b : Notification.t) : Prop :=
  Notification.createdAt b ≤ Notification.createdAt a.

#[global] Instance newerFirst_dec : RelDecision newerFirst.
Proof. intros a b. unfold newerFirst. apply _. Defined.

(** The [where] of the list route: the user's rows, the unread ones only
    when the query says [unreadOnly=true]. *)
Definition listed (user : User.t) (unreadOnly : option string)
    (n : Notification.t) : Prop :=
  Notification.userId n = User.id user
  ∧ (unreadOnly = Some "true" → Notification.read n = false).

#[global] Instance listed_dec user unreadOnly n :
  Decision (listed user unreadOnly n).
Proof. unfold listed. apply _. Defined.

(** The [where] of the count and of the two bulk routes. *)
Definition unreadOf (user : User.t) (n : Notification.t) : Prop :=
  Notification.userId n = User.id user ∧ Notification.read n = false.

#[global] Instance unreadOf_dec user n : Decision (unreadOf user n).
Proof. unfold unreadOf. apply _. Defined.

(** [router.get('/', authenticate, ...)]: the newest 50. *)
Definition recent (user : User.t) (unreadOnly : option string)
    (table : list Notification.t) : Answer (list Notification.t) :=
  Sent 200
    (take 50 (merge_sort newerFirst (filter (listed user unreadOnly) table))).

(** [router.get('/count', authenticate, ...)] *)
Definition count (user : User.t) (table : list Notification.t)
  : Answer nat :=
  Sent 200 (length (filter (unreadOf user) table)).

(** [prisma.notification.findFirst({ where: { id, userId } })] *)
Definition findOwn (user : User.t) (id : string)
    (table : list Notification.t) : option Notification.t :=
  find (λ n, bool_decide (Notification.id n = id)
             && bool_decide (Notification.userId n = User.id user))
       table.

(** [router.patch('/:id/read', authenticate, ...)] *)
Definition markRead (user : User.t) (id : string)
    (table : list Notification.t)
  : Answer Notification.t * list Notification.t :=
  match findOwn user id table with
  | None => (Refused 404 "Notification not found", table)
  | Some _ =>
      match find (λ n, bool_decide (Notification.id n = id)) table with
      | None => (Refused 500 "Failed to update notification", table)
      | Some n =>
          (Sent 200 (Notification.setRead n),
           map (λ x, if bool_decide (Notification.id x = id)
                     then Notification.setRead x else x) table)
      end
  end.

(** [router.patch('/read-all', authenticate, ...)] *)
Definition readAll (user : User.t) (table : list Notification.t)
  : Answer bool * list Notification.t :=
  (Sent 200 true,
   map (λ x, if decide (unreadOf user x) then Notification.setRead x else x)
       table).

(** [router.delete('/:id', authenticate, ...)] *)
Definition delete (user : User.t) (id : string)
    (table : list Notification.t) : Answer bool * list Notification.t :=
  match findOwn user id table with
  | None => (Refused 404 "Notification not found", table)
  | Some _ =>
      (Sent 200 true, filter (λ n, Notification.id n ≠ id) table)
  end.

(** [router.delete('/', authenticate, ...)] *)
Definition clear (user : User.t) (table : list Notification.t)
  : Answer bool * list Notification.t :=
  (Sent 200 true,
   filter (λ n, Notification.userId n ≠ User.id user) table).

(** A request of a user to one of the routes that write. *)
Inductive Request :=
| MarkRead (id : string)
| ReadAll
| Delete (id : string)
| Clear.

Definition handle (user : User.t) (q : Request)
    (table : list Notification.t) : list Notification.t :=
  match q with
  | MarkRead id => snd (markRead user id table)
  | ReadAll => snd (readAll user table)
  | Delete id => snd (delete user id table)
  | Clear => snd (clear user table)
  end.

(** The rows of everybody but the user, in table order. *)
Definition ofOthers (user : User.t) (table : list Notification.t)
  : list Notification.t :=
  filter (λ n, Notification.userId n ≠ User.id user) table.

(** The primary key of the table. *)
Definition key (table : list Notification.t) : Prop :=
  NoDup (map Notification.id table).

End Notifications.

Module Inbox.

Definition note (id uid : string) (unread : bool) (at_ : Z)
  : Notification.t :=
  Notification.mk id uid "COMMENT" "New comment" "..." (Some "c1") None
    (negb unread) at_.

(** Alice has three notifications, Bob one. *)
Definition table : list Notification.t :=
  [note "n1" "u1" true 10; note "n2" "u2" true 20; note "n3" "u1" false 30;
   note "n4" "u1" true 40].

End Inbox.

(** * Properties *)

(** A key constraint on a concrete table is decided by evaluation. *)
Ltac key_holds :=
  unfold contractKey, grantKey, permissionKey; simpl;
  apply (bool_decide_unpack _); by vm_compute.

(** ** Lookups in the tables *)

Section Lookups.

Implicit Types (d : Db) (c : Contract.t) (i : string).

Lemma find_hasId_id (l : list Contract.t) i c :
  find (Prisma.hasId i) l = Some c → Contract.id c = i ∧ c ∈ l.
Proof.
  intros H. apply find_some in H as [Hin Hid].
  apply bool_decide_eq_true in Hid. split; [done|].
  by apply list_elem_of_In.
Qed.

Lemma find_hasId_unique (l : list Contract.t) i c x :
  NoDup (map Contract.id l) →
  find (Prisma.hasId i) l = Some c →
  x ∈ l → Contract.id x = i → x = c.
Proof.
  induction l as [|y l IH]; simpl; intros Hnd Hfind Hin Hid; [done|].
  apply NoDup_cons in Hnd as [Hy Hnd].
  unfold Prisma.hasId in Hfind at 1.
  case_bool_decide as Hyi.
  - injection Hfind as <-.
    apply elem_of_cons in Hin as [->|Hin]; [done|].
    exfalso. apply Hy. rewrite Hyi, <- Hid.
    by apply list_elem_of_fmap_2.
  - apply elem_of_cons in Hin as [->|Hin]; [done|]. by apply IH.
Qed.

Lemma findFirst_ownedBy_owner d (user : User.t) i c :
  contractKey d →
  Prisma.contract_findUnique i d = Some c →
  Contract.ownerId c = User.id user →
  Prisma.contract_findFirst (Versions.ownedBy user i) d = Some c.
Proof.
  unfold contractKey, Prisma.contract_findUnique, Prisma.contract_findFirst.
  intros Hnd Hfind Hown.
  destruct (find (Versions.ownedBy user i) (contracts d)) as [x|] eqn:Hx.
  - apply find_some in Hx as [Hin Hp].
    apply andb_true_iff in Hp as [Hid _].
    apply bool_decide_eq_true in Hid.
    f_equal. eapply find_hasId_unique; eauto. by apply list_elem_of_In.
  - destruct (find_hasId_id _ _ _ Hfind) as [Hid Hin].
    apply list_elem_of_In in Hin.
    pose proof (find_none _ _ Hx _ Hin) as Hno.
    unfold Versions.ownedBy, Prisma.hasId in Hno.
    rewrite !bool_decide_eq_true_2 in Hno by done. discriminate.
Qed.

Lemma findFirst_ownedBy_stranger d (user : User.t) i c :
  contractKey d →
  Prisma.contract_findUnique i d = Some c →
  Contract.ownerId c ≠ User.id user →
  Prisma.contract_findFirst (Versions.ownedBy user i) d = None.
Proof.
  unfold contractKey, Prisma.contract_findUnique, Prisma.contract_findFirst.
  intros Hnd Hfind Hown.
  destruct (find (Versions.ownedBy user i) (contracts d)) as [x|] eqn:Hx;
    [|done].
  apply find_some in Hx as [Hin Hp].
  apply andb_true_iff in Hp as [Hid Ho].
  apply bool_decide_eq_true in Hid, Ho.
  apply list_elem_of_In in Hin.
  assert (x = c) as -> by (eapply find_hasId_unique; eauto).
  done.
Qed.

(** An update that keeps the key is seen by the next lookup. *)
Lemma find_hasId_update (l : list Contract.t) i (f : Contract.t → Contract.t) :
  (∀ x, Contract.id (f x) = Contract.id x) →
  find (Prisma.hasId i) (map (λ x, if Prisma.hasId i x then f x else x) l)
  = f <$> find (Prisma.hasId i) l.
Proof.
  intros Hf. induction l as [|y l IH]; simpl; [done|].
  destruct (Prisma.hasId i y) eqn:Hy.
  - unfold Prisma.hasId in *. by rewrite Hf, Hy.
  - by rewrite Hy.
Qed.

Lemma find_hasId_deleted (l : list Contract.t) i :
  find (Prisma.hasId i) (filter (λ c, Contract.id c ≠ i) l) = None.
Proof.
  induction l as [|y l IH]; [done|].
  rewrite filter_cons. case_decide as Hy; [|done].
  simpl. unfold Prisma.hasId at 1. by rewrite bool_decide_eq_false_2.
Qed.

Lemma find_app_first {A} (P : A → bool) (l k : list A) :
  find P (l ++ k)
  = match find P l with Some x => Some x | None => find P k end.
Proof.
  induction l as [|x l IH]; simpl; [by destruct (find P k)|].
  by destruct (P x).
Qed.

End Lookups.

(** ** Owner-only operations *)

(** C6. On an existing contract, rename, delete and restore are refused with
    403 to every user who is not the owner, whatever grant the user holds,
    and the store (title, blob reference, version and everything else) stays
    as it was; a rename with an unusable title is refused with 400 before
    the owner check and changes nothing either.  For the owner the owner
    check passes: a rename with a usable title and a delete go through, and
    a restore is never answered with 403. *)
Theorem owner_only_operations (st : Store) (user : User.t) (cid : string)
    (c : Contract.t) :
  contractKey (db st) →
  Prisma.contract_findUnique cid (db st) = Some c →
  (Contract.ownerId c ≠ User.id user →
     (∀ title,
        snd (Contracts.patch user cid title st) = st
        ∧ statusOf (fst (Contracts.patch user cid title st)) ≠ Some 200%nat
        ∧ (Contracts.titleMissing title = false →
           fst (Contracts.patch user cid title st)
           = Json 403 (BError "Only owner can rename")))
     ∧ (∀ e, Contracts.delete e user cid st
             = (Json 403 (BError "Only owner can delete"), st))
     ∧ (∀ e v, Versions.restore e user cid v st
               = (Json 403 (BError "Only owner can restore versions"), st)))
  ∧ (Contract.ownerId c = User.id user →
     (∀ title,
        Contracts.titleMissing title = false →
        let renamed :=
          Contract.setTitle (Js.trim (Contracts.titleText title)) c in
        fst (Contracts.patch user cid title st) = Json 200 (BContract renamed)
        ∧ Prisma.contract_findUnique cid
            (db (snd (Contracts.patch user cid title st))) = Some renamed)
     ∧ (∀ e, s3Up e = true →
             fst (Contracts.delete e user cid st)
             = Json 200 (BMessage "Deleted successfully")
             ∧ Prisma.contract_findUnique cid
                 (db (snd (Contracts.delete e user cid st))) = None)
     ∧ (∀ e v, statusOf (fst (Versions.restore e user cid v st))
               ≠ Some 403%nat)).
Proof.
  intros Hkey Hfind. split; intros Hown.
  - split; [|split].
    + intros title. unfold Contracts.patch.
      destruct (Contracts.titleMissing title); simpl; [by auto|].
      rewrite Hfind, bool_decide_eq_true_2 by done. simpl. by auto.
    + intros e. unfold Contracts.delete.
      by rewrite Hfind, bool_decide_eq_true_2.
    + intros e v. unfold Versions.restore.
      by rewrite (findFirst_ownedBy_stranger _ _ _ _ Hkey Hfind Hown).
  - split; [|split].
    + intros title Hok renamed. unfold Contracts.patch.
      rewrite Hok, Hfind, bool_decide_eq_false_2 by (by intros ?).
      unfold Prisma.contract_update. rewrite Hfind. simpl. split; [done|].
      unfold Prisma.contract_findUnique in *. simpl.
      rewrite find_hasId_update by done. by rewrite Hfind.
    + intros e He. unfold Contracts.delete.
      rewrite Hfind, bool_decide_eq_false_2 by (by intros ?).
      unfold S3.deleteFromS3, Prisma.contract_delete. rewrite He, Hfind.
      simpl. split; [done|]. apply find_hasId_deleted.
    + intros e v. unfold Versions.restore.
      rewrite (findFirst_ownedBy_owner _ _ _ _ Hkey Hfind Hown).
      destruct (Prisma.contractVersion_findUnique cid v (db st));
        [|simpl; discriminate].
      destruct (Prisma.contractVersion_create _ _); [|simpl; discriminate].
      destruct (Prisma.contract_update _ _ _) as [[? ?]|]; simpl; discriminate.
Qed.

(** The theorem at the sample contract: Bob is refused although he holds an
    ADMIN grant; Alice, the owner, renames and deletes. *)
Lemma owner_only_operations_witness :
  contractKey (db (Sample.store ADMIN))
  ∧ Prisma.contract_findUnique "c1" (db (Sample.store ADMIN))
    = Some Sample.nda
  ∧ Contracts.patch Sample.bob "c1" (Js.JStr " Master NDA ")
      (Sample.store ADMIN)
    = (Json 403 (BError "Only owner can rename"), Sample.store ADMIN)
  ∧ Contracts.delete Sample.env Sample.bob "c1" (Sample.store ADMIN)
    = (Json 403 (BError "Only owner can delete"), Sample.store ADMIN)
  ∧ Versions.restore Sample.env Sample.bob "c1" 1 (Sample.store ADMIN)
    = (Json 403 (BError "Only owner can restore versions"),
       Sample.store ADMIN)
  ∧ fst (Contracts.patch Sample.alice "c1" (Js.JStr " Master NDA ")
           (Sample.store ADMIN))
    = Json 200 (BContract (Contract.setTitle "Master NDA" Sample.nda))
  ∧ fst (Contracts.delete Sample.env Sample.alice "c1" (Sample.store ADMIN))
    = Json 200 (BMessage "Deleted successfully").
Proof.
  assert (Hkey : contractKey (db (Sample.store ADMIN))).
  { key_holds. }
  assert (Hfind : Prisma.contract_findUnique "c1" (db (Sample.store ADMIN))
                  = Some Sample.nda) by reflexivity.
  destruct (owner_only_operations (Sample.store ADMIN) Sample.bob "c1"
              Sample.nda Hkey Hfind) as [Hbob _].
  destruct (owner_only_operations (Sample.store ADMIN) Sample.alice "c1"
              Sample.nda Hkey Hfind) as [_ Halice].
  destruct Hbob as (Hpatch & Hdelete & Hrestore); [discriminate|].
  destruct Halice as (Hrename & Hremove & _); [reflexivity|].
  destruct (Hpatch (Js.JStr " Master NDA ")) as (Hsame & _ & Hdenied).
  destruct (Hrename (Js.JStr " Master NDA ") eq_refl) as [Hrenamed _].
  destruct (Hremove Sample.env eq_refl) as [Hremoved _].
  split; [exact Hkey|]. split; [exact Hfind|].
  split.
  { rewrite <- Hsame at 2. rewrite <- (Hdenied eq_refl).
    apply surjective_pairing. }
  split; [exact (Hdelete Sample.env)|].
  split; [exact (Hrestore Sample.env 1)|].
  split; [exact Hrenamed | exact Hremoved].
Defined.


(** ** Version archival *)

Section Archival.

Implicit Types (d : Db) (c : Contract.t) (a : ContractVersion.t).

Lemma contract_update_found d cid c (f : Contract.t → Contract.t) :
  Prisma.contract_findUnique cid d = Some c →
  Prisma.contract_update cid f d
  = Some (f c,
          Prisma.withContracts
            (map (λ x, if Prisma.hasId cid x then f x else x) (contracts d))
            d).
Proof. intros H. unfold Prisma.contract_update. by rewrite H. Qed.

Lemma contractVersion_create_app a d d' :
  Prisma.contractVersion_create a d = Some d' →
  d' = Prisma.withVersions (contractVersions d ++ [a]) d.
Proof.
  unfold Prisma.contractVersion_create. case_match; congruence.
Qed.

(** A snapshot that is accepted carries a number no snapshot of the
    contract carries yet. *)
Lemma contractVersion_create_key a d d' :
  Prisma.contractVersion_create a d = Some d' →
  versionKey d → versionKey d'.
Proof.
  unfold Prisma.contractVersion_create, Prisma.contractVersion_findUnique.
  destruct (find _ (contractVersions d)) as [x|] eqn:Hx; [discriminate|].
  intros [= <-] Hnd. unfold versionKey in *. simpl.
  rewrite map_app. apply NoDup_app. split; [done|].
  split; [|apply NoDup_singleton].
  intros k Hk Hk'. apply list_elem_of_singleton in Hk' as ->.
  apply list_elem_of_fmap in Hk as (v & Hv & Hin).
  apply list_elem_of_In in Hin.
  pose proof (find_none _ _ Hx _ Hin) as Hno. simpl in Hno.
  unfold snapshotOf in Hv. injection Hv as Hc Hn.
  rewrite !bool_decide_eq_true_2 in Hno by done. discriminate.
Qed.

(** Archiving the current state of [c] and moving [c] one version up keeps
    every snapshot below the current version. *)
Lemma versionsBelow_advance d cid c a (f : Contract.t → Contract.t) :
  contractKey d →
  versionsBelow d →
  Prisma.contract_findUnique cid d = Some c →
  ContractVersion.contractId a = Contract.id c →
  ContractVersion.version a = Contract.version c →
  (∀ x, Contract.id (f x) = Contract.id x) →
  (∀ x, Contract.version (f x) = Contract.version c + 1) →
  versionsBelow
    (mkDb (users d)
       (map (λ x, if Prisma.hasId cid x then f x else x) (contracts d))
       (contractVersions d ++ [a]) (permissions d)).
Proof.
  intros Hkey Hinv Hfind Hacid Haver Hfid Hfver c' v Hc' Hv Hcid.
  simpl in *.
  destruct (find_hasId_id _ _ _ Hfind) as [Hidc Hcin].
  apply list_elem_of_fmap in Hc' as (x & -> & Hx).
  apply elem_of_app in Hv as [Hv|Hv].
  - destruct (Prisma.hasId cid x) eqn:Hxid.
    + apply bool_decide_eq_true in Hxid.
      assert (x = c) as -> by (eapply find_hasId_unique; eauto).
      rewrite Hfid in Hcid. rewrite Hfver.
      specialize (Hinv c v Hcin Hv Hcid). lia.
    + by apply Hinv.
  - apply list_elem_of_singleton in Hv as ->.
    destruct (Prisma.hasId cid x) eqn:Hxid.
    + rewrite Hfver. lia.
    + apply bool_decide_eq_false in Hxid. congruence.
Qed.

End Archival.

(** C7. A successful upload of a new version for a contract at version N
    with blob reference B appends one snapshot that records exactly (N, B),
    leaves the earlier snapshots as they were and stores the uploaded file
    under a new key.  The contract row it leaves has that new key as its
    blob reference, the size of the uploaded file and version N + 1; its
    id, title, owner and page count are those of before. *)
Theorem upload_archives_replaced_state (e : Env) (user : User.t)
    (cid : string) (note : option string) (file : option File)
    (st st' : Store) (body : Body) (c : Contract.t) :
  contractKey (db st) →
  Prisma.contract_findUnique cid (db st) = Some c →
  Versions.upload e user cid note file st = (Json 200 body, st') →
  ∃ f snapshot,
    file = Some f
    ∧ contractVersions (db st') = contractVersions (db st) ++ [snapshot]
    ∧ ContractVersion.contractId snapshot = cid
    ∧ ContractVersion.version snapshot = Contract.version c
    ∧ ContractVersion.s3Key snapshot = Contract.s3Key c
    ∧ bucket st' !! Versions.newS3Key e cid c
      = Some (mkObject (buffer f) (mimetype f))
    ∧ Prisma.contract_findUnique cid (db st')
      = Some (Contract.mk cid (Contract.title c) (Versions.newS3Key e cid c)
                (Contract.ownerId c) (size f) (Contract.pageCount c)
                (Contract.version c + 1))
    ∧ body = BVersionUploaded "New version uploaded" (Contract.version c + 1).
Proof.
  intros Hkey Hfind Hup. unfold Versions.upload in Hup.
  destruct file as [f|]; [|discriminate].
  destruct (Prisma.contract_findFirst _ _) as [c0|] eqn:Hfirst;
    [|discriminate].
  assert (c0 = c) as ->.
  { apply find_some in Hfirst as [Hin Hp].
    apply andb_true_iff in Hp as [Hid _].
    apply bool_decide_eq_true in Hid. apply list_elem_of_In in Hin.
    eapply find_hasId_unique; eauto. }
  destruct (Prisma.contractVersion_create _ _) as [d1|] eqn:Hcreate;
    [|discriminate].
  apply contractVersion_create_app in Hcreate as ->.
  unfold S3.uploadToS3 in Hup. destruct (s3Up e); [|discriminate].
  rewrite (contract_update_found _ cid c) in Hup by done.
  injection Hup as <- <-. simpl.
  destruct (find_hasId_id _ _ _ Hfind) as [Hid _].
  eexists f, _. split; [done|]. split; [done|]. simpl.
  split; [done|]. split; [done|]. split; [done|].
  split; [by rewrite lookup_insert_eq|]. split; [|done].
  unfold Prisma.contract_findUnique in *. simpl.
  rewrite find_hasId_update by done. rewrite Hfind. simpl.
  unfold Contract.setUpload. by rewrite Hid.
Qed.

(** The theorem at the sample store: Bob, an EDITOR, uploads version 3. *)
Lemma upload_archives_replaced_state_witness :
  ∃ st' f snapshot,
    Versions.upload Sample.env Sample.bob "c1" (Some "final wording")
      (Some Sample.pdf) (Sample.store EDITOR)
    = (Json 200 (BVersionUploaded "New version uploaded" 3), st')
    ∧ Some Sample.pdf = Some f
    ∧ contractVersions (db st')
      = contractVersions (db (Sample.store EDITOR)) ++ [snapshot]
    ∧ ContractVersion.version snapshot = 2
    ∧ ContractVersion.s3Key snapshot = "contracts/c1/v2-1700.pdf"
    ∧ Prisma.contract_findUnique "c1" (db st')
      = Some (Contract.mk "c1" "NDA" "contracts/c1/v3-1800.pdf" "u1" 0 1 3).
Proof.
  assert (Hkey : contractKey (db (Sample.store EDITOR))).
  { key_holds. }
  destruct (Versions.upload Sample.env Sample.bob "c1" (Some "final wording")
              (Some Sample.pdf) (Sample.store EDITOR)) as [r st'] eqn:Hrun.
  assert (Hr : r = Json 200 (BVersionUploaded "New version uploaded" 3)).
  { vm_compute in Hrun. by injection Hrun as <- _. }
  subst r.
  destruct (upload_archives_replaced_state Sample.env Sample.bob "c1"
              (Some "final wording") (Some Sample.pdf) (Sample.store EDITOR)
              st' _ Sample.nda Hkey eq_refl Hrun)
    as (f & snapshot & Hf & Happ & _ & Hver & Hkey' & _ & Hcur & _).
  injection Hf as <-.
  exists st', Sample.pdf, snapshot.
  split; [reflexivity|]. split; [reflexivity|]. split; [exact Happ|].
  split; [exact Hver|]. split; [exact Hkey'|]. exact Hcur.
Defined.

(** C8. A successful restore of snapshot V on a contract at version N with
    blob reference B first archives (N, B) under the note "Before restoring
    to vV".  The contract row it leaves has the blob reference of snapshot
    V and version N + 1; its id, title, owner, file size and page count are
    those of before.  Earlier snapshots stay as they were.  No number is
    used twice: where no two snapshots of a contract shared a number before,
    none do afterwards, and where every snapshot was below the current
    version of its contract before, it is so afterwards. *)
Theorem restore_is_a_new_version (e : Env) (user : User.t) (cid : string)
    (V : Z) (st st' : Store) (body : Body) (c : Contract.t) :
  contractKey (db st) →
  Prisma.contract_findUnique cid (db st) = Some c →
  Versions.restore e user cid V st = (Json 200 body, st') →
  ∃ target,
    Prisma.contractVersion_findUnique cid V (db st) = Some target
    ∧ contractVersions (db st')
      = contractVersions (db st)
        ++ [ContractVersion.mk (newId e) cid (Contract.version c)
              (Contract.s3Key c) ("Before restoring to v" +:+ pretty V)
              (User.id user)]
    ∧ Prisma.contract_findUnique cid (db st')
      = Some (Contract.mk cid (Contract.title c) (ContractVersion.s3Key target)
                (Contract.ownerId c) (Contract.fileSize c)
                (Contract.pageCount c) (Contract.version c + 1))
    ∧ body = BRestored ("Restored to version " +:+ pretty V)
               (Contract.version c + 1)
    ∧ (versionKey (db st) → versionKey (db st'))
    ∧ (versionsBelow (db st) → versionsBelow (db st')).
Proof.
  intros Hkey Hfind Hrun. unfold Versions.restore in Hrun.
  destruct (Prisma.contract_findFirst _ _) as [c0|] eqn:Hfirst;
    [|discriminate].
  assert (c0 = c) as ->.
  { apply find_some in Hfirst as [Hin Hp].
    apply andb_true_iff in Hp as [Hid _].
    apply bool_decide_eq_true in Hid. apply list_elem_of_In in Hin.
    eapply find_hasId_unique; eauto. }
  destruct (Prisma.contractVersion_findUnique cid V (db st))
    as [target|] eqn:Htarget; [|discriminate].
  destruct (Prisma.contractVersion_create _ _) as [d1|] eqn:Hcreate;
    [|discriminate].
  pose proof (contractVersion_create_key _ _ _ Hcreate) as Hvk.
  apply contractVersion_create_app in Hcreate as ->.
  rewrite (contract_update_found _ cid c) in Hrun by done.
  injection Hrun as <- <-. simpl.
  destruct (find_hasId_id _ _ _ Hfind) as [Hid _].
  exists target. split; [done|]. split.
  { unfold Versions.archiveOf. by rewrite Hid. }
  split.
  { unfold Prisma.contract_findUnique in *. simpl.
    rewrite find_hasId_update by done. rewrite Hfind. simpl.
    unfold Contract.setVersion. by rewrite Hid. }
  split; [done|]. split; [exact Hvk|].
  intros Hinv.
  apply (versionsBelow_advance (db st) cid c
           (Versions.archiveOf e user c ("Before restoring to v" +:+ pretty V))
           _ Hkey Hinv Hfind); done.
Qed.

(** The theorem at the sample store: Alice restores version 1 and obtains
    version 3, at the blob of version 1. *)
Lemma restore_is_a_new_version_witness :
  ∃ st',
    Versions.restore Sample.env Sample.alice "c1" 1 (Sample.store VIEWER)
    = (Json 200 (BRestored "Restored to version 1" 3), st')
    ∧ contractVersions (db st')
      = [Sample.ndaV1;
         ContractVersion.mk "id9" "c1" 2 "contracts/c1/v2-1700.pdf"
           "Before restoring to v1" "u1"]
    ∧ Prisma.contract_findUnique "c1" (db st')
      = Some (Contract.mk "c1" "NDA" "contracts/1600-nda.pdf" "u1" 100 1 3)
    ∧ versionKey (db st').
Proof.
  assert (Hkey : contractKey (db (Sample.store VIEWER))).
  { key_holds. }
  destruct (Versions.restore Sample.env Sample.alice "c1" 1
              (Sample.store VIEWER)) as [r st'] eqn:Hrun.
  assert (Hr : r = Json 200 (BRestored "Restored to version 1" 3)).
  { vm_compute in Hrun. by injection Hrun as <- _. }
  subst r.
  destruct (restore_is_a_new_version Sample.env Sample.alice "c1" 1
              (Sample.store VIEWER) st' _ Sample.nda Hkey eq_refl Hrun)
    as (target & Htarget & Happ & Hcur & _ & Hvk & _).
  injection Htarget as <-.
  exists st'. split; [reflexivity|]. split; [exact Happ|].
  split; [exact Hcur|]. apply Hvk. key_holds.
Defined.


(** ** Permission grants *)

Section Grants.

Implicit Types (d : Db) (p : Permission.t).

(** The invitation run from its first lookup to its reply on one state of
    the database. *)
Lemma invite_alone isEmail e user cid body d :
  Permissions.invite isEmail e user cid body d
  = match Permissions.parseInvite isEmail body with
    | None => (Json 400 (BError "ZodError"), d)
    | Some (email, role) =>
        match Prisma.contract_findFirst (Versions.ownedBy user cid) d with
        | None =>
            (Json 403 (BError "Only contract owner can invite users"), d)
        | Some contract =>
            match Prisma.user_findByEmail email d with
            | None =>
                (Json 404
                   (BError "User not found. They must register first."), d)
            | Some invitedUser =>
                if bool_decide (User.id invitedUser = User.id user)
                then (Json 400 (BError "Cannot invite yourself"), d)
                else
                  match Prisma.permission_findUniquePair cid
                          (User.id invitedUser) d with
                  | Some existing =>
                      match Prisma.permission_update
                              (Permission.id existing) role d with
                      | None =>
                          (Json 500 (BError "Failed to invite user"), d)
                      | Some (updated, d') =>
                          (Json 200
                             (BPermission updated
                                (Permissions.includeUser updated d')),
                           d')
                      end
                  | None =>
                      match Prisma.permission_create
                              (Permission.mk (newId e) cid
                                 (User.id invitedUser) role) d with
                      | None =>
                          (Json 500 (BError "Failed to invite user"), d)
                      | Some d' =>
                          (Json 201
                             (BPermission
                                (Permission.mk (newId e) cid
                                   (User.id invitedUser) role)
                                (Permissions.includeUser
                                   (Permission.mk (newId e) cid
                                      (User.id invitedUser) role) d')), d')
                      end
                  end
            end
        end
    end.
Proof.
  unfold Permissions.invite, Permissions.inviteHandler.
  destruct (Permissions.parseInvite isEmail body) as [[email role]|];
    [|done].
  cbn [Async.finish]. unfold Permissions.afterContract.
  destruct (Prisma.contract_findFirst _ d); [|done].
  cbn [Async.finish]. unfold Permissions.afterInvitedUser.
  destruct (Prisma.user_findByEmail email d) as [invited|]; [|done].
  case_bool_decide; [done|].
  cbn [Async.finish]. unfold Permissions.afterExisting.
  destruct (Prisma.permission_findUniquePair cid (User.id invited) d)
    as [existing|]; cbn [Async.finish].
  - unfold Permissions.updateRole.
    by destruct (Prisma.permission_update _ _ _) as [[? ?]|].
  - unfold Permissions.createGrant.
    by destruct (Prisma.permission_create _ _).
Qed.

(** A step of the first and of the second of the requests in progress. *)
Lemma advance_first (h : Async.Handler) (rest : list Async.Handler) d :
  Async.advance (h :: rest, d) 0
  = (fst (Async.resume h d) :: rest, snd (Async.resume h d)).
Proof.
  unfold Async.advance. cbn [fst snd lookup list_lookup].
  by destruct (Async.resume h d).
Qed.

Lemma advance_second (h0 h : Async.Handler) (rest : list Async.Handler) d :
  Async.advance (h0 :: h :: rest, d) 1
  = (h0 :: fst (Async.resume h d) :: rest, snd (Async.resume h d)).
Proof.
  unfold Async.advance. cbn [fst snd lookup list_lookup].
  by destruct (Async.resume h d).
Qed.

Lemma findPair_grantOf d cid uid p :
  Prisma.permission_findUniquePair cid uid d = Some p →
  grantOf p = (cid, uid) ∧ p ∈ permissions d.
Proof.
  unfold Prisma.permission_findUniquePair. intros H.
  apply find_some in H as [Hin Hp].
  apply andb_true_iff in Hp as [Hc Hu].
  apply bool_decide_eq_true in Hc, Hu. unfold grantOf.
  split; [congruence|]. by apply list_elem_of_In.
Qed.

Lemma findPair_none d cid uid :
  Prisma.permission_findUniquePair cid uid d = None →
  (cid, uid) ∉ map grantOf (permissions d).
Proof.
  unfold Prisma.permission_findUniquePair. intros H Hin.
  apply list_elem_of_fmap in Hin as (p & Hp & Hin).
  apply list_elem_of_In in Hin.
  pose proof (find_none _ _ H _ Hin) as Hno. simpl in Hno.
  unfold grantOf in Hp. injection Hp as Hc Hu.
  rewrite !bool_decide_eq_true_2 in Hno by done. discriminate.
Qed.

(** Changing roles leaves the compound keys alone. *)
Lemma grantOf_setRole (l : list Permission.t) i r :
  map grantOf
    (map (λ x, if bool_decide (Permission.id x = i)
               then Permission.setRole r x else x) l)
  = map grantOf l.
Proof.
  induction l as [|x l IH]; simpl; [done|].
  rewrite IH. by case_bool_decide.
Qed.

Lemma permission_update_found d i r p :
  Prisma.permission_findUnique i d = Some p →
  Prisma.permission_update i r d
  = Some (Permission.setRole r p,
          Prisma.withPermissions
            (map (λ x, if bool_decide (Permission.id x = i)
                       then Permission.setRole r x else x)
                 (permissions d)) d).
Proof. intros H. unfold Prisma.permission_update. by rewrite H. Qed.

Lemma permission_update_keys d d' i r p :
  Prisma.permission_update i r d = Some (p, d') →
  map grantOf (permissions d') = map grantOf (permissions d)
  ∧ length (permissions d') = length (permissions d).
Proof.
  unfold Prisma.permission_update. case_match; [|discriminate].
  intros [= <- <-]. simpl. by rewrite grantOf_setRole, length_map.
Qed.

(** After the role of the grant found by [P] is set through its id, [P]
    finds the grant with the new role, as long as [P] does not look at
    roles. *)
Lemma find_after_setRole (P : Permission.t → bool) (l : list Permission.t)
    r p :
  (∀ x, P (Permission.setRole r x) = P x) →
  find P l = Some p →
  find P (map (λ x, if bool_decide (Permission.id x = Permission.id p)
                    then Permission.setRole r x else x) l)
  = Some (Permission.setRole r p).
Proof.
  intros HP. induction l as [|x l IH]; simpl; [done|].
  destruct (P x) eqn:Hx.
  - intros [= ->].
    rewrite (bool_decide_eq_true_2 (Permission.id p = Permission.id p))
      by done.
    by rewrite HP, Hx.
  - intros Hrest. case_bool_decide; rewrite ?HP, Hx; by apply IH.
Qed.

Lemma find_id_unique (l : list Permission.t) i p x :
  NoDup (map Permission.id l) →
  find (λ y, bool_decide (Permission.id y = i)) l = Some p →
  x ∈ l → Permission.id x = i → x = p.
Proof.
  induction l as [|y l IH]; simpl; intros Hnd Hfind Hin Hid; [done|].
  apply NoDup_cons in Hnd as [Hy Hnd].
  case_bool_decide as Hyi.
  - injection Hfind as <-.
    apply elem_of_cons in Hin as [->|Hin]; [done|].
    exfalso. apply Hy. rewrite Hyi, <- Hid.
    by apply list_elem_of_fmap_2.
  - apply elem_of_cons in Hin as [->|Hin]; [done|]. by apply IH.
Qed.

Lemma invite_keeps_grantKey isEmail e user cid body d :
  grantKey d → grantKey (snd (Permissions.invite isEmail e user cid body d)).
Proof.
  rewrite invite_alone. unfold grantKey. intros Hnd.
  destruct (Permissions.parseInvite isEmail body) as [[email role]|];
    [|done].
  destruct (Prisma.contract_findFirst _ _); [|done].
  destruct (Prisma.user_findByEmail email d) as [invited|]; [|done].
  case_bool_decide; [done|].
  destruct (Prisma.permission_findUniquePair cid (User.id invited) d)
    as [existing|] eqn:Hpair.
  - destruct (Prisma.permission_update _ _ _) as [[updated d']|] eqn:Hupd;
      [|done].
    simpl. apply permission_update_keys in Hupd as [-> _]. done.
  - unfold Prisma.permission_create. simpl. rewrite Hpair. simpl.
    rewrite map_app. simpl. apply NoDup_app. split; [done|].
    split; [|apply NoDup_singleton].
    intros k Hk Hk'. apply list_elem_of_singleton in Hk' as ->.
    by apply findPair_none in Hpair.
Qed.

End Grants.

(** X31. A grant that is invited again without interference.  Inviting
    keeps at most one grant per (contract, user) pair.  When the owner invites a
    user who holds a grant on the contract and no other request writes
    between the lookup and the update, the reply is 200 with a grant that
    has the id, the contract and the user of the existing one and exactly
    the role that was asked for; the table has as many rows as before, and
    the pair now looks up that grant. *)
Theorem regrant_overwrites (isEmail : string → bool) (e : Env)
    (user : User.t) (cid : string) (body : InviteBody) (d : Db) :
  grantKey d →
  grantKey (snd (Permissions.invite isEmail e user cid body d))
  ∧ ∀ c email role invited existing,
      contractKey d →
      permissionKey d →
      Prisma.contract_findUnique cid d = Some c →
      Contract.ownerId c = User.id user →
      Permissions.parseInvite isEmail body = Some (email, role) →
      Prisma.user_findByEmail email d = Some invited →
      User.id invited ≠ User.id user →
      Prisma.permission_findUniquePair cid (User.id invited) d
      = Some existing →
      let d' := snd (Permissions.invite isEmail e user cid body d) in
      let granted :=
        Permission.mk (Permission.id existing) cid (User.id invited) role in
      fst (Permissions.invite isEmail e user cid body d)
      = Json 200 (BPermission granted (Permissions.includeUser granted d'))
      ∧ length (permissions d') = length (permissions d)
      ∧ Prisma.permission_findUniquePair cid (User.id invited) d'
        = Some granted.
Proof.
  intros Hgk. split; [by apply invite_keeps_grantKey|].
  intros c email role invited existing Hck Hpk Hfind Hown Hparse Hmail Hself
    Hpair d' granted.
  subst d'. rewrite !invite_alone.
  rewrite Hparse, (findFirst_ownedBy_owner _ _ _ _ Hck Hfind Hown), Hmail.
  rewrite bool_decide_eq_false_2 by done. rewrite Hpair.
  assert (Hid : Prisma.permission_findUnique (Permission.id existing) d
                = Some existing).
  { unfold Prisma.permission_findUnique.
    destruct (findPair_grantOf _ _ _ _ Hpair) as [_ Hin].
    destruct (find _ (permissions d)) as [p0|] eqn:Hp0.
    - f_equal. symmetry. eapply find_id_unique; eauto.
    - apply list_elem_of_In in Hin.
      pose proof (find_none _ _ Hp0 _ Hin) as Hno. simpl in Hno.
      by rewrite bool_decide_eq_true_2 in Hno. }
  assert (Hsame : Permission.setRole role existing = granted).
  { destruct (findPair_grantOf _ _ _ _ Hpair) as [[= Hc Hu] _].
    unfold Permission.setRole, granted. by rewrite Hc, Hu. }
  rewrite (permission_update_found _ _ _ _ Hid). simpl. rewrite Hsame.
  split; [done|]. split; [by rewrite length_map|].
  unfold Prisma.permission_findUniquePair in *. simpl.
  rewrite <- Hsame. by apply find_after_setRole.
Qed.

(** The theorem at the sample database: Alice raises Carol from VIEWER to
    EDITOR; the grant p2 is overwritten and no row is added. *)
Lemma regrant_overwrites_witness :
  grantKey Sample.shared
  ∧ grantKey
      (snd (Permissions.invite Sample.anyEmail Sample.env Sample.alice "c1"
              (Sample.inviteCarol "EDITOR") Sample.shared))
  ∧ fst (Permissions.invite Sample.anyEmail Sample.env Sample.alice "c1"
           (Sample.inviteCarol "EDITOR") Sample.shared)
    = Json 200
        (BPermission (Permission.mk "p2" "c1" "u3" EDITOR)
           (Some (mkUserRef "u3" "Carol" "carol@example.com")))
  ∧ length
      (permissions
         (snd (Permissions.invite Sample.anyEmail Sample.env Sample.alice
                 "c1" (Sample.inviteCarol "EDITOR") Sample.shared)))
    = 2%nat
  ∧ Prisma.permission_findUniquePair "c1" "u3"
      (snd (Permissions.invite Sample.anyEmail Sample.env Sample.alice "c1"
              (Sample.inviteCarol "EDITOR") Sample.shared))
    = Some (Permission.mk "p2" "c1" "u3" EDITOR).
Proof.
  assert (Hgk : grantKey Sample.shared).
  { key_holds. }
  assert (Hck : contractKey Sample.shared).
  { key_holds. }
  assert (Hpk : permissionKey Sample.shared).
  { key_holds. }
  destruct (regrant_overwrites Sample.anyEmail Sample.env Sample.alice "c1"
              (Sample.inviteCarol "EDITOR") Sample.shared Hgk)
    as [Hkept Hover].
  destruct (Hover Sample.nda "carol@example.com" EDITOR Sample.carol
              (Permission.mk "p2" "c1" "u3" VIEWER) Hck Hpk eq_refl eq_refl
              eq_refl eq_refl ltac:(discriminate) eq_refl)
    as (Hreply & Hlen & Hpair).
  split; [exact Hgk|]. split; [exact Hkept|].
  split; [exact Hreply|]. split; [exact Hlen | exact Hpair].
Defined.

(** C9, at the input where it fails.  The owner sends two invitations for
    a user who holds no grant on the contract, and the second one runs
    between the lookup of the first and its write.  The second invitation
    creates the grant and is answered 201.  The first one found no grant,
    so it creates too: the compound key refuses the row, and the handler
    answers 500.  The user holds a grant by then, yet its role is not
    updated: the pair still looks up the grant of the second invitation,
    with the role of the second invitation.  No duplicate arises: where
    the pairs were unique before, they are unique afterwards. *)
Theorem racing_invitation_is_refused (isEmail : string → bool)
    (eA eB : Env) (owner : User.t) (cid : string) (bodyA bodyB : InviteBody)
    (d : Db) (c : Contract.t) (email : string) (roleA roleB : Role)
    (invited : User.t) :
  contractKey d →
  Prisma.contract_findUnique cid d = Some c →
  Contract.ownerId c = User.id owner →
  Permissions.parseInvite isEmail bodyA = Some (email, roleA) →
  Permissions.parseInvite isEmail bodyB = Some (email, roleB) →
  Prisma.user_findByEmail email d = Some invited →
  User.id invited ≠ User.id owner →
  Prisma.permission_findUniquePair cid (User.id invited) d = None →
  let first := Permissions.inviteHandler isEmail eA owner cid bodyA in
  let second := Permissions.inviteHandler isEmail eB owner cid bodyB in
  let granted := Permission.mk (newId eB) cid (User.id invited) roleB in
  let after := Async.schedule [0; 0; 0; 1; 1; 1; 1; 0]%nat [first; second] d in
  Async.replyOf 1 (fst after)
  = Some (Json 201
            (BPermission granted
               (Permissions.includeUser granted (snd after))))
  ∧ Async.replyOf 0 (fst after)
    = Some (Json 500 (BError "Failed to invite user"))
  ∧ permissions (snd after) = permissions d ++ [granted]
  ∧ Prisma.permission_findUniquePair cid (User.id invited) (snd after)
    = Some granted
  ∧ (grantKey d → grantKey (snd after)).
Proof.
  intros Hck Hfind Hown HparseA HparseB Hmail Hself Hpair
    first second granted after.
  assert (Hunique : grantKey d →
            grantKey (Prisma.withPermissions (permissions d ++ [granted]) d)).
  { unfold grantKey. simpl. intros Hnd. rewrite map_app. simpl.
    apply NoDup_app. split; [done|]. split; [|apply NoDup_singleton].
    intros k Hk Hk'. apply list_elem_of_singleton in Hk' as ->.
    by apply findPair_none in Hpair. }
  assert (Hfirst : Prisma.contract_findFirst (Versions.ownedBy owner cid) d
                   = Some c)
    by (by apply findFirst_ownedBy_owner).
  assert (Hcreate : Permissions.createGrant granted d
                    = Some ((granted,
                             Permissions.includeUser granted
                               (Prisma.withPermissions
                                  (permissions d ++ [granted]) d)),
                            Prisma.withPermissions
                              (permissions d ++ [granted]) d)).
  { unfold Permissions.createGrant, Prisma.permission_create. simpl.
    by rewrite Hpair. }
  assert (Hnow : Prisma.permission_findUniquePair cid (User.id invited)
                   (Prisma.withPermissions (permissions d ++ [granted]) d)
                 = Some granted).
  { unfold Prisma.permission_findUniquePair in *. simpl.
    rewrite find_app_first, Hpair. simpl.
    by rewrite !bool_decide_eq_true_2. }
  assert (Hrefused : ∀ e role,
            Permissions.createGrant
              (Permission.mk (newId e) cid (User.id invited) role)
              (Prisma.withPermissions (permissions d ++ [granted]) d)
            = None).
  { intros e role. unfold Permissions.createGrant, Prisma.permission_create.
    simpl. by rewrite Hnow. }
  subst after first second.
  unfold Permissions.inviteHandler. rewrite HparseA, HparseB.
  unfold Async.schedule. cbn [foldl].
  rewrite advance_first. cbn [Async.resume fst snd].
  rewrite Hfirst. cbn [Permissions.afterContract].
  rewrite advance_first. cbn [Async.resume fst snd].
  rewrite Hmail. cbn [Permissions.afterInvitedUser].
  rewrite bool_decide_eq_false_2 by done.
  rewrite advance_first. cbn [Async.resume fst snd].
  rewrite Hpair. cbn [Permissions.afterExisting].
  rewrite advance_second. cbn [Async.resume fst snd].
  rewrite Hfirst. cbn [Permissions.afterContract].
  rewrite advance_second. cbn [Async.resume fst snd].
  rewrite Hmail. cbn [Permissions.afterInvitedUser].
  rewrite bool_decide_eq_false_2 by done.
  rewrite advance_second. cbn [Async.resume fst snd].
  rewrite Hpair. cbn [Permissions.afterExisting].
  rewrite advance_second. cbn [Async.resume]. fold granted.
  rewrite Hcreate. cbn [fst snd Permissions.replied].
  rewrite advance_first. cbn [Async.resume].
  rewrite Hrefused. cbn [fst snd Permissions.replied].
  unfold Async.replyOf. cbn [lookup list_lookup].
  done.
Qed.

(** The theorem at the sample database, where Bob holds a grant and Carol
    holds none: Alice invites Carol as EDITOR and, before that invitation
    has written, as VIEWER.  Carol ends up VIEWER and the invitation as
    EDITOR is answered 500. *)
Lemma racing_invitation_is_refused_witness :
  let order := [0; 0; 0; 1; 1; 1; 1; 0]%nat in
  let first :=
    Permissions.inviteHandler Sample.anyEmail Sample.env Sample.alice "c1"
      (Sample.inviteCarol "EDITOR") in
  let second :=
    Permissions.inviteHandler Sample.anyEmail Demo.later Sample.alice "c1"
      (Sample.inviteCarol "VIEWER") in
  let after := Async.schedule order [first; second] (Sample.dbWith ADMIN) in
  Prisma.permission_findUniquePair "c1" "u3" (Sample.dbWith ADMIN) = None
  ∧ Async.replyOf 0 (fst after)
    = Some (Json 500 (BError "Failed to invite user"))
  ∧ Prisma.permission_findUniquePair "c1" "u3" (snd after)
    = Some (Permission.mk "id11" "c1" "u3" VIEWER)
  ∧ grantKey (snd after).
Proof.
  intros order first second after.
  assert (Hck : contractKey (Sample.dbWith ADMIN)).
  { key_holds. }
  destruct (racing_invitation_is_refused Sample.anyEmail Sample.env
              Demo.later Sample.alice "c1" (Sample.inviteCarol "EDITOR")
              (Sample.inviteCarol "VIEWER") (Sample.dbWith ADMIN) Sample.nda
              "carol@example.com" EDITOR VIEWER Sample.carol Hck eq_refl
              eq_refl eq_refl eq_refl eq_refl ltac:(discriminate) eq_refl)
    as (_ & Hfirst & _ & Hpair & Hkept).
  split; [reflexivity|]. split; [exact Hfirst|]. split; [exact Hpair|].
  apply Hkept. key_holds.
Defined.





(** ** What the authentication routes reveal *)

Section Hashes.

Lemma find_map_stable {A} (P : A → bool) (g : A → A) (l : list A) :
  (∀ x, P (g x) = P x) →
  find P (map g l) = g <$> find P l.
Proof.
  intros HP. induction l as [|x l IH]; simpl; [done|].
  rewrite HP. by destruct (P x).
Qed.

Lemma user_findUnique_reHash h i d :
  Prisma.user_findUnique i (reHash h d)
  = (λ u, User.setPasswordHash (h u) u) <$> Prisma.user_findUnique i d.
Proof. unfold Prisma.user_findUnique. simpl. by apply find_map_stable. Qed.

Lemma user_findByEmail_reHash h m d :
  Prisma.user_findByEmail m (reHash h d)
  = (λ u, User.setPasswordHash (h u) u) <$> Prisma.user_findByEmail m d.
Proof. unfold Prisma.user_findByEmail. simpl. by apply find_map_stable. Qed.

(** Two request users that agree on every key but [passwordHash] get the
    same reply from [/me]. *)
Lemma me_ignores_hash (u1 u2 : gmap string Js.value) :
  (∀ k, k ≠ "passwordHash" → u1 !! k = u2 !! k) →
  Auth.me u1 = Auth.me u2.
Proof.
  intros Hsame. unfold Auth.me. do 2 f_equal. apply map_eq. intros k.
  destruct (decide (k = "passwordHash")) as [->|Hk].
  - by rewrite !lookup_delete_eq.
  - rewrite !lookup_delete_ne by done. by apply Hsame.
Qed.

Lemma toObject_setPasswordHash h u k :
  k ≠ "passwordHash" →
  Auth.toObject (User.setPasswordHash h u) !! k = Auth.toObject u !! k.
Proof.
  intros Hk. unfold Auth.toObject. simpl.
  rewrite !lookup_insert. repeat case_decide; congruence.
Qed.

End Hashes.

(** C10. No reply of the authentication routes depends on a stored password
    hash.  [/me] returns the request user without the key [passwordHash],
    and the same object for two users that differ in that key only, also
    through the [authenticate] middleware when the stored hashes are
    replaced.  Two logins that succeed for the same e-mail against
    databases that differ in the stored hashes only return the same body,
    and the body of a registration is the same whatever bcrypt returns. *)
Theorem replies_hide_password_hash :
  (∀ u : gmap string Js.value,
     ∃ o, Auth.me u = Json 200 (BObject o) ∧ o !! "passwordHash" = None)
  ∧ (∀ u1 u2 : gmap string Js.value,
       (∀ k, k ≠ "passwordHash" → u1 !! k = u2 !! k) →
       Auth.me u1 = Auth.me u2)
  ∧ (∀ bearer t d h, Auth.getMe bearer t (reHash h d) = Auth.getMe bearer t d)
  ∧ (∀ isEmail compare1 compare2 e body1 body2 d h b1 b2,
       loginEmail body1 = loginEmail body2 →
       Auth.login isEmail compare1 e body1 d = Json 200 b1 →
       Auth.login isEmail compare2 e body2 (reHash h d) = Json 200 b2 →
       b1 = b2)
  ∧ (∀ isEmail hash1 hash2 e r1 r2 body d,
       colorDraw r1 = colorDraw r2 →
       fst (Auth.register isEmail hash1 e r1 body d)
       = fst (Auth.register isEmail hash2 e r2 body d)).
Proof.
  split; [|split; [|split; [|split]]].
  - intros u. eexists. split; [done|]. apply lookup_delete_eq.
  - apply me_ignores_hash.
  - intros bearer t d h. unfold Auth.getMe, Auth.authenticate.
    destruct bearer as [tok|]; [|done].
    destruct (Jwt.empty tok); [done|].
    destruct (Jwt.verify tok t) as [sub|]; [|done].
    rewrite user_findUnique_reHash.
    destruct (Prisma.user_findUnique sub d) as [u|]; simpl; [|done].
    apply me_ignores_hash. intros k Hk. by apply toObject_setPasswordHash.
  - intros isEmail compare1 compare2 e body1 body2 d h b1 b2 Hmail.
    unfold Auth.login, Auth.parseLogin. rewrite Hmail.
    destruct (loginEmail body2) as [| | | |m|]; try discriminate.
    destruct (loginPassword body1) as [| | | |p1|]; try discriminate;
      (destruct (loginPassword body2) as [| | | |p2|]; try discriminate);
      [|destruct (isEmail m); discriminate..].
    destruct (isEmail m); [|discriminate].
    rewrite user_findByEmail_reHash.
    destruct (Prisma.user_findByEmail m d) as [u|]; simpl; [|discriminate].
    destruct (compare1 p1 (User.passwordHash u)); simpl; [|discriminate].
    destruct (compare2 p2 (h u)); simpl; [|discriminate].
    congruence.
  - intros isEmail hash1 hash2 e r1 r2 body d Hdraw.
    unfold Auth.register, Auth.randomColor, Auth.user_create. rewrite Hdraw.
    destruct (Auth.parseRegister isEmail body) as [[[m p] n]|]; [|done].
    simpl. by destruct (Prisma.user_findByEmail m d).
Qed.

(** The theorem at the sample members: Dana logs in against the database
    as it is and against one where her password is hashed under another
    salt, and reads the same body; her [/me] object has no hash. *)
Lemma replies_hide_password_hash_witness :
  (∀ k, k ≠ "passwordHash" →
        Auth.toObject Sample.dana !! k
        = Auth.toObject
            (User.setPasswordHash "s2$tr0ub4dor" Sample.dana) !! k)
  ∧ Auth.me (Auth.toObject Sample.dana)
    = Auth.me (Auth.toObject (User.setPasswordHash "s2$tr0ub4dor" Sample.dana))
  ∧ ∃ b,
      Auth.login Sample.anyEmail Sample.toyCompare Sample.env
        Sample.danaLogin Sample.members = Json 200 b
      ∧ Auth.login Sample.anyEmail Sample.toyCompare Sample.env
          Sample.danaLogin (reHash Sample.otherSalt Sample.members)
        = Json 200 b.
Proof.
  destruct replies_hide_password_hash as (_ & Hme & _ & Hlogin & _).
  assert (Hkeys : ∀ k, k ≠ "passwordHash" →
            Auth.toObject Sample.dana !! k
            = Auth.toObject
                (User.setPasswordHash "s2$tr0ub4dor" Sample.dana) !! k).
  { intros k Hk. symmetry. by apply toObject_setPasswordHash. }
  split; [exact Hkeys|]. split; [exact (Hme _ _ Hkeys)|].
  destruct (Auth.login Sample.anyEmail Sample.toyCompare Sample.env
              Sample.danaLogin Sample.members) as [n1 b1|] eqn:H1;
    [|by vm_compute in H1].
  destruct (Auth.login Sample.anyEmail Sample.toyCompare Sample.env
              Sample.danaLogin (reHash Sample.otherSalt Sample.members))
    as [n2 b2|] eqn:H2; [|by vm_compute in H2].
  assert (n1 = 200%nat) as -> by (vm_compute in H1; congruence).
  assert (n2 = 200%nat) as -> by (vm_compute in H2; congruence).
  exists b1. split; [reflexivity|].
  by rewrite (Hlogin _ _ _ _ _ _ _ _ _ _ eq_refl H1 H2).
Defined.


(** ** The socket server *)

(** C1, evaluated.  Bob holds only a VIEWER grant.  The update he sends is
    applied to the live document of the contract, written back to Redis and
    relayed to Alice; nothing tells Bob that it was refused. *)
Theorem viewer_delta_is_merged_and_broadcast :
  let w := SocketServer.run (Sample.world VIEWER) Sample.bobEdits in
  Prisma.permission_findUniquePair "c1" "u2" (wDb w)
  = Some (Permission.mk "p1" "c1" "u2" VIEWER)
  ∧ docs w !! "c1" = Some 0%nat
  ∧ heap w = [Y.mkDoc {[1%nat; 2%nat; 7%nat]} ["c1"]]
  ∧ inflight w = [RedisSet "yjs:doc:c1" {[1%nat; 2%nat; 7%nat]}]
  ∧ outbox w
    = [(1%nat, Sync {[1%nat; 2%nat]}); (2%nat, Sync {[1%nat; 2%nat]});
       (1%nat, UpdateMsg {[7%nat]})].
Proof. by vm_compute. Qed.

(** C2, evaluated.  Carol neither owns the contract nor holds a grant on it.
    Her join puts her socket into the room, sends her the whole document
    and registers her listeners. *)
Theorem stranger_join_is_accepted :
  let w := SocketServer.run (Sample.world VIEWER) Sample.carolJoins in
  Contract.ownerId Sample.nda ≠ User.id Sample.carol
  ∧ Prisma.permission_findUniquePair "c1" "u3" (wDb w) = None
  ∧ rooms w !! "contract:c1" = Some {[3%nat]}
  ∧ outbox w = [(3%nat, Sync {[1%nat; 2%nat]})]
  ∧ sockets w !! 3%nat = Some (mkSocket Sample.carol [mkListener "c1" 0]).
Proof. by vm_compute. Qed.

(** C3, evaluated.  Two joins of a contract that was never loaded, the
    second one before the first read is answered: two documents are
    constructed and two reads are sent.  After both answers the map holds
    the second document while Alice's listeners hold the first, so the item
    Alice adds never reaches the document Carol is given. *)
Theorem racing_first_accesses_construct_twice :
  let w1 := SocketServer.run (Sample.world VIEWER) Sample.racingJoins in
  let w2 := SocketServer.run w1 Sample.afterRace in
  docs (Sample.world VIEWER) !! "c1" = None
  ∧ length (heap w1) = 2%nat
  ∧ inflight w1
    = [GetBuffer "yjs:doc:c1" (mkJoining 1 "c1" 0);
       GetBuffer "yjs:doc:c1" (mkJoining 2 "c1" 1)]
  ∧ docs w2 !! "c1" = Some 1%nat
  ∧ sListeners <$> sockets w2 !! 1%nat = Some [mkListener "c1" 0]
  ∧ sListeners <$> sockets w2 !! 2%nat = Some [mkListener "c1" 1]
  ∧ heap w2
    = [Y.mkDoc {[1%nat; 2%nat; 7%nat]} ["c1"];
       Y.mkDoc {[1%nat; 2%nat]} ["c1"]]
  ∧ (3%nat, Sync {[1%nat; 2%nat]}) ∈ outbox w2.
Proof.
  repeat split; try by vm_compute.
  apply (bool_decide_unpack _). by vm_compute.
Qed.

(** ** Write-back *)

Section WriteBack.

Lemma broadcast_inflight from r m w :
  inflight (SocketServer.broadcast from r m w) = inflight w.
Proof. done. Qed.

Lemma broadcast_heap from r m w :
  heap (SocketServer.broadcast from r m w) = heap w.
Proof. done. Qed.

(** What one ['update'] listener does to the queue of Redis commands and to
    the document it captured. *)
Lemma onUpdate_writes sid update w l doc :
  heap w !! lDoc l = Some doc →
  inflight (SocketServer.merge sid update w l)
  = inflight w
    ++ (if bool_decide (¬ update ⊆ Y.items doc)
        then map (λ docId,
                    RedisSet (Yjs.key docId) (Y.items doc ∪ update))
                 (Y.observers doc)
        else [])
  ∧ heap (SocketServer.merge sid update w l) !! lDoc l
    = Some (Y.mkDoc (Y.items doc ∪ update) (Y.observers doc)).
Proof.
  intros Hdoc. unfold SocketServer.merge. rewrite Hdoc.
  unfold Y.applyUpdate.
  rewrite broadcast_inflight, broadcast_heap. simpl. split.
  - by case_bool_decide.
  - apply list_lookup_insert_eq. by eapply lookup_lt_Some.
Qed.

(** An argument that decodes reaches every listener; one that does not
    makes the first listener throw. *)
Lemma dispatch_encoded sid update w ls :
  SocketServer.dispatch (SocketServer.onUpdate sid (Y.Encoded update)) w ls
  = Some (foldl (SocketServer.merge sid update) w ls).
Proof. revert w. induction ls as [|l ls IH]; intros w; simpl; [done|]. apply IH. Qed.

Lemma dispatch_malformed sid raw w l ls :
  SocketServer.dispatch (SocketServer.onUpdate sid (Y.Malformed raw)) w
    (l :: ls)
  = None.
Proof. done. Qed.

End WriteBack.

(** ** The registry of live documents *)

Section Coherence.

Implicit Types (w : World) (h : list Y.Doc) (q : list RedisCmd).

Lemma keepsObservers_refl h : keepsObservers h h.
Proof. intros a doc Ha. by exists doc. Qed.

Lemma keepsObservers_app h k : keepsObservers h (h ++ k).
Proof.
  intros a doc Ha. exists doc. split; [|done]. by apply lookup_app_l_Some.
Qed.

Lemma keepsObservers_insert h a doc doc' :
  h !! a = Some doc → Y.observers doc' = Y.observers doc →
  keepsObservers h (<[a := doc']> h).
Proof.
  intros Ha Hobs b docb Hb. destruct (decide (a = b)) as [<-|Hab].
  - exists doc'. rewrite list_lookup_insert_eq by (by eapply lookup_lt_Some).
    split; [done|]. by assert (docb = doc) as -> by congruence.
  - exists docb. by rewrite list_lookup_insert_ne.
Qed.

Lemma observed_keeps h h' docId a :
  keepsObservers h h' → observed h docId a → observed h' docId a.
Proof.
  intros Hk (doc & Ha & Hobs). destruct (Hk a doc Ha) as (doc' & Ha' & Hobs').
  exists doc'. split; [done|]. congruence.
Qed.

Lemma loading_keeps h h' c :
  keepsObservers h h' → loading h c → loading h' c.
Proof.
  intros Hk. destruct c as [k j|k v]; [|done]. intros (doc & Ha & Hobs).
  destruct (Hk _ doc Ha) as (doc' & Ha' & Hobs').
  exists doc'. split; [done|]. congruence.
Qed.

Lemma loads_app q1 q2 : loads (q1 ++ q2) = loads q1 ++ loads q2.
Proof. apply omap_app. Qed.

Lemma loads_writes q : Forall isSet q → loads q = [].
Proof.
  induction 1 as [|c q Hc _ IH]; [done|].
  destruct c; [done|]. exact IH.
Qed.

Lemma loading_writes h q : Forall isSet q → Forall (loading h) q.
Proof.
  intros Hq. eapply Forall_impl; [exact Hq|]. by intros [].
Qed.

(** A reference that is being loaded is inside the heap. *)
Lemma loads_lt h q a :
  Forall (loading h) q → a ∈ loads q → (a < length h)%nat.
Proof.
  induction 1 as [|c q Hc _ IH]; simpl; [by intros ?%elem_of_nil|].
  destruct c as [k j|k v]; simpl; [|exact IH].
  intros [->|Hin]%elem_of_cons; [|by apply IH].
  destruct Hc as (doc & Ha & _). by eapply lookup_lt_Some.
Qed.

(** The state after a handler that leaves the map and the sockets alone,
    keeps every document with its observers and sends only writes. *)
Lemma coherent_after w w' q :
  docs w' = docs w → sockets w' = sockets w →
  inflight w' = inflight w ++ q → Forall isSet q →
  keepsObservers (heap w) (heap w') →
  coherent w → coherent w'.
Proof.
  intros Hd Hs Hq Hsets Hk [H1 H2 H3 H4]. split.
  - rewrite Hd. intros docId a Ha. eapply observed_keeps; eauto.
  - rewrite Hs. intros sid sock l Hsock Hl.
    eapply observed_keeps; eauto.
  - rewrite Hq. apply Forall_app. split; [|by apply loading_writes].
    eapply Forall_impl; [exact H3|]. intros c. by apply loading_keeps.
  - rewrite Hq, loads_app, (loads_writes q Hsets). by rewrite app_nil_r.
Qed.

Lemma coherent_boot d stored : coherent (boot d stored).
Proof.
  split; simpl.
  - intros docId a Ha. by rewrite lookup_empty in Ha.
  - intros sid sock l Hs. by rewrite lookup_empty in Hs.
  - constructor.
  - constructor.
Qed.

Lemma crash_coherent w : coherent (SocketServer.crash w).
Proof.
  split; simpl.
  - intros docId a Ha. by rewrite lookup_empty in Ha.
  - intros sid sock l Hs. by rewrite lookup_empty in Hs.
  - apply Forall_forall. intros c Hc.
    apply list_elem_of_filter in Hc as [Hc _]. by destruct c.
  - induction (inflight w) as [|c q IH]; [constructor|].
    rewrite filter_cons. destruct c as [k j|k v]; simpl; exact IH.
Qed.

Lemma connect_coherent sid token t w :
  coherent w → coherent (SocketServer.connect sid token t w).
Proof.
  intros Hw.
  assert (Hrefuse : ∀ reason,
            coherent (SocketServer.emit sid (ConnectError reason) w)).
  { intros reason. apply (coherent_after w _ []); try done.
    - simpl. by rewrite app_nil_r.
    - apply keepsObservers_refl. }
  unfold SocketServer.connect. destruct token as [tok|]; [|done].
  destruct (Jwt.empty tok); [done|].
  destruct (Jwt.verify tok t) as [sub|]; [|done].
  destruct (Prisma.user_findUnique sub (wDb w)) as [user|]; [|done].
  destruct Hw as [H1 H2 H3 H4]. split; simpl; try done.
  intros s sock l Hs Hl. destruct (decide (s = sid)) as [->|Hne].
  - rewrite lookup_insert_eq in Hs. injection Hs as <-.
    by apply elem_of_nil in Hl.
  - rewrite lookup_insert_ne in Hs by done. eauto.
Qed.

Lemma joined_coherent sid docId a w :
  coherent w → observed (heap w) docId a →
  coherent (SocketServer.joined sid docId a w).
Proof.
  intros Hw Hobs. unfold SocketServer.joined.
  destruct (sockets w !! sid) as [sock|] eqn:Hsock; [|done].
  destruct (heap w !! a) as [doc|]; [|done].
  destruct Hw as [H1 H2 H3 H4]. split; simpl; try done.
  intros s sock' l Hs Hl. destruct (decide (s = sid)) as [->|Hne].
  - rewrite lookup_insert_eq in Hs. injection Hs as <-. simpl in Hl.
    apply elem_of_app in Hl as [Hl|Hl]; [eauto|].
    by apply list_elem_of_singleton in Hl as ->.
  - rewrite lookup_insert_ne in Hs by done. eauto.
Qed.

Lemma joinContract_coherent sid docId w :
  coherent w → coherent (SocketServer.joinContract sid docId w).
Proof.
  intros Hw. unfold SocketServer.joinContract.
  destruct (sockets w !! sid) as [sock|]; [|done].
  assert (Hw1 : coherent (SocketServer.socketJoin sid docId w)).
  { apply (coherent_after w _ []); try done.
    - simpl. by rewrite app_nil_r.
    - apply keepsObservers_refl. }
  unfold Yjs.getYjsDoc_start. simpl.
  destruct (docs w !! docId) as [a|] eqn:Hdoc.
  - apply joined_coherent; [done|]. by apply (co_docs w Hw).
  - destruct Hw as [H1 H2 H3 H4]. split; simpl.
    + intros d0 a Ha. eapply observed_keeps; [apply keepsObservers_app|eauto].
    + intros s sk l Hs Hl.
      eapply observed_keeps; [apply keepsObservers_app|eauto].
    + apply Forall_app. split.
      * eapply Forall_impl; [exact H3|]. intros c.
        apply loading_keeps, keepsObservers_app.
      * repeat constructor. simpl. exists Y.new.
        by rewrite lookup_app_r, Nat.sub_diag.
    + rewrite loads_app. simpl. apply NoDup_app. split; [done|].
      split; [|apply NoDup_singleton].
      intros a Ha Ha'. apply list_elem_of_singleton in Ha' as ->.
      pose proof (loads_lt _ _ _ H3 Ha). lia.
Qed.

Lemma merge_sockets sid update w l :
  sockets (SocketServer.merge sid update w l) = sockets w.
Proof. unfold SocketServer.merge. by destruct (heap w !! lDoc l). Qed.

Lemma merge_coherent sid update w l :
  coherent w → coherent (SocketServer.merge sid update w l).
Proof.
  intros Hw. unfold SocketServer.merge.
  destruct (heap w !! lDoc l) as [doc|] eqn:Hdoc; [|done].
  unfold Y.applyUpdate.
  eapply (coherent_after w); [done|done|simpl; reflexivity| |simpl|done].
  - case_bool_decide; [|constructor].
    apply Forall_forall. intros c Hc.
    by apply list_elem_of_fmap in Hc as (docId & -> & _).
  - by eapply keepsObservers_insert.
Qed.

Lemma fold_merge_coherent sid update ls w :
  coherent w →
  coherent (foldl (SocketServer.merge sid update) w ls)
  ∧ sockets (foldl (SocketServer.merge sid update) w ls) = sockets w.
Proof.
  revert w. induction ls as [|l ls IH]; intros w Hw; simpl; [done|].
  destruct (IH _ (merge_coherent sid update w l Hw)) as [Hc Hs].
  split; [done|]. by rewrite Hs, merge_sockets.
Qed.

Lemma fold_onCursor_coherent sid user position ls w :
  coherent w →
  coherent (foldl (SocketServer.onCursor sid user position) w ls).
Proof.
  revert w. induction ls as [|l ls IH]; intros w Hw; simpl; [done|].
  apply IH. apply (coherent_after w _ []); try done.
  - simpl. by rewrite app_nil_r.
  - apply keepsObservers_refl.
Qed.

Lemma disconnect_coherent sid w :
  coherent w → coherent (SocketServer.disconnect sid w).
Proof.
  intros [H1 H2 H3 H4]. split; simpl; try done.
  intros s sock l Hs Hl. apply lookup_delete_Some in Hs as [_ Hs]. eauto.
Qed.

(** A document with an observer is not the one a read in flight loads. *)
Lemma observed_not_loading h docId a c :
  observed h docId a → loading h c → a ∉ loads [c].
Proof.
  intros (doc & Ha & Hobs). destruct c as [k j|k v]; simpl;
    [|by intros _ ?%elem_of_nil].
  intros (doc' & Ha' & Hobs') Hin. apply list_elem_of_singleton in Hin as ->.
  congruence.
Qed.

Lemma redisReply_coherent w :
  coherent w → coherent (SocketServer.redisReply w).
Proof.
  intros Hw. unfold SocketServer.redisReply.
  destruct (inflight w) as [|[k j|k v] rest] eqn:Hq; [done| |].
  - destruct Hw as [H1 H2 H3 H4]. rewrite Hq in H3, H4. simpl in H4.
    apply Forall_cons in H3 as [Hj H3]. apply NoDup_cons in H4 as [Hfresh H4].
    destruct Hj as (doc & Hdoc & Hnone).
    set (f := λ doc0 : Y.Doc,
                Y.on (jContract j)
                  match redis w !! k with
                  | Some st => fst (Y.applyUpdate doc0 st)
                  | None => doc0
                  end).
    assert (Hhere : observed (alter f (jDoc j) (heap w)) (jContract j)
                      (jDoc j)).
    { exists (f doc). rewrite list_lookup_alter_eq, Hdoc. split; [done|].
      unfold f. simpl. destruct (redis w !! k); simpl; by rewrite Hnone. }
    assert (Hrest : ∀ docId a, observed (heap w) docId a →
                      observed (alter f (jDoc j) (heap w)) docId a).
    { intros docId a (doc0 & Ha & Hobs). exists doc0.
      rewrite list_lookup_alter_ne; [done|]. intros <-. congruence. }
    apply joined_coherent; [|exact Hhere].
    unfold Yjs.getYjsDoc_resume. split; simpl.
    + intros docId a Ha. destruct (decide (docId = jContract j)) as [->|Hne].
      * rewrite lookup_insert_eq in Ha. by injection Ha as <-.
      * rewrite lookup_insert_ne in Ha by done. eauto.
    + intros s sock l Hs Hl. eauto.
    + apply Forall_forall. intros c Hc.
      pose proof (proj1 (Forall_forall _ _) H3 c Hc) as Hload.
      destruct c as [k' j'|]; [|done]. destruct Hload as (doc0 & Ha & Hobs).
      exists doc0. rewrite list_lookup_alter_ne; [done|].
      intros Heq. apply Hfresh. unfold loads.
      apply list_elem_of_omap. exists (GetBuffer k' j'). by rewrite Heq.
    + done.
  - destruct Hw as [H1 H2 H3 H4]. rewrite Hq in H3, H4.
    apply Forall_cons in H3 as [_ H3]. by split.
Qed.

Lemma step_coherent w e : coherent w → coherent (SocketServer.step w e).
Proof.
  intros Hw.
  destruct e as [sid token t|sid docId|sid arg|sid position|sid|]; simpl.
  - by apply connect_coherent.
  - by apply joinContract_coherent.
  - destruct (sockets w !! sid) as [sock|]; [|done].
    destruct arg as [update|raw].
    + rewrite dispatch_encoded. by apply fold_merge_coherent.
    + destruct (sListeners sock); [done|]. apply crash_coherent.
  - destruct (sockets w !! sid) as [sock|]; [|done].
    by apply fold_onCursor_coherent.
  - by apply disconnect_coherent.
  - by apply redisReply_coherent.
Qed.

Lemma run_coherent es w : coherent w → coherent (SocketServer.run w es).
Proof.
  revert w. induction es as [|e es IH]; intros w Hw; [done|].
  unfold SocketServer.run in *. simpl. by apply IH, step_coherent.
Qed.

End Coherence.

(** C4, as the code has it.  In every state the server reaches from its
    start, an ['update'] that decodes is merged by each listener of the
    socket in turn.  The document a listener merges into carries the one
    observer of its contract, so a merge that changes the document appends
    exactly one [SET] of the whole merged state under the key of that
    contract to the commands in flight, whatever is in flight already, and
    a merge that changes nothing appends no command.  Nothing is held back
    or folded into a later write. *)
Theorem every_merge_issues_its_own_write (d : Db)
    (stored : gmap string (gset nat)) (es : list Event) (sid : nat)
    (sock : Socket) (update : gset nat) :
  let w0 := SocketServer.run (boot d stored) es in
  sockets w0 !! sid = Some sock →
  SocketServer.step w0 (Update sid (Y.Encoded update))
  = foldl (SocketServer.merge sid update) w0 (sListeners sock)
  ∧ ∀ i l,
      sListeners sock !! i = Some l →
      let w := foldl (SocketServer.merge sid update) w0
                 (take i (sListeners sock)) in
      ∃ doc,
        heap w !! lDoc l = Some doc
        ∧ Y.observers doc = [lContract l]
        ∧ heap (SocketServer.merge sid update w l) !! lDoc l
          = Some (Y.mkDoc (Y.items doc ∪ update) [lContract l])
        ∧ (¬ update ⊆ Y.items doc →
           inflight (SocketServer.merge sid update w l)
           = inflight w
             ++ [RedisSet (Yjs.key (lContract l)) (Y.items doc ∪ update)])
        ∧ (update ⊆ Y.items doc →
           inflight (SocketServer.merge sid update w l) = inflight w).
Proof.
  intros w0 Hsock.
  assert (Hw0 : coherent w0) by apply run_coherent, coherent_boot.
  split.
  { simpl. by rewrite Hsock, dispatch_encoded. }
  intros i l Hl w.
  destruct (fold_merge_coherent sid update (take i (sListeners sock)) w0 Hw0)
    as [Hw Hsame].
  fold w in Hw, Hsame.
  assert (Hin : l ∈ sListeners sock) by (by eapply list_elem_of_lookup_2).
  rewrite <- Hsame in Hsock.
  destruct (co_listeners w Hw sid sock l Hsock Hin) as (doc & Hdoc & Hobs).
  destruct (onUpdate_writes sid update w l doc Hdoc) as [Hq Hh].
  rewrite Hobs in Hq, Hh. exists doc.
  split; [done|]. split; [done|]. split; [done|]. split.
  - intros Hnew. rewrite Hq. by rewrite bool_decide_eq_true_2.
  - intros Hold. rewrite Hq. rewrite bool_decide_eq_false_2 by auto.
    by rewrite app_nil_r.
Qed.

(** The theorem after Alice's first update: her second update finds the
    write of the first still in flight and adds its own. *)
Lemma every_merge_issues_its_own_write_witness :
  let w := SocketServer.run (Sample.world VIEWER)
             [Sample.hello 1 Sample.alice; JoinContract 1 "c1"; RedisReply;
              Update 1 (Y.Encoded {[7%nat]})] in
  sockets w !! 1%nat = Some (mkSocket Sample.alice [mkListener "c1" 0])
  ∧ inflight w = [RedisSet "yjs:doc:c1" {[1%nat; 2%nat; 7%nat]}]
  ∧ inflight (SocketServer.step w (Update 1 (Y.Encoded {[8%nat]})))
    = inflight w
      ++ [RedisSet "yjs:doc:c1" ({[1%nat; 2%nat; 7%nat]} ∪ {[8%nat]})].
Proof.
  intros w.
  assert (Hsock : sockets w !! 1%nat
                  = Some (mkSocket Sample.alice [mkListener "c1" 0]))
    by (by vm_compute).
  destruct (every_merge_issues_its_own_write (Sample.dbWith VIEWER)
              {[ "yjs:doc:c1" := {[1%nat; 2%nat]} ]}
              [Sample.hello 1 Sample.alice; JoinContract 1 "c1"; RedisReply;
               Update 1 (Y.Encoded {[7%nat]})]
              1 _ {[8%nat]} Hsock) as [Hstep Hmerge].
  change (boot (Sample.dbWith VIEWER) {[ "yjs:doc:c1" := {[1%nat; 2%nat]} ]})
    with (Sample.world VIEWER) in Hstep, Hmerge.
  fold w in Hstep, Hmerge.
  destruct (Hmerge 0%nat (mkListener "c1" 0) eq_refl)
    as (doc & Hdoc & _ & _ & Hwrite & _).
  assert (doc = Y.mkDoc {[1%nat; 2%nat; 7%nat]} ["c1"]) as ->.
  { vm_compute in Hdoc. by injection Hdoc as <-. }
  split; [exact Hsock|]. split; [by vm_compute|].
  rewrite Hstep.
  apply Hwrite. apply (bool_decide_unpack _). by vm_compute.
Defined.

(** C4, as the spec states it, fails: after two updates in a row two writes
    for the same key are in flight at once, and the first of them is
    already stale. *)
Lemma writes_are_not_coalesced :
  inflight (SocketServer.run (Sample.world VIEWER) Sample.burst)
  = [RedisSet "yjs:doc:c1" {[1%nat; 2%nat; 7%nat]};
     RedisSet "yjs:doc:c1" {[1%nat; 2%nat; 7%nat; 8%nat]}].
Proof. by vm_compute. Qed.


(** ** When the archival routes succeed *)

Section Success.

Implicit Types (d : Db) (c : Contract.t).

(** Below the current version there is no snapshot at the current version,
    so archiving the current state is never refused. *)
Lemma archive_is_fresh d cid c :
  versionsBelow d →
  Prisma.contract_findUnique cid d = Some c →
  Prisma.contractVersion_findUnique (Contract.id c) (Contract.version c) d
  = None.
Proof.
  intros Hinv Hfind. unfold Prisma.contractVersion_findUnique.
  destruct (find _ (contractVersions d)) as [v|] eqn:Hv; [|done].
  apply find_some in Hv as [Hin Hp].
  apply andb_true_iff in Hp as [Hc Hn].
  apply bool_decide_eq_true in Hc, Hn. apply list_elem_of_In in Hin.
  destruct (find_hasId_id _ _ _ Hfind) as [_ Hcin].
  specialize (Hinv c v Hcin Hin Hc). lia.
Qed.

Lemma findFirst_where d cid c (P : Contract.t → bool) :
  contractKey d →
  Prisma.contract_findUnique cid d = Some c →
  (∀ x, P x = true → Contract.id x = cid) →
  P c = true →
  Prisma.contract_findFirst P d = Some c.
Proof.
  unfold contractKey, Prisma.contract_findUnique, Prisma.contract_findFirst.
  intros Hkey Hfind Hid Hc.
  destruct (find_hasId_id _ _ _ Hfind) as [_ Hcin].
  destruct (find P (contracts d)) as [x|] eqn:Hx.
  - apply find_some in Hx as [Hin Hp]. apply list_elem_of_In in Hin.
    f_equal. eapply find_hasId_unique; eauto.
  - apply list_elem_of_In in Hcin.
    pose proof (find_none _ _ Hx _ Hcin). congruence.
Qed.

(** The owner, or a user with an EDITOR or ADMIN grant, who sends a file
    while the object store answers gets 200. *)
Lemma upload_succeeds e user cid note f (st : Store) c :
  contractKey (db st) →
  versionsBelow (db st) →
  Prisma.contract_findUnique cid (db st) = Some c →
  Versions.ownerOrEditor user cid (db st) c = true →
  s3Up e = true →
  statusOf (fst (Versions.upload e user cid note (Some f) st))
  = Some 200%nat.
Proof.
  intros Hkey Hinv Hfind Hmay Hup. unfold Versions.upload.
  rewrite (findFirst_where _ cid c _ Hkey Hfind); [|..|done]; cycle 1.
  { intros x Hx. apply andb_true_iff in Hx as [Hx _].
    by apply bool_decide_eq_true in Hx. }
  unfold Prisma.contractVersion_create. simpl.
  rewrite (archive_is_fresh _ _ _ Hinv Hfind).
  unfold S3.uploadToS3. rewrite Hup.
  by rewrite (contract_update_found _ cid c).
Qed.

(** The owner who names an archived version gets 200. *)
Lemma restore_succeeds e user cid V (st : Store) c target :
  contractKey (db st) →
  versionsBelow (db st) →
  Prisma.contract_findUnique cid (db st) = Some c →
  Contract.ownerId c = User.id user →
  Prisma.contractVersion_findUnique cid V (db st) = Some target →
  statusOf (fst (Versions.restore e user cid V st)) = Some 200%nat.
Proof.
  intros Hkey Hinv Hfind Hown Htarget. unfold Versions.restore.
  rewrite (findFirst_ownedBy_owner _ _ _ _ Hkey Hfind Hown), Htarget.
  unfold Prisma.contractVersion_create. simpl.
  rewrite (archive_is_fresh _ _ _ Hinv Hfind).
  by rewrite (contract_update_found _ cid c).
Qed.

(** An upload that succeeds keeps every snapshot below the current
    version.  (One that fails at the object store leaves the archive row
    behind.) *)
Lemma upload_keeps_versionsBelow e user cid note file (st st' : Store) body :
  contractKey (db st) →
  versionsBelow (db st) →
  Versions.upload e user cid note file st = (Json 200 body, st') →
  versionsBelow (db st').
Proof.
  intros Hkey Hinv. unfold Versions.upload.
  destruct file as [f|]; [|discriminate].
  destruct (Prisma.contract_findFirst _ _) as [c|] eqn:Hfirst;
    [|discriminate].
  apply find_some in Hfirst as [Hin Hp].
  apply andb_true_iff in Hp as [Hid _].
  apply bool_decide_eq_true in Hid. apply list_elem_of_In in Hin.
  assert (Hfind : Prisma.contract_findUnique cid (db st) = Some c).
  { unfold Prisma.contract_findUnique.
    destruct (find (Prisma.hasId cid) (contracts (db st))) as [x|] eqn:Hx.
    - f_equal. symmetry. eapply find_hasId_unique; eauto.
    - apply list_elem_of_In in Hin.
      pose proof (find_none _ _ Hx _ Hin) as Hno.
      unfold Prisma.hasId in Hno.
      by rewrite bool_decide_eq_true_2 in Hno. }
  destruct (Prisma.contractVersion_create _ _) as [d1|] eqn:Hcreate;
    [|discriminate].
  apply contractVersion_create_app in Hcreate as ->.
  destruct (S3.uploadToS3 _ _ _ _ _) as [b1|]; [|discriminate].
  rewrite (contract_update_found _ cid c) by done.
  intros [= _ <-].
  apply (versionsBelow_advance (db st) cid c
           (Versions.archiveOf e user c
              (Js.orElse note ("Version " +:+ pretty (Contract.version c))))
           _ Hkey Hinv Hfind); done.
Qed.

End Success.

(** ** The socket server never looks at ownership or grants *)

Section Independence.

Variables (cs : list Contract.t) (ps : list Permission.t).

Lemma joined_reshare sid cid a w :
  SocketServer.joined sid cid a (reshare cs ps w)
  = reshare cs ps (SocketServer.joined sid cid a w).
Proof.
  unfold SocketServer.joined. simpl.
  destruct (sockets w !! sid); [|done]. by destruct (heap w !! a).
Qed.

Lemma onUpdate_reshare sid update w l :
  SocketServer.merge sid update (reshare cs ps w) l
  = reshare cs ps (SocketServer.merge sid update w l).
Proof.
  unfold SocketServer.merge. simpl. by destruct (heap w !! lDoc l).
Qed.

Lemma fold_reshare (f : World → Listener → World) (ls : list Listener) :
  (∀ w l, f (reshare cs ps w) l = reshare cs ps (f w l)) →
  ∀ w, foldl f (reshare cs ps w) ls = reshare cs ps (foldl f w ls).
Proof.
  intros Hf. induction ls as [|l ls IH]; intros w; simpl; [done|].
  by rewrite Hf, IH.
Qed.

(** Every transition commutes with replacing the contracts and the grants:
    what the server does, sends and stores is the same whoever owns the
    contract and whatever grants exist. *)
Lemma step_reshare w e :
  SocketServer.step (reshare cs ps w) e
  = reshare cs ps (SocketServer.step w e).
Proof.
  destruct e as [sid token t|sid cid|sid arg|sid position|sid|]; simpl.
  - unfold SocketServer.connect. simpl.
    destruct token as [tok|]; [|done].
    destruct (Jwt.empty tok); [done|].
    destruct (Jwt.verify tok t) as [sub|]; [|done].
    unfold Prisma.user_findUnique. simpl.
    by destruct (find _ (users (wDb w))).
  - unfold SocketServer.joinContract. simpl.
    destruct (sockets w !! sid); [|done].
    unfold Yjs.getYjsDoc_start. simpl.
    destruct (docs w !! cid); [|done].
    apply (joined_reshare sid cid _ (SocketServer.socketJoin sid cid w)).
  - destruct (sockets w !! sid) as [sock|]; [|done].
    destruct arg as [update|raw].
    + rewrite !dispatch_encoded. apply fold_reshare. intros.
      apply onUpdate_reshare.
    + by destruct (sListeners sock).
  - destruct (sockets w !! sid) as [sock|]; [|done].
    by apply fold_reshare.
  - done.
  - unfold SocketServer.redisReply. simpl.
    destruct (inflight w) as [|[k j|k v] rest]; [done| |done].
    apply (joined_reshare _ _ _
             (Yjs.getYjsDoc_resume (jContract j) (jDoc j) (redis w !! k)
                (mkWorld (wDb w) (docs w) (heap w) (redis w) rest
                   (sockets w) (rooms w) (outbox w)))).
Qed.

Lemma run_reshare es w :
  SocketServer.run (reshare cs ps w) es
  = reshare cs ps (SocketServer.run w es).
Proof.
  revert w. induction es as [|e es IH]; intros w; simpl; [done|].
  unfold SocketServer.run in *. simpl. by rewrite step_reshare, IH.
Qed.

End Independence.

(** * Properties of the remaining routes *)

(** ** Who may read a contract *)

Section Reading.

Implicit Types (d : Db) (c : Contract.t) (p : Permission.t).

(** The user holds a grant, of whatever role, on the contract. *)
Lemma permissions_some_user d c uid :
  Prisma.permissions_some (λ p, bool_decide (Permission.userId p = uid)) d c
  = true
  ↔ ∃ p, p ∈ permissions d
         ∧ Permission.contractId p = Contract.id c
         ∧ Permission.userId p = uid.
Proof.
  unfold Prisma.permissions_some. rewrite existsb_exists. split.
  - intros (p & Hin & Hp). apply andb_true_iff in Hp as [Hc Hu].
    apply bool_decide_eq_true in Hc, Hu. exists p.
    by rewrite list_elem_of_In.
  - intros (p & Hin & Hc & Hu). exists p. rewrite <- list_elem_of_In.
    split; [done|]. by rewrite !bool_decide_eq_true_2.
Qed.

Lemma permissionsOf_user d c uid :
  existsb (λ q : Permission.t * option UserRef,
             bool_decide (Permission.userId (fst q) = uid))
    (Catalog.permissionsOf c d)
  = Prisma.permissions_some (λ p, bool_decide (Permission.userId p = uid))
      d c.
Proof.
  unfold Catalog.permissionsOf, Prisma.permissions_some.
  induction (permissions d) as [|p l IH]; [done|].
  rewrite filter_cons. simpl. case_decide as Hp.
  - simpl. rewrite IH. by rewrite (bool_decide_eq_true_2 _ Hp).
  - rewrite IH. by rewrite (bool_decide_eq_false_2 _ Hp).
Qed.

Lemma findFirst_ownedOrShared d (user : User.t) cid c :
  contractKey d →
  Prisma.contract_findUnique cid d = Some c →
  Prisma.contract_findFirst (ownedOrShared user cid d) d
  = if ownedOrShared user cid d c then Some c else None.
Proof.
  unfold contractKey, Prisma.contract_findUnique, Prisma.contract_findFirst.
  intros Hkey Hfind.
  destruct (find_hasId_id _ _ _ Hfind) as [Hid Hcin].
  destruct (find (ownedOrShared user cid d) (contracts d)) as [x|] eqn:Hx.
  - apply find_some in Hx as [Hin Hp]. apply list_elem_of_In in Hin.
    assert (x = c) as ->.
    { apply andb_true_iff in Hp as [Hxid _].
      apply bool_decide_eq_true in Hxid. eapply find_hasId_unique; eauto. }
    by rewrite Hp.
  - apply list_elem_of_In in Hcin.
    by rewrite (find_none _ _ Hx _ Hcin).
Qed.

Lemma ownedOrShared_spec d (user : User.t) cid c :
  Contract.id c = cid →
  ownedOrShared user cid d c = true
  ↔ Contract.ownerId c = User.id user
    ∨ ∃ p, p ∈ permissions d
           ∧ Permission.contractId p = cid
           ∧ Permission.userId p = User.id user.
Proof.
  intros <-. unfold ownedOrShared, Prisma.hasId.
  rewrite bool_decide_eq_true_2 by done. simpl.
  rewrite orb_true_iff, bool_decide_eq_true.
  by rewrite permissions_some_user.
Qed.

End Reading.

(** The decision of the details route on an existing contract. *)
Lemma contract_details_access_aux (user : User.t) (cid : string) (d : Db)
    (c : Contract.t) :
  Prisma.contract_findUnique cid d = Some c →
  (mayRead user c d →
     ∃ details,
       Catalog.get user cid d = Sent 200 details
       ∧ dContract details = c
       ∧ urlKey (dPdfUrl details) = Contract.s3Key c)
  ∧ (¬ mayRead user c d →
     Catalog.get user cid d = Refused 403 "Access denied").
Proof.
  unfold Catalog.get, mayRead, holdsGrant. intros ->.
  rewrite permissionsOf_user.
  destruct (bool_decide (Contract.ownerId c = User.id user)
            || Prisma.permissions_some
                 (λ p, bool_decide (Permission.userId p = User.id user)) d c)
    eqn:Hacc; simpl.
  - split; [by eexists|]. intros Hno. exfalso. apply Hno.
    by rewrite orb_true_iff, bool_decide_eq_true, permissions_some_user
      in Hacc.
  - split; [|done]. intros Hyes. exfalso.
    rewrite <- permissions_some_user, <- (bool_decide_eq_true (_ = _)),
      <- orb_true_iff in Hyes.
    congruence.
Qed.

(** X1. The details of an existing contract, with a download URL for its
    current blob, go to its owner and to every user who holds a grant on
    it, whatever the role; everybody else is answered 403.  An unknown id
    is answered 404. *)
Theorem contract_details_access (user : User.t) (cid : string) (d : Db) :
  (Prisma.contract_findUnique cid d = None →
   Catalog.get user cid d = Refused 404 "Not found")
  ∧ ∀ c, Prisma.contract_findUnique cid d = Some c →
      (mayRead user c d →
         ∃ details,
           Catalog.get user cid d = Sent 200 details
           ∧ dContract details = c
           ∧ urlKey (dPdfUrl details) = Contract.s3Key c)
      ∧ (¬ mayRead user c d →
         Catalog.get user cid d = Refused 403 "Access denied").
Proof.
  split.
  - unfold Catalog.get. by intros ->.
  - intros c Hc. by apply contract_details_access_aux.
Qed.

(** The theorem at the sample database: Bob reads the contract as VIEWER,
    Carol holds no grant. *)
Lemma contract_details_access_witness :
  Prisma.contract_findUnique "c1" (Sample.dbWith VIEWER) = Some Sample.nda
  ∧ mayRead Sample.bob Sample.nda (Sample.dbWith VIEWER)
  ∧ ¬ mayRead Sample.carol Sample.nda (Sample.dbWith VIEWER)
  ∧ answerStatus (Catalog.get Sample.bob "c1" (Sample.dbWith VIEWER))
    = Some 200%nat
  ∧ Catalog.get Sample.carol "c1" (Sample.dbWith VIEWER)
    = Refused 403 "Access denied".
Proof.
  assert (Hbob : mayRead Sample.bob Sample.nda (Sample.dbWith VIEWER)).
  { right. exists (Permission.mk "p1" "c1" "u2" VIEWER).
    split; [apply list_elem_of_here | done]. }
  assert (Hcarol : ¬ mayRead Sample.carol Sample.nda (Sample.dbWith VIEWER)).
  { intros [Hown|(p & Hin & _ & Hu)]; [discriminate|].
    apply list_elem_of_singleton in Hin as ->. discriminate. }
  destruct (contract_details_access Sample.bob "c1" (Sample.dbWith VIEWER))
    as [_ Hb].
  destruct (contract_details_access Sample.carol "c1" (Sample.dbWith VIEWER))
    as [_ Hc].
  destruct (Hb Sample.nda eq_refl) as [Hyes _].
  destruct (Hc Sample.nda eq_refl) as [_ Hno].
  destruct (Hyes Hbob) as (details & Hget & _).
  split; [reflexivity|]. split; [exact Hbob|]. split; [exact Hcarol|].
  split; [by rewrite Hget | exact (Hno Hcarol)].
Defined.

(** ** Granting and revoking access *)

Section Sharing.

Implicit Types (d : Db) (c : Contract.t) (p : Permission.t).

Lemma holdsGrant_setRole uid cid d i r :
  holdsGrant uid cid d →
  holdsGrant uid cid
    (Prisma.withPermissions
       (map (λ x, if bool_decide (Permission.id x = i)
                  then Permission.setRole r x else x)
            (permissions d)) d).
Proof.
  intros (p & Hin & Hc & Hu). unfold holdsGrant. simpl.
  exists (if bool_decide (Permission.id p = i)
          then Permission.setRole r p else p).
  split; [apply list_elem_of_fmap; by exists p|].
  by case_bool_decide.
Qed.

(** In a table that respects the compound key, a pair names one row. *)
Lemma grantKey_unique d p q :
  grantKey d → p ∈ permissions d → q ∈ permissions d →
  grantOf p = grantOf q → p = q.
Proof.
  unfold grantKey. induction (permissions d) as [|x l IH]; intros Hnd Hp Hq Hk.
  - by apply elem_of_nil in Hp.
  - simpl in Hnd. apply NoDup_cons in Hnd as [Hx Hnd].
    apply elem_of_cons in Hp as [->|Hp]; apply elem_of_cons in Hq as [->|Hq].
    + done.
    + exfalso. apply Hx. rewrite Hk. by apply list_elem_of_fmap_2.
    + exfalso. apply Hx. rewrite <- Hk. by apply list_elem_of_fmap_2.
    + by apply IH.
Qed.

Lemma permission_findUnique_elem d i p :
  Prisma.permission_findUnique i d = Some p →
  Permission.id p = i ∧ p ∈ permissions d.
Proof.
  unfold Prisma.permission_findUnique. intros H.
  apply find_some in H as [Hin Hid]. apply bool_decide_eq_true in Hid.
  split; [done|]. by apply list_elem_of_In.
Qed.

Lemma permission_delete_found d i p :
  Prisma.permission_findUnique i d = Some p →
  Grants.permission_delete i d
  = Some (Prisma.withPermissions
            (filter (λ q, Permission.id q ≠ i) (permissions d)) d).
Proof. intros H. unfold Grants.permission_delete. by rewrite H. Qed.

End Sharing.

(** X2. An invitation that is answered 200 or 201 opens the contract to the
    invited user: the details route then answers that user 200, whatever
    role was granted. *)
Theorem invitation_opens_contract (isEmail : string → bool) (e : Env)
    (owner invited : User.t) (cid email : string) (role : Role)
    (body : InviteBody) (d d' : Db) (reply : Reply) :
  Permissions.invite isEmail e owner cid body d = (reply, d') →
  statusOf reply = Some 200%nat ∨ statusOf reply = Some 201%nat →
  Permissions.parseInvite isEmail body = Some (email, role) →
  Prisma.user_findByEmail email d = Some invited →
  answerStatus (Catalog.get invited cid d') = Some 200%nat.
Proof.
  intros Hrun Hok Hparse Hmail. rewrite invite_alone in Hrun.
  rewrite Hparse in Hrun.
  destruct (Prisma.contract_findFirst _ _) as [c0|] eqn:Hfirst;
    [|injection Hrun as <- _; by destruct Hok].
  rewrite Hmail in Hrun.
  case_bool_decide; [injection Hrun as <- _; by destruct Hok|].
  assert (Hsome : ∃ c, Prisma.contract_findUnique cid d = Some c).
  { unfold Prisma.contract_findUnique.
    destruct (find (Prisma.hasId cid) (contracts d)) as [c|] eqn:Hc;
      [by eexists|].
    apply find_some in Hfirst as [Hin Hp].
    apply andb_true_iff in Hp as [Hid _].
    by rewrite (find_none _ _ Hc _ Hin) in Hid. }
  destruct Hsome as [c Hc].
  destruct (find_hasId_id _ _ _ Hc) as [Hcid _].
  assert (Hgrant : holdsGrant (User.id invited) (Contract.id c) d'
                   ∧ contracts d' = contracts d).
  { rewrite Hcid.
    destruct (Prisma.permission_findUniquePair cid (User.id invited) d)
      as [existing|] eqn:Hpair.
    - destruct (findPair_grantOf _ _ _ _ Hpair) as [Hk Hin].
      injection Hk as Hkc Hku.
      unfold Prisma.permission_update in Hrun.
      destruct (Prisma.permission_findUnique _ _);
        [|injection Hrun as <- _; by destruct Hok].
      injection Hrun as _ <-. split; [|done].
      apply holdsGrant_setRole. by exists existing.
    - unfold Prisma.permission_create in Hrun. simpl in Hrun.
      rewrite Hpair in Hrun. injection Hrun as _ <-. split; [|done].
      eexists. split; [apply elem_of_app; right; apply list_elem_of_here|].
      done. }
  destruct Hgrant as [Hgrant Hsame].
  destruct (contract_details_access_aux invited cid d' c) as [Hyes _].
  { unfold Prisma.contract_findUnique in *. by rewrite Hsame. }
  destruct Hyes as (details & -> & _); [by right|]. done.
Qed.

(** The theorem at the sample database: Alice invites Carol as VIEWER, and
    Carol, refused before, reads the contract. *)
Lemma invitation_opens_contract_witness :
  Catalog.get Sample.carol "c1" (Sample.dbWith EDITOR)
  = Refused 403 "Access denied"
  ∧ ∃ reply d',
      Permissions.invite Sample.anyEmail Sample.env Sample.alice "c1"
        (Sample.inviteCarol "VIEWER") (Sample.dbWith EDITOR) = (reply, d')
      ∧ statusOf reply = Some 201%nat
      ∧ answerStatus (Catalog.get Sample.carol "c1" d') = Some 200%nat.
Proof.
  split; [reflexivity|].
  destruct (Permissions.invite Sample.anyEmail Sample.env Sample.alice "c1"
              (Sample.inviteCarol "VIEWER") (Sample.dbWith EDITOR))
    as [reply d'] eqn:Hrun.
  assert (Hst : statusOf reply = Some 201%nat).
  { vm_compute in Hrun. by injection Hrun as <- _. }
  exists reply, d'. split; [reflexivity|]. split; [exact Hst|].
  exact (invitation_opens_contract Sample.anyEmail Sample.env Sample.alice
           Sample.carol "c1" "carol@example.com" VIEWER
           (Sample.inviteCarol "VIEWER") (Sample.dbWith EDITOR) d' reply
           Hrun (or_intror Hst) eq_refl eq_refl).
Defined.

(** X3. A grant is removed by the owner of its contract or by the user it
    was given to, and by nobody else: a third user is answered 403 and the
    database stays as it was; for the owner or the grantee the reply is 200,
    the grant is gone and every other grant is kept. *)
Theorem grant_removal_authority (user : User.t) (pid : string)
    (p : Permission.t) (c : Contract.t) (d : Db) :
  Prisma.permission_findUnique pid d = Some p →
  Prisma.contract_findUnique (Permission.contractId p) d = Some c →
  (Contract.ownerId c ≠ User.id user →
   Permission.userId p ≠ User.id user →
   Grants.delete user pid d
   = (Refused 403 "Cannot remove this permission", d))
  ∧ (Contract.ownerId c = User.id user ∨ Permission.userId p = User.id user →
     ∃ d',
       Grants.delete user pid d = (Sent 200 true, d')
       ∧ Prisma.permission_findUnique pid d' = None
       ∧ permissions d'
         = filter (λ q, Permission.id q ≠ pid) (permissions d)
       ∧ contracts d' = contracts d
       ∧ users d' = users d).
Proof.
  intros Hp Hc. unfold Grants.delete. rewrite Hp, Hc. split.
  - intros Ho Hu. by rewrite !bool_decide_eq_true_2.
  - intros Hmay.
    assert (bool_decide (Contract.ownerId c ≠ User.id user)
            && bool_decide (Permission.userId p ≠ User.id user) = false)
      as ->.
    { apply andb_false_iff.
      destruct Hmay as [Ho|Hu]; [left|right];
        by apply bool_decide_eq_false_2; intros ?. }
    rewrite (permission_delete_found _ _ _ Hp).
    eexists. split; [done|]. simpl. split; [|done].
    unfold Prisma.permission_findUnique. simpl.
    destruct (find _ _) as [q|] eqn:Hq; [|done].
    apply find_some in Hq as [Hin Hid]. apply bool_decide_eq_true in Hid.
    apply list_elem_of_In, list_elem_of_filter in Hin as [Hne _]. done.
Qed.

(** The theorem at the sample database: Bob may not remove Carol's grant;
    Carol removes it herself, and Bob's grant stays. *)
Lemma grant_removal_authority_witness :
  Prisma.permission_findUnique "p2" Sample.shared
  = Some (Permission.mk "p2" "c1" "u3" VIEWER)
  ∧ Grants.delete Sample.bob "p2" Sample.shared
    = (Refused 403 "Cannot remove this permission", Sample.shared)
  ∧ ∃ d',
      Grants.delete Sample.carol "p2" Sample.shared = (Sent 200 true, d')
      ∧ permissions d' = [Permission.mk "p1" "c1" "u2" ADMIN].
Proof.
  destruct (grant_removal_authority Sample.bob "p2"
              (Permission.mk "p2" "c1" "u3" VIEWER) Sample.nda Sample.shared
              eq_refl eq_refl) as [Hbob _].
  destruct (grant_removal_authority Sample.carol "p2"
              (Permission.mk "p2" "c1" "u3" VIEWER) Sample.nda Sample.shared
              eq_refl eq_refl) as [_ Hcarol].
  destruct (Hcarol (or_intror eq_refl)) as (d' & Hrun & _ & Hrows & _).
  split; [reflexivity|].
  split; [apply Hbob; discriminate|].
  exists d'. split; [exact Hrun|]. rewrite Hrows. reflexivity.
Defined.

(** X4. Removing a grant closes the contract: in a table with one grant per
    (contract, user) pair, once the grant of a user who does not own the
    contract is removed, the details route answers that user 403. *)
Theorem revoked_grant_closes_contract (user grantee : User.t) (pid : string)
    (p : Permission.t) (c : Contract.t) (d d' : Db) :
  grantKey d →
  Prisma.permission_findUnique pid d = Some p →
  Prisma.contract_findUnique (Permission.contractId p) d = Some c →
  Permission.userId p = User.id grantee →
  Contract.ownerId c ≠ User.id grantee →
  Grants.delete user pid d = (Sent 200 true, d') →
  Catalog.get grantee (Permission.contractId p) d'
  = Refused 403 "Access denied".
Proof.
  intros Hkey Hp Hc Hgrantee Hown Hrun.
  unfold Grants.delete in Hrun. rewrite Hp, Hc in Hrun.
  destruct (_ && _); [discriminate|].
  rewrite (permission_delete_found _ _ _ Hp) in Hrun.
  injection Hrun as <-.
  destruct (permission_findUnique_elem _ _ _ Hp) as [Hid Hin].
  destruct (find_hasId_id _ _ _ Hc) as [Hcid _].
  apply (contract_details_access_aux grantee _ _ c); [done|].
  intros [Ho|(q & Hq & Hqc & Hqu)]; [done|]. simpl in Hq.
  apply list_elem_of_filter in Hq as [Hne Hq]. apply Hne.
  rewrite <- Hid. f_equal. apply (grantKey_unique d); [done..|].
  unfold grantOf. congruence.
Qed.

(** The theorem at the sample database: after Alice removes Carol's grant,
    Carol is refused. *)
Lemma revoked_grant_closes_contract_witness :
  answerStatus (Catalog.get Sample.carol "c1" Sample.shared) = Some 200%nat
  ∧ ∃ d',
      Grants.delete Sample.alice "p2" Sample.shared = (Sent 200 true, d')
      ∧ Catalog.get Sample.carol "c1" d' = Refused 403 "Access denied".
Proof.
  split; [reflexivity|].
  destruct (Grants.delete Sample.alice "p2" Sample.shared) as [r d'] eqn:Hrun.
  assert (r = Sent 200 true) as ->.
  { vm_compute in Hrun. by injection Hrun as <- _. }
  exists d'. split; [reflexivity|].
  assert (Hkey : grantKey Sample.shared) by key_holds.
  exact (revoked_grant_closes_contract Sample.alice Sample.carol "p2"
           (Permission.mk "p2" "c1" "u3" VIEWER) Sample.nda Sample.shared d'
           Hkey eq_refl eq_refl eq_refl ltac:(discriminate) Hrun).
Defined.

(** X5. The list of grants of a contract is for its owner only: any other
    user, grantees included, is answered 404; the owner reads every grant
    of the contract and no grant of another contract. *)
Theorem grant_list_owner_only (user : User.t) (cid : string)
    (c : Contract.t) (d : Db) :
  contractKey d →
  Prisma.contract_findUnique cid d = Some c →
  (Contract.ownerId c ≠ User.id user →
   Grants.list user cid d = Refused 404 "Contract not found or not owner")
  ∧ (Contract.ownerId c = User.id user →
     ∃ rows,
       Grants.list user cid d = Sent 200 rows
       ∧ ∀ p, p ∈ map fst rows
              ↔ p ∈ permissions d ∧ Permission.contractId p = cid).
Proof.
  intros Hkey Hc. unfold Grants.list. split; intros Hown.
  - by rewrite (findFirst_ownedBy_stranger _ _ _ _ Hkey Hc Hown).
  - rewrite (findFirst_ownedBy_owner _ _ _ _ Hkey Hc Hown).
    eexists. split; [done|]. intros p.
    rewrite map_map. simpl. rewrite map_id.
    rewrite list_elem_of_filter. tauto.
Qed.

(** The theorem at the sample database: Bob, although ADMIN, may not list
    the grants; Alice reads both. *)
Lemma grant_list_owner_only_witness :
  contractKey Sample.shared
  ∧ Grants.list Sample.bob "c1" Sample.shared
    = Refused 404 "Contract not found or not owner"
  ∧ ∃ rows,
      Grants.list Sample.alice "c1" Sample.shared = Sent 200 rows
      ∧ map fst rows = permissions Sample.shared.
Proof.
  assert (Hkey : contractKey Sample.shared) by key_holds.
  destruct (grant_list_owner_only Sample.bob "c1" Sample.nda Sample.shared
              Hkey eq_refl) as [Hbob _].
  destruct (grant_list_owner_only Sample.alice "c1" Sample.nda Sample.shared
              Hkey eq_refl) as [_ Halice].
  destruct (Halice eq_refl) as (rows & Hrun & _).
  split; [exact Hkey|]. split; [apply Hbob; discriminate|].
  exists rows. split; [exact Hrun|].
  vm_compute in Hrun. by injection Hrun as <-.
Defined.

(** ** The version history *)

Section Histories.

Implicit Types (d : Db) (c : Contract.t) (v : ContractVersion.t).

#[local] Instance newerFirst_trans : Transitive History.newerFirst.
Proof. intros a b c. unfold History.newerFirst. lia. Qed.

#[local] Instance newerFirst_total : Total History.newerFirst.
Proof. intros a b. unfold History.newerFirst. lia. Qed.

(** The snapshots of one contract carry pairwise different numbers. *)
Lemma versionKey_filter (vs : list ContractVersion.t) cid :
  NoDup (map snapshotOf vs) →
  NoDup (map ContractVersion.version
           (filter (λ v, ContractVersion.contractId v = cid) vs)).
Proof.
  induction vs as [|v vs IH]; simpl; intros Hnd; [constructor|].
  apply NoDup_cons in Hnd as [Hv Hnd]. rewrite filter_cons.
  case_decide as Hcid; [|by apply IH]. simpl.
  apply NoDup_cons. split; [|by apply IH].
  intros Hin. apply Hv.
  apply list_elem_of_fmap in Hin as (w & Hw & Hwin).
  apply list_elem_of_filter in Hwin as [Hwc Hwin].
  apply list_elem_of_fmap. exists w. split; [|done].
  unfold snapshotOf. congruence.
Qed.

(** Sorted without repetition is strictly sorted. *)
Lemma newerFirst_strict (l : list ContractVersion.t) :
  StronglySorted History.newerFirst l →
  NoDup (map ContractVersion.version l) →
  StronglySorted
    (λ a b, ContractVersion.version b < ContractVersion.version a) l.
Proof.
  induction 1 as [|a l Hl IH Hall]; simpl; intros Hnd; constructor.
  - apply IH. by apply NoDup_cons in Hnd as [_ ?].
  - apply NoDup_cons in Hnd as [Ha _].
    rewrite Forall_forall in Hall. apply Forall_forall. intros b Hb.
    specialize (Hall b Hb). unfold History.newerFirst in Hall.
    assert (ContractVersion.version b ≠ ContractVersion.version a);
      [|lia].
    intros Heq. apply Ha. rewrite <- Heq.
    apply list_elem_of_fmap. by exists b.
Qed.

Lemma findMany_elem d cid v :
  v ∈ History.findMany cid d
  ↔ v ∈ contractVersions d ∧ ContractVersion.contractId v = cid.
Proof.
  unfold History.findMany. rewrite merge_sort_Permutation.
  rewrite list_elem_of_filter. tauto.
Qed.

Lemma findMany_strict d cid :
  versionKey d →
  StronglySorted
    (λ a b, ContractVersion.version b < ContractVersion.version a)
    (History.findMany cid d).
Proof.
  intros Hkey. unfold History.findMany. apply newerFirst_strict.
  - apply StronglySorted_merge_sort; apply _.
  - rewrite merge_sort_Permutation. by apply versionKey_filter.
Qed.

(** Where the user may read the contract, the access query finds it. *)
Lemma findFirst_mayRead d (user : User.t) cid c :
  contractKey d →
  Prisma.contract_findUnique cid d = Some c →
  Prisma.contract_findFirst (ownedOrShared user cid d) d
  = if ownedOrShared user cid d c then Some c else None.
Proof. apply findFirst_ownedOrShared. Qed.

Lemma ownedOrShared_mayRead d (user : User.t) cid c :
  Prisma.contract_findUnique cid d = Some c →
  ownedOrShared user cid d c = true ↔ mayRead user c d.
Proof.
  intros Hc. destruct (find_hasId_id _ _ _ Hc) as [Hid _].
  rewrite (ownedOrShared_spec _ _ _ _ Hid). unfold mayRead, holdsGrant.
  by rewrite Hid.
Qed.

End Histories.

(** X6. The version history opens with the current version and runs
    strictly downwards: for a reader of the contract, in a database that
    keeps one snapshot per (contract, version) and every snapshot below the
    current version, the reply lists the current version first, then every
    snapshot of the contract and no other, with strictly falling version
    numbers.  A user who may not read the contract is answered 404. *)
Theorem history_newest_first (user : User.t) (cid : string)
    (c : Contract.t) (d : Db) :
  contractKey d →
  versionKey d →
  versionsBelow d →
  Prisma.contract_findUnique cid d = Some c →
  (¬ mayRead user c d →
   History.list user cid d = Refused 404 "Contract not found or access denied")
  ∧ (mayRead user c d →
     ∃ rest,
       History.list user cid d = Sent 200 (History.currentEntry c :: rest)
       ∧ StronglySorted newerEntry (History.currentEntry c :: rest)
       ∧ Forall (λ e, eIsCurrent e = false) rest
       ∧ map eVersion rest
         ≡ₚ map ContractVersion.version
              (filter (λ v, ContractVersion.contractId v = cid)
                 (contractVersions d))).
Proof.
  intros Hck Hvk Hinv Hc. unfold History.list.
  rewrite (findFirst_mayRead _ _ _ _ Hck Hc).
  pose proof (ownedOrShared_mayRead d user cid c Hc) as Hiff.
  split; intros Hread.
  - destruct (ownedOrShared user cid d c); [|done].
    exfalso. apply Hread. by apply Hiff.
  - apply Hiff in Hread as ->.
    eexists. split; [done|].
    destruct (find_hasId_id _ _ _ Hc) as [Hid Hcin].
    split; [|split].
    + constructor.
      * apply (StronglySorted_fmap History.pastEntry
                 (λ a b, ContractVersion.version b < ContractVersion.version a)
                 newerEntry); [by intros x y|].
        by apply findMany_strict.
      * apply Forall_forall. intros e He.
        apply list_elem_of_fmap in He as (v & -> & Hv).
        apply findMany_elem in Hv as [Hv Hvc].
        unfold newerEntry. simpl. apply (Hinv c v); congruence.
    + apply Forall_forall. intros e He.
      by apply list_elem_of_fmap in He as (v & -> & _).
    + rewrite map_map. simpl. unfold History.findMany.
      by rewrite merge_sort_Permutation.
Qed.

(** The theorem at the sample office: Carol, a VIEWER of the lease, reads
    its history 3, 2, 1; the table holds the snapshots in another order. *)
Lemma history_newest_first_witness :
  contractKey Demo.office ∧ versionKey Demo.office
  ∧ versionsBelow Demo.office
  ∧ mayRead Sample.carol Demo.lease Demo.office
  ∧ History.list Sample.carol "c7" Demo.office
    = Sent 200
        [mkVersionEntry "c7" 3 "Current version" "u1" true;
         mkVersionEntry "v72" 2 "typos" "u2" false;
         mkVersionEntry "v71" 1 "Version 1" "u1" false].
Proof.
  assert (Hck : contractKey Demo.office) by key_holds.
  assert (Hvk : versionKey Demo.office).
  { unfold versionKey. apply (bool_decide_unpack _). by vm_compute. }
  assert (Hinv : versionsBelow Demo.office).
  { intros c v Hc Hv. simpl in Hc, Hv.
    repeat (apply elem_of_cons in Hc as [->|Hc]);
      [| |by apply elem_of_nil in Hc];
      repeat (apply elem_of_cons in Hv as [->|Hv]);
      try (by apply elem_of_nil in Hv); simpl; intros; (lia || discriminate). }
  assert (Hread : mayRead Sample.carol Demo.lease Demo.office).
  { right. exists (Permission.mk "p9" "c7" "u3" VIEWER).
    split; [|done]. by do 2 apply list_elem_of_further; apply list_elem_of_here. }
  destruct (history_newest_first Sample.carol "c7" Demo.lease Demo.office
              Hck Hvk Hinv eq_refl) as [_ Hlist].
  destruct (Hlist Hread) as (rest & Hrun & _).
  split; [exact Hck|]. split; [exact Hvk|]. split; [exact Hinv|].
  split; [exact Hread|].
  rewrite Hrun. vm_compute in Hrun. by injection Hrun as <-.
Defined.

(** ** Reading back what the archival routes wrote *)

Section ReadBack.

Implicit Types (d : Db) (c : Contract.t) (v : ContractVersion.t).

(** The store after an upload that was answered 200. *)
Lemma upload_200_store e user cid note file (st st' : Store) body c :
  contractKey (db st) →
  Prisma.contract_findUnique cid (db st) = Some c →
  Versions.upload e user cid note file st = (Json 200 body, st') →
  ∃ f,
    file = Some f
    ∧ Prisma.contractVersion_findUnique (Contract.id c) (Contract.version c)
        (db st) = None
    ∧ db st'
      = mkDb (users (db st))
          (map (λ x, if Prisma.hasId cid x
                     then Contract.setUpload (Versions.newS3Key e cid c)
                            (Contract.version c + 1) (size f) x
                     else x)
               (contracts (db st)))
          (contractVersions (db st)
           ++ [Versions.archiveOf e user c
                 (Js.orElse note
                    ("Version " +:+ pretty (Contract.version c)))])
          (permissions (db st)).
Proof.
  intros Hkey Hfind Hup. unfold Versions.upload in Hup.
  destruct file as [f|]; [|discriminate].
  destruct (Prisma.contract_findFirst _ _) as [c0|] eqn:Hfirst;
    [|discriminate].
  assert (c0 = c) as ->.
  { apply find_some in Hfirst as [Hin Hp].
    apply andb_true_iff in Hp as [Hid _].
    apply bool_decide_eq_true in Hid. apply list_elem_of_In in Hin.
    eapply find_hasId_unique; eauto. }
  unfold Prisma.contractVersion_create in Hup. simpl in Hup.
  destruct (Prisma.contractVersion_findUnique (Contract.id c)
              (Contract.version c) (db st)) eqn:Hfresh;
    [simpl in Hup; discriminate Hup|].
  destruct (S3.uploadToS3 _ _ _ _ _); [|discriminate].
  rewrite (contract_update_found _ cid c) in Hup by done.
  injection Hup as _ <-. by exists f.
Qed.

(** The store after a restore that was answered 200. *)
Lemma restore_200_store e user cid V (st st' : Store) body c :
  contractKey (db st) →
  Prisma.contract_findUnique cid (db st) = Some c →
  Versions.restore e user cid V st = (Json 200 body, st') →
  ∃ target,
    Prisma.contractVersion_findUnique cid V (db st) = Some target
    ∧ Prisma.contractVersion_findUnique (Contract.id c) (Contract.version c)
        (db st) = None
    ∧ db st'
      = mkDb (users (db st))
          (map (λ x, if Prisma.hasId cid x
                     then Contract.setVersion (ContractVersion.s3Key target)
                            (Contract.version c + 1) x
                     else x)
               (contracts (db st)))
          (contractVersions (db st)
           ++ [Versions.archiveOf e user c
                 ("Before restoring to v" +:+ pretty V)])
          (permissions (db st)).
Proof.
  intros Hkey Hfind Hrun. unfold Versions.restore in Hrun.
  destruct (Prisma.contract_findFirst _ _) as [c0|] eqn:Hfirst;
    [|discriminate].
  assert (c0 = c) as ->.
  { apply find_some in Hfirst as [Hin Hp].
    apply andb_true_iff in Hp as [Hid _].
    apply bool_decide_eq_true in Hid. apply list_elem_of_In in Hin.
    eapply find_hasId_unique; eauto. }
  destruct (Prisma.contractVersion_findUnique cid V (db st))
    as [target|] eqn:Htarget; [|discriminate].
  unfold Prisma.contractVersion_create in Hrun. simpl in Hrun.
  destruct (Prisma.contractVersion_findUnique (Contract.id c)
              (Contract.version c) (db st)) eqn:Hfresh;
    [simpl in Hrun; discriminate Hrun|].
  rewrite (contract_update_found _ cid c) in Hrun by done.
  injection Hrun as _ <-. by exists target.
Qed.

(** What the download route answers once the contract [c] was moved one
    version up: [update] is the change of the contract row, [archive] the
    snapshot of the replaced state. *)
Lemma get_after_advance (reader : User.t) cid c d
    (update : Contract.t → Contract.t) (archive : ContractVersion.t) :
  contractKey d →
  Prisma.contract_findUnique cid d = Some c →
  mayRead reader c d →
  (∀ x, Contract.id (update x) = Contract.id x) →
  (∀ x, Contract.ownerId (update x) = Contract.ownerId x) →
  let d' :=
    mkDb (users d)
      (map (λ x, if Prisma.hasId cid x then update x else x) (contracts d))
      (contractVersions d ++ [archive]) (permissions d) in
  Prisma.contract_findFirst (ownedOrShared reader cid d') d'
  = Some (update c).
Proof.
  intros Hkey Hc Hread Hid Hown d'.
  assert (Hc' : Prisma.contract_findUnique cid d' = Some (update c)).
  { unfold Prisma.contract_findUnique in *. simpl.
    rewrite find_hasId_update by done. by rewrite Hc. }
  assert (Hkey' : contractKey d').
  { unfold contractKey in *. simpl. rewrite map_map.
    erewrite map_ext; [exact Hkey|].
    intros x. simpl. destruct (Prisma.hasId cid x); [apply Hid | done]. }
  rewrite (findFirst_ownedOrShared _ _ _ _ Hkey' Hc').
  assert (ownedOrShared reader cid d' (update c) = true) as ->; [|done].
  apply (ownedOrShared_mayRead _ _ _ _ Hc').
  destruct Hread as [Ho|Hg]; [left; by rewrite Hown|right].
  by rewrite Hid.
Qed.

End ReadBack.

(** X7. After an upload that was answered 200, every reader of the contract
    still downloads the replaced version N under its number, from the blob
    it had, and downloads version N + 1 from the uploaded blob. *)
Theorem replaced_version_stays_downloadable (e : Env) (user reader : User.t)
    (cid : string) (note : option string) (file : option File)
    (st st' : Store) (body : Body) (c : Contract.t) :
  contractKey (db st) →
  Prisma.contract_findUnique cid (db st) = Some c →
  mayRead reader c (db st) →
  Versions.upload e user cid note file st = (Json 200 body, st') →
  History.get reader cid (Contract.version c) (db st')
  = Sent 200
      (mkVersionUrl (getSignedUrl (Contract.s3Key c)) (Contract.version c)
         (Some (Js.orElse note ("Version " +:+ pretty (Contract.version c))))
         false)
  ∧ History.get reader cid (Contract.version c + 1) (db st')
    = Sent 200
        (mkVersionUrl (getSignedUrl (Versions.newS3Key e cid c))
           (Contract.version c + 1) None true).
Proof.
  intros Hkey Hc Hread Hup.
  destruct (upload_200_store _ _ _ _ _ _ _ _ _ Hkey Hc Hup)
    as (f & _ & Hfresh & ->).
  destruct (find_hasId_id _ _ _ Hc) as [Hid _].
  unfold History.get.
  rewrite (get_after_advance reader cid c (db st) _ _ Hkey Hc Hread)
    by done.
  simpl. split.
  - rewrite bool_decide_eq_false_2 by lia.
    unfold Prisma.contractVersion_findUnique in *. simpl.
    rewrite find_app_first. rewrite Hid in Hfresh. rewrite Hfresh. simpl.
    by rewrite Hid, !bool_decide_eq_true_2.
  - by rewrite bool_decide_eq_true_2.
Qed.

(** X8. After a restore of version V that was answered 200, every reader of
    the contract downloads the new current version N + 1 and version V
    from one and the same blob, and still downloads the version N that was
    current before from the blob it had. *)
Theorem restored_version_serves_target (e : Env) (user reader : User.t)
    (cid : string) (V : Z) (st st' : Store) (body : Body) (c : Contract.t) :
  contractKey (db st) →
  Prisma.contract_findUnique cid (db st) = Some c →
  mayRead reader c (db st) →
  Versions.restore e user cid V st = (Json 200 body, st') →
  ∃ target now_ then_ before,
    Prisma.contractVersion_findUnique cid V (db st) = Some target
    ∧ History.get reader cid (Contract.version c + 1) (db st')
      = Sent 200 now_
    ∧ History.get reader cid V (db st') = Sent 200 then_
    ∧ History.get reader cid (Contract.version c) (db st') = Sent 200 before
    ∧ vPdfUrl now_ = getSignedUrl (ContractVersion.s3Key target)
    ∧ vPdfUrl then_ = getSignedUrl (ContractVersion.s3Key target)
    ∧ vPdfUrl before = getSignedUrl (Contract.s3Key c)
    ∧ vIsCurrent now_ = true ∧ vIsCurrent before = false.
Proof.
  intros Hkey Hc Hread Hrun.
  destruct (restore_200_store _ _ _ _ _ _ _ _ Hkey Hc Hrun)
    as (target & Htarget & Hfresh & ->).
  destruct (find_hasId_id _ _ _ Hc) as [Hid _].
  exists target. unfold History.get.
  rewrite (get_after_advance reader cid c (db st) _ _ Hkey Hc Hread)
    by done.
  simpl. rewrite bool_decide_eq_true_2 by done.
  rewrite (bool_decide_eq_false_2 (Contract.version c = _)) by lia.
  unfold Prisma.contractVersion_findUnique in *. simpl.
  rewrite !find_app_first. rewrite Hid in Hfresh.
  rewrite Htarget, Hfresh. simpl.
  rewrite (bool_decide_eq_true_2 (Contract.id c = cid)) by done.
  rewrite (bool_decide_eq_true_2 (Contract.version c = Contract.version c))
    by done.
  simpl.
  case_bool_decide; do 3 eexists; repeat (split; [done|]); done.
Qed.

(** The theorem at the sample office: Bob uploads version 4 of the lease;
    Carol downloads version 3 from the old blob and version 4 from the new
    one. *)
Lemma replaced_version_stays_downloadable_witness :
  ∃ body st',
    Versions.upload Demo.later Sample.bob "c7" None (Some Sample.pdf)
      Demo.desk = (Json 200 body, st')
    ∧ History.get Sample.carol "c7" 3 (db st')
      = Sent 200
          (mkVersionUrl (mkSignedUrl "contracts/c7/v3-3000.pdf" 3600) 3
             (Some "Version 3") false)
    ∧ History.get Sample.carol "c7" 4 (db st')
      = Sent 200
          (mkVersionUrl (mkSignedUrl "contracts/c7/v4-5000.pdf" 3600) 4
             None true).
Proof.
  assert (Hck : contractKey (db Demo.desk)) by key_holds.
  assert (Hread : mayRead Sample.carol Demo.lease (db Demo.desk)).
  { right. exists (Permission.mk "p9" "c7" "u3" VIEWER).
    split; [|done]. by do 2 apply list_elem_of_further; apply list_elem_of_here. }
  destruct (Versions.upload Demo.later Sample.bob "c7" None (Some Sample.pdf)
              Demo.desk) as [r st'] eqn:Hrun.
  assert (∃ body, r = Json 200 body) as [body ->].
  { vm_compute in Hrun. injection Hrun as <- _. by eexists. }
  exists body, st'. split; [reflexivity|].
  exact (replaced_version_stays_downloadable Demo.later Sample.bob
           Sample.carol "c7" None (Some Sample.pdf) Demo.desk st' body
           Demo.lease Hck eq_refl Hread Hrun).
Defined.

(** The theorem at the sample office: Alice restores version 1 of the
    lease; version 4 and version 1 now open the same blob, version 3 the
    blob that was current. *)
Lemma restored_version_serves_target_witness :
  ∃ body st' now_ then_ before,
    Versions.restore Demo.later Sample.alice "c7" 1 Demo.desk
    = (Json 200 body, st')
    ∧ History.get Sample.carol "c7" 4 (db st') = Sent 200 now_
    ∧ History.get Sample.carol "c7" 1 (db st') = Sent 200 then_
    ∧ History.get Sample.carol "c7" 3 (db st') = Sent 200 before
    ∧ urlKey (vPdfUrl now_) = "contracts/1000-lease.pdf"
    ∧ urlKey (vPdfUrl then_) = "contracts/1000-lease.pdf"
    ∧ urlKey (vPdfUrl before) = "contracts/c7/v3-3000.pdf".
Proof.
  assert (Hck : contractKey (db Demo.desk)) by key_holds.
  assert (Hread : mayRead Sample.carol Demo.lease (db Demo.desk)).
  { right. exists (Permission.mk "p9" "c7" "u3" VIEWER).
    split; [|done]. by do 2 apply list_elem_of_further; apply list_elem_of_here. }
  destruct (Versions.restore Demo.later Sample.alice "c7" 1 Demo.desk)
    as [r st'] eqn:Hrun.
  assert (∃ body, r = Json 200 body) as [body ->].
  { vm_compute in Hrun. injection Hrun as <- _. by eexists. }
  destruct (restored_version_serves_target Demo.later Sample.alice
              Sample.carol "c7" 1 Demo.desk st' body Demo.lease Hck eq_refl
              Hread Hrun)
    as (target & now_ & then_ & before & Ht & H4 & H1 & H3 & Hn & Hth & Hb & _).
  injection Ht as <-.
  exists body, st', now_, then_, before.
  split; [reflexivity|]. split; [exact H4|]. split; [exact H1|].
  split; [exact H3|]. split; [by rewrite Hn|].
  split; [by rewrite Hth | by rewrite Hb].
Defined.

(** ** An upload that fails half way *)

Section HalfWay.

Implicit Types (d : Db) (c : Contract.t).

(** Where the snapshot of the current version is already in the table, no
    request archives it again. *)
Lemma stale_archive_blocks (st : Store) cid c stale :
  contractKey (db st) →
  Prisma.contract_findUnique cid (db st) = Some c →
  Prisma.contractVersion_findUnique (Contract.id c) (Contract.version c)
    (db st) = Some stale →
  (∀ e user note file,
     snd (Versions.upload e user cid note file st) = st
     ∧ statusOf (fst (Versions.upload e user cid note file st))
       ≠ Some 200%nat)
  ∧ (∀ e user V,
       snd (Versions.restore e user cid V st) = st
       ∧ statusOf (fst (Versions.restore e user cid V st)) ≠ Some 200%nat).
Proof.
  intros Hkey Hc Hstale. split.
  - intros e user note file. unfold Versions.upload.
    destruct file as [f|]; [|by split].
    destruct (Prisma.contract_findFirst _ _) as [c0|] eqn:Hfirst;
      [|by split].
    assert (c0 = c) as ->.
    { apply find_some in Hfirst as [Hin Hp].
      apply andb_true_iff in Hp as [Hid _].
      apply bool_decide_eq_true in Hid. apply list_elem_of_In in Hin.
      eapply find_hasId_unique; eauto. }
    unfold Prisma.contractVersion_create. simpl. rewrite Hstale. by split.
  - intros e user V. unfold Versions.restore.
    destruct (Prisma.contract_findFirst _ _) as [c0|] eqn:Hfirst;
      [|by split].
    assert (c0 = c) as ->.
    { apply find_some in Hfirst as [Hin Hp].
      apply andb_true_iff in Hp as [Hid _].
      apply bool_decide_eq_true in Hid. apply list_elem_of_In in Hin.
      eapply find_hasId_unique; eauto. }
    destruct (Prisma.contractVersion_findUnique cid V (db st)); [|by split].
    unfold Prisma.contractVersion_create. simpl. rewrite Hstale. by split.
Qed.

End HalfWay.

(** X9. An upload that fails at the object store is not undone.  When the
    owner or an editor uploads while the object store does not answer, the
    reply is 500, the contract stays at its version, but the snapshot of
    that version is already written; from then on every upload and every
    restore for the contract is refused and changes nothing, also when the
    object store answers again. *)
Theorem failed_upload_blocks_versions (e : Env) (user : User.t)
    (cid : string) (note : option string) (f : File) (st : Store)
    (c : Contract.t) :
  contractKey (db st) →
  versionsBelow (db st) →
  Prisma.contract_findUnique cid (db st) = Some c →
  Versions.ownerOrEditor user cid (db st) c = true →
  s3Up e = false →
  let st1 := snd (Versions.upload e user cid note (Some f) st) in
  fst (Versions.upload e user cid note (Some f) st)
  = Json 500 (BError "Failed to upload new version")
  ∧ Prisma.contract_findUnique cid (db st1) = Some c
  ∧ bucket st1 = bucket st
  ∧ (∀ e' user' note' file',
       snd (Versions.upload e' user' cid note' file' st1) = st1
       ∧ statusOf (fst (Versions.upload e' user' cid note' file' st1))
         ≠ Some 200%nat)
  ∧ (∀ e' user' V,
       snd (Versions.restore e' user' cid V st1) = st1
       ∧ statusOf (fst (Versions.restore e' user' cid V st1))
         ≠ Some 200%nat).
Proof.
  intros Hkey Hinv Hc Hmay Hdown st1.
  assert (Hrun : Versions.upload e user cid note (Some f) st
                 = (Json 500 (BError "Failed to upload new version"),
                    mkStore
                      (Prisma.withVersions
                         (contractVersions (db st)
                          ++ [Versions.archiveOf e user c
                                (Js.orElse note
                                   ("Version "
                                    +:+ pretty (Contract.version c)))])
                         (db st))
                      (bucket st))).
  { unfold Versions.upload.
    rewrite (findFirst_where _ cid c _ Hkey Hc); [|..|done]; cycle 1.
    { intros x Hx. apply andb_true_iff in Hx as [Hx _].
      by apply bool_decide_eq_true in Hx. }
    unfold Prisma.contractVersion_create. simpl.
    rewrite (archive_is_fresh _ _ _ Hinv Hc).
    unfold S3.uploadToS3. by rewrite Hdown. }
  subst st1. rewrite Hrun. simpl.
  split; [done|]. split; [done|]. split; [done|].
  destruct (find_hasId_id _ _ _ Hc) as [Hid _].
  apply (stale_archive_blocks _ cid c
           (Versions.archiveOf e user c
              (Js.orElse note ("Version " +:+ pretty (Contract.version c)))));
    [done..|].
  unfold Prisma.contractVersion_findUnique. simpl.
  rewrite find_app_first.
  pose proof (archive_is_fresh _ _ _ Hinv Hc) as Hfresh.
  unfold Prisma.contractVersion_findUnique in Hfresh. rewrite Hfresh.
  simpl. by rewrite !bool_decide_eq_true_2.
Qed.

(** The theorem at the sample office: Bob's upload meets an outage, and
    Alice's upload after the outage is refused with 500. *)
Lemma failed_upload_blocks_versions_witness :
  contractKey (db Demo.desk) ∧ versionsBelow (db Demo.desk)
  ∧ let st1 :=
      snd (Versions.upload Demo.outage Sample.bob "c7" None
             (Some Sample.pdf) Demo.desk) in
    fst (Versions.upload Demo.outage Sample.bob "c7" None (Some Sample.pdf)
           Demo.desk)
    = Json 500 (BError "Failed to upload new version")
    ∧ Versions.upload Demo.later Sample.alice "c7" None (Some Sample.pdf) st1
      = (Json 500 (BError "Failed to upload new version"), st1).
Proof.
  assert (Hck : contractKey (db Demo.desk)) by key_holds.
  assert (Hinv : versionsBelow (db Demo.desk)).
  { intros c v Hc Hv. simpl in Hc, Hv.
    repeat (apply elem_of_cons in Hc as [->|Hc]);
      [| |by apply elem_of_nil in Hc];
      repeat (apply elem_of_cons in Hv as [->|Hv]);
      try (by apply elem_of_nil in Hv); simpl; intros; (lia || discriminate). }
  destruct (failed_upload_blocks_versions Demo.outage Sample.bob "c7" None
              Sample.pdf Demo.desk Demo.lease Hck Hinv eq_refl eq_refl
              eq_refl) as (Hreply & _ & _ & Hup & _).
  split; [exact Hck|]. split; [exact Hinv|]. intros st1.
  split; [exact Hreply|].
  destruct (Hup Demo.later Sample.alice None (Some Sample.pdf)) as [Hsame _].
  fold st1 in Hsame. rewrite <- Hsame at 2.
  assert (Hr : fst (Versions.upload Demo.later Sample.alice "c7" None
                      (Some Sample.pdf) st1)
               = Json 500 (BError "Failed to upload new version"))
    by (by vm_compute).
  rewrite <- Hr. apply surjective_pairing.
Defined.

(** X10. Uploading a new version needs more than read access: a user who
    does not own the contract and whose grants on it are all VIEWER or
    COMMENTER is answered 403, and the store stays as it was. *)
Theorem upload_needs_editor (e : Env) (user : User.t) (cid : string)
    (note : option string) (f : File) (st : Store) (c : Contract.t) :
  contractKey (db st) →
  Prisma.contract_findUnique cid (db st) = Some c →
  Contract.ownerId c ≠ User.id user →
  (∀ p, p ∈ permissions (db st) →
        Permission.contractId p = Contract.id c →
        Permission.userId p = User.id user →
        Permission.role p = VIEWER ∨ Permission.role p = COMMENTER) →
  Versions.upload e user cid note (Some f) st
  = (Json 403 (BError "Permission denied. Must be owner or editor."), st).
Proof.
  intros Hkey Hc Hown Hroles. unfold Versions.upload.
  destruct (Prisma.contract_findFirst _ _) as [c0|] eqn:Hfirst; [|done].
  exfalso. apply find_some in Hfirst as [Hin Hp].
  apply andb_true_iff in Hp as [Hid Hp].
  apply bool_decide_eq_true in Hid. apply list_elem_of_In in Hin.
  assert (c0 = c) as -> by (eapply find_hasId_unique; eauto).
  apply orb_true_iff in Hp as [Ho|Hg].
  - by apply bool_decide_eq_true in Ho.
  - unfold Prisma.permissions_some in Hg.
    apply existsb_exists in Hg as (p & Hpin & Hp).
    apply andb_true_iff in Hp as [Hpc Hp].
    apply andb_true_iff in Hp as [Hpu Hpr].
    apply bool_decide_eq_true in Hpc, Hpu, Hpr.
    apply list_elem_of_In in Hpin.
    destruct (Hroles p Hpin Hpc Hpu) as [Hr|Hr]; rewrite Hr in Hpr;
      repeat (apply elem_of_cons in Hpr as [Hpr|Hpr]; [discriminate|]);
      by apply elem_of_nil in Hpr.
Qed.

(** The theorem at the sample office: Carol, VIEWER of the lease, may not
    upload. *)
Lemma upload_needs_editor_witness :
  contractKey (db Demo.desk)
  ∧ Versions.upload Demo.later Sample.carol "c7" None (Some Sample.pdf)
      Demo.desk
    = (Json 403 (BError "Permission denied. Must be owner or editor."),
       Demo.desk).
Proof.
  assert (Hck : contractKey (db Demo.desk)) by key_holds.
  split; [exact Hck|].
  apply (upload_needs_editor Demo.later Sample.carol "c7" None Sample.pdf
           Demo.desk Demo.lease Hck eq_refl); [discriminate|].
  intros p Hp Hc Hu. simpl in Hp.
  repeat (apply elem_of_cons in Hp as [->|Hp]); try discriminate;
    [by left | by apply elem_of_nil in Hp].
Defined.

(** ** Creating a contract *)

(** X11. A created contract belongs to its uploader.  With a file, a
    non-empty title, an id the database has not used and an object store
    that answers, the reply is 200 with a contract at version 1 owned by
    the uploader; the file is stored under the contract's key, the uploader
    reads the details at once, and any other user without a grant on the
    new id is answered 403.  When the object store does not answer, the
    reply is 500 and no row is written. *)
Theorem created_contract_belongs_to_uploader (e : Env) (user : User.t)
    (f : File) (originalname title : string) (st : Store) :
  title ≠ "" →
  Prisma.contract_findUnique (newId e) (db st) = None →
  (s3Up e = false →
   Catalog.post e user (Some (f, originalname)) (Some title) st
   = (Refused 500 "Failed to upload file", st))
  ∧ (s3Up e = true →
     ∃ c st',
       Catalog.post e user (Some (f, originalname)) (Some title) st
       = (Sent 200 c, st')
       ∧ Contract.id c = newId e
       ∧ Contract.title c = title
       ∧ Contract.ownerId c = User.id user
       ∧ Contract.version c = 1
       ∧ bucket st' !! Contract.s3Key c
         = Some (mkObject (buffer f) (mimetype f))
       ∧ answerStatus (Catalog.get user (newId e) (db st')) = Some 200%nat
       ∧ ∀ other,
           User.id other ≠ User.id user →
           ¬ holdsGrant (User.id other) (newId e) (db st) →
           Catalog.get other (newId e) (db st')
           = Refused 403 "Access denied").
Proof.
  intros Htitle Hfresh. unfold Catalog.post.
  rewrite bool_decide_eq_false_2 by done. unfold S3.uploadToS3.
  split; intros Hs3; rewrite Hs3; [done|].
  eexists _, _. split; [done|]. simpl.
  do 4 (split; [done|]). split; [by rewrite lookup_insert_eq|].
  set (c := Catalog.newContract e user title _ f).
  assert (Hc : ∀ st0,
            Prisma.contract_findUnique (newId e)
              (Prisma.withContracts (contracts (db st) ++ [c]) st0)
            = Some c).
  { intros st0. unfold Prisma.contract_findUnique in *. simpl.
    rewrite find_app_first, Hfresh. simpl. unfold Prisma.hasId. simpl.
    by rewrite bool_decide_eq_true_2. }
  split.
  - destruct (contract_details_access_aux user (newId e) _ c (Hc (db st)))
      as [Hyes _].
    destruct Hyes as (details & -> & _); [by left | done].
  - intros other Hother Hnone.
    apply (contract_details_access_aux other (newId e) _ c (Hc (db st))).
    intros [Ho|Hg]; [simpl in Ho; congruence|]. by apply Hnone.
Qed.

(** The theorem at the sample store: Carol uploads a contract, reads it,
    and Bob is refused. *)
Lemma created_contract_belongs_to_uploader_witness :
  ∃ c st',
    Catalog.post (mkEnv 1800 "c9" true) Sample.carol
      (Some (Sample.pdf, "offer.pdf")) (Some "Offer") (Sample.store VIEWER)
    = (Sent 200 c, st')
    ∧ Contract.s3Key c = "contracts/1800-offer.pdf"
    ∧ Contract.ownerId c = "u3"
    ∧ answerStatus (Catalog.get Sample.carol "c9" (db st')) = Some 200%nat
    ∧ Catalog.get Sample.bob "c9" (db st') = Refused 403 "Access denied".
Proof.
  destruct (created_contract_belongs_to_uploader (mkEnv 1800 "c9" true)
              Sample.carol Sample.pdf "offer.pdf" "Offer"
              (Sample.store VIEWER) ltac:(discriminate) eq_refl)
    as [_ Hup].
  destruct (Hup eq_refl)
    as (c & st' & Hrun & _ & _ & Hown & _ & _ & Hget & Hothers).
  exists c, st'. split; [exact Hrun|].
  split; [vm_compute in Hrun; by injection Hrun as <- _|].
  split; [exact Hown|]. split; [exact Hget|].
  apply Hothers; [discriminate|].
  intros (p & Hp & Hc & _). simpl in Hp.
  apply list_elem_of_singleton in Hp as ->. discriminate.
Defined.

(** X12. The two routes that set a title do not agree on what a title is:
    a title of white space only is refused by the rename route with 400,
    while the create route takes it as it is. *)
Theorem blank_title_created_not_renamed (e : Env) (user : User.t)
    (f : File) (originalname title : string) (cid : string) (st : Store) :
  title ≠ "" →
  Js.trim title = "" →
  s3Up e = true →
  Contracts.patch user cid (Js.JStr title) st
  = (Json 400 (BError "Title is required"), st)
  ∧ ∃ c st',
      Catalog.post e user (Some (f, originalname)) (Some title) st
      = (Sent 200 c, st')
      ∧ Contract.title c = title.
Proof.
  intros Hne Hblank Hs3. split.
  - unfold Contracts.patch, Contracts.titleMissing. simpl.
    rewrite Hblank. simpl. by rewrite orb_true_r.
  - unfold Catalog.post, S3.uploadToS3.
    rewrite bool_decide_eq_false_2, Hs3 by done. by eexists _, _.
Qed.

(** The theorem for a title of two spaces. *)
Lemma blank_title_created_not_renamed_witness :
  Js.trim "  " = ""
  ∧ Contracts.patch Sample.alice "c1" (Js.JStr "  ") (Sample.store VIEWER)
    = (Json 400 (BError "Title is required"), Sample.store VIEWER)
  ∧ ∃ c st',
      Catalog.post Sample.env Sample.alice (Some (Sample.pdf, "a.pdf"))
        (Some "  ") (Sample.store VIEWER) = (Sent 200 c, st')
      ∧ Contract.title c = "  ".
Proof.
  split; [reflexivity|].
  exact (blank_title_created_not_renamed Sample.env Sample.alice Sample.pdf
           "a.pdf" "  " "c1" (Sample.store VIEWER) ltac:(discriminate)
           eq_refl eq_refl).
Defined.

(** ** Accounts *)

Section Accounts.

Implicit Types (d : Db) (u : User.t).

Lemma user_findByEmail_elem d m u :
  Prisma.user_findByEmail m d = Some u → User.email u = m ∧ u ∈ users d.
Proof.
  unfold Prisma.user_findByEmail. intros H.
  apply find_some in H as [Hin Hm]. apply bool_decide_eq_true in Hm.
  split; [done|]. by apply list_elem_of_In.
Qed.

Lemma user_findByEmail_none d m :
  Prisma.user_findByEmail m d = None → m ∉ map User.email (users d).
Proof.
  unfold Prisma.user_findByEmail. intros H Hin.
  apply list_elem_of_fmap in Hin as (u & -> & Hu).
  apply list_elem_of_In in Hu.
  pose proof (find_none _ _ H _ Hu) as Hno. simpl in Hno.
  by rewrite bool_decide_eq_true_2 in Hno.
Qed.

(** Under the primary key, a stored user is the one found by its id. *)
Lemma user_findUnique_self d u :
  userKey d → u ∈ users d → Prisma.user_findUnique (User.id u) d = Some u.
Proof.
  unfold userKey, Prisma.user_findUnique.
  induction (users d) as [|x l IH]; simpl; intros Hnd Hin.
  - by apply elem_of_nil in Hin.
  - apply NoDup_cons in Hnd as [Hx Hnd].
    case_bool_decide as Hid.
    + apply elem_of_cons in Hin as [->|Hin]; [done|].
      exfalso. apply Hx. rewrite Hid. by apply list_elem_of_fmap_2.
    + apply elem_of_cons in Hin as [->|Hin]; [done|]. by apply IH.
Qed.

(** The outcome of a registration, case by case. *)
Lemma register_cases isEmail hash e r body d :
  let run := Auth.register isEmail hash e r body d in
  (snd run = d ∧ statusOf (fst run) = Some 400%nat)
  ∨ ∃ m p n,
      Auth.parseRegister isEmail body = Some (m, p, n)
      ∧ Prisma.user_findByEmail m d = None
      ∧ run
        = (Json 200
             (BAuth (Jwt.sign (newId e) (now e))
                (mkAuthUser (newId e) m n (Auth.randomColor r))),
           Prisma.withUsers
             (users d
              ++ [User.mk (newId e) m (hash (salt r) p) n
                    (Auth.randomColor r)]) d).
Proof.
  unfold Auth.register, Auth.user_create. simpl.
  destruct (Auth.parseRegister isEmail body) as [[[m p] n]|]; [|by left].
  simpl. destruct (Prisma.user_findByEmail m d) eqn:Hm; [by left|].
  right. by exists m, p, n.
Qed.

End Accounts.

(** X13. Whoever registers can log in.  For a bcrypt whose [compare]
    accepts every password against the hashes made from it, a login with
    the e-mail and password of a registration that was answered 200 is
    answered 200 with the same user object and a token for the same
    user. *)
Theorem register_then_login (isEmail : string → bool)
    (hash : string → string → string) (compare : string → string → bool)
    (e e' : Env) (r : Dice) (body : RegisterBody) (d d' : Db)
    (token : Jwt.token) (user : AuthUser) :
  (∀ s p, compare p (hash s p) = true) →
  Auth.register isEmail hash e r body d = (Json 200 (BAuth token user), d') →
  Auth.login isEmail compare e'
    (mkLoginBody (regEmail body) (regPassword body)) d'
  = Json 200 (BAuth (Jwt.sign (authId user) (now e')) user).
Proof.
  intros Hsound Hreg.
  destruct (register_cases isEmail hash e r body d)
    as [[_ Hst]|(m & p & n & Hparse & Hfresh & Hrun)].
  { rewrite Hreg in Hst. discriminate. }
  rewrite Hreg in Hrun. injection Hrun as -> -> ->.
  unfold Auth.parseRegister in Hparse.
  destruct (regEmail body) as [| | | |m'|] eqn:Hm; try discriminate.
  destruct (regPassword body) as [| | | |p'|] eqn:Hp; try discriminate.
  destruct (regName body) as [| | | |n'|]; try discriminate.
  destruct (isEmail m') eqn:Hmail; [|discriminate].
  simpl in Hparse.
  destruct (bool_decide (6 ≤ String.length p')%nat
            && bool_decide (2 ≤ String.length n')%nat); [|discriminate].
  injection Hparse as -> -> ->.
  unfold Auth.login, Auth.parseLogin. simpl. rewrite Hmail.
  unfold Prisma.user_findByEmail in *. simpl.
  rewrite find_app_first, Hfresh. simpl.
  rewrite bool_decide_eq_true_2 by done. simpl. by rewrite Hsound.
Qed.

(** The theorem for the toy bcrypt with salt "s1": Erin registers and logs
    in. *)
Lemma register_then_login_witness :
  (∀ p, Sample.toyCompare p (Sample.toyHash "s1" p) = true)
  ∧ ∃ token user d',
      Auth.register Sample.anyEmail (λ _, Sample.toyHash "s1") Sample.env
        (mkDice "s1" 255)
        (mkRegisterBody (Js.JStr "erin@example.com") (Js.JStr "hunter22")
           (Js.JStr "Erin")) Sample.members
      = (Json 200 (BAuth token user), d')
      ∧ authColor user = "#ff"
      ∧ Auth.login Sample.anyEmail Sample.toyCompare Sample.env
          (mkLoginBody (Js.JStr "erin@example.com") (Js.JStr "hunter22")) d'
        = Json 200 (BAuth (Jwt.sign "id9" 1800) user).
Proof.
  assert (Hsound : ∀ s p : string,
            Sample.toyCompare p ((λ _, Sample.toyHash "s1") s p) = true).
  { intros s p. unfold Sample.toyCompare, Sample.toyHash.
    by rewrite bool_decide_eq_true_2. }
  split; [exact (Hsound "")|].
  destruct (Auth.register Sample.anyEmail (λ _, Sample.toyHash "s1")
              Sample.env (mkDice "s1" 255)
              (mkRegisterBody (Js.JStr "erin@example.com")
                 (Js.JStr "hunter22") (Js.JStr "Erin")) Sample.members)
    as [reply d'] eqn:Hrun.
  assert (Hreply : reply
            = Json 200
                (BAuth (Jwt.sign "id9" 1800)
                   (mkAuthUser "id9" "erin@example.com" "Erin" "#ff"))).
  { vm_compute in Hrun. by injection Hrun as <- _. }
  subst reply. eexists _, _, d'. split; [reflexivity|].
  split; [reflexivity|].
  exact (register_then_login Sample.anyEmail (λ _, Sample.toyHash "s1")
           Sample.toyCompare Sample.env Sample.env (mkDice "s1" 255) _
           Sample.members d' _ _ Hsound Hrun).
Defined.

(** X14. Registration keeps e-mail addresses unique and writes nothing
    unless it succeeds: the table has no two users with one address after
    a registration if it had none before; an address that is taken is
    answered 400 "User already exists"; and every reply other than 200
    leaves the database as it was. *)
Theorem registration_keeps_emails_unique (isEmail : string → bool)
    (hash : string → string → string) (e : Env) (r : Dice)
    (body : RegisterBody) (d : Db) :
  emailKey d →
  let run := Auth.register isEmail hash e r body d in
  emailKey (snd run)
  ∧ (statusOf (fst run) ≠ Some 200%nat → snd run = d)
  ∧ ∀ m p n u,
      Auth.parseRegister isEmail body = Some (m, p, n) →
      Prisma.user_findByEmail m d = Some u →
      run = (Json 400 (BError "User already exists"), d).
Proof.
  intros Hkey run. subst run. split; [|split].
  - destruct (register_cases isEmail hash e r body d)
      as [[-> _]|(m & p & n & _ & Hfresh & ->)]; [done|].
    unfold emailKey in *. simpl. rewrite map_app. simpl.
    apply NoDup_app. split; [done|]. split; [|apply NoDup_singleton].
    intros x Hx Hx'. apply list_elem_of_singleton in Hx' as ->.
    by apply user_findByEmail_none in Hfresh.
  - intros Hst.
    destruct (register_cases isEmail hash e r body d)
      as [[-> _]|(m & p & n & _ & _ & Hrun)]; [done|].
    rewrite Hrun in Hst. by simpl in Hst.
  - intros m p n u Hparse Htaken. unfold Auth.register.
    by rewrite Hparse, Htaken.
Qed.

(** The theorem at the sample members: Dana's address is taken. *)
Lemma registration_keeps_emails_unique_witness :
  emailKey Sample.members
  ∧ Auth.register Sample.anyEmail Sample.toyHash Sample.env (mkDice "s2" 1)
      (mkRegisterBody (Js.JStr "dana@example.com") (Js.JStr "another1")
         (Js.JStr "Dana B")) Sample.members
    = (Json 400 (BError "User already exists"), Sample.members).
Proof.
  assert (Hkey : emailKey Sample.members).
  { unfold emailKey. apply (bool_decide_unpack _). by vm_compute. }
  destruct (registration_keeps_emails_unique Sample.anyEmail Sample.toyHash
              Sample.env (mkDice "s2" 1)
              (mkRegisterBody (Js.JStr "dana@example.com")
                 (Js.JStr "another1") (Js.JStr "Dana B")) Sample.members
              Hkey) as (_ & _ & Htaken).
  split; [exact Hkey|].
  exact (Htaken "dana@example.com" "another1" "Dana B" Sample.dana eq_refl
           eq_refl).
Defined.

(** X15. The token of a login opens [/me] for seven days.  For a user table
    with unique ids, the token of a login answered 200 at time [now e],
    presented at time [t], yields the stored user without its password
    hash as long as fewer than seven days' worth of seconds have passed,
    and 401 "Invalid token" from then on. *)
Theorem login_token_opens_me (isEmail : string → bool)
    (compare : string → string → bool) (e : Env) (body : LoginBody)
    (d : Db) (token : Jwt.token) (user : AuthUser) (t : Z) :
  userKey d →
  Auth.login isEmail compare e body d = Json 200 (BAuth token user) →
  ∃ u,
    u ∈ users d
    ∧ User.id u = authId user
    ∧ (t / 1000 < now e / 1000 + tokenLife →
       Auth.getMe (Some token) t d
       = Json 200 (BObject (delete "passwordHash" (Auth.toObject u))))
    ∧ (now e / 1000 + tokenLife ≤ t / 1000 →
       Auth.getMe (Some token) t d = Json 401 (BError "Invalid token")).
Proof.
  intros Hkey Hlogin. unfold Auth.login in Hlogin.
  destruct (Auth.parseLogin isEmail body) as [[m p]|]; [|discriminate].
  destruct (Prisma.user_findByEmail m d) as [u|] eqn:Hu; [|discriminate].
  destruct (negb _); [discriminate|].
  injection Hlogin as <- <-.
  destruct (user_findByEmail_elem _ _ _ Hu) as [_ Hin].
  exists u. split; [done|]. split; [done|].
  unfold Auth.getMe, Auth.authenticate, Jwt.sign, Jwt.verify, tokenLife.
  split; intros Ht.
  - rewrite bool_decide_eq_false_2 by lia.
    by rewrite (user_findUnique_self _ _ Hkey Hin).
  - by rewrite bool_decide_eq_true_2 by lia.
Qed.

(** The theorem at the sample members: Dana's token of time 1800 works a
    day later and is refused after eight days. *)
Lemma login_token_opens_me_witness :
  userKey Sample.members
  ∧ ∃ token user,
      Auth.login Sample.anyEmail Sample.toyCompare Sample.env
        Sample.danaLogin Sample.members = Json 200 (BAuth token user)
      ∧ Auth.getMe (Some token) 86400000 Sample.members
        = Json 200
            (BObject (delete "passwordHash" (Auth.toObject Sample.dana)))
      ∧ Auth.getMe (Some token) 691200000 Sample.members
        = Json 401 (BError "Invalid token").
Proof.
  assert (Hkey : userKey Sample.members).
  { unfold userKey. apply (bool_decide_unpack _). by vm_compute. }
  split; [exact Hkey|].
  destruct (Auth.login Sample.anyEmail Sample.toyCompare Sample.env
              Sample.danaLogin Sample.members) as [n b|] eqn:Hrun;
    [|by vm_compute in Hrun].
  assert (n = 200%nat
          ∧ b = BAuth (Jwt.sign "u4" 1800)
                  (mkAuthUser "u4" "dana@example.com" "Dana" "#123456"))
    as [-> ->].
  { vm_compute in Hrun. by injection Hrun as <- <-. }
  destruct (login_token_opens_me Sample.anyEmail Sample.toyCompare
              Sample.env Sample.danaLogin Sample.members _ _ 86400000 Hkey
              Hrun) as (u & Hin & Hid & Hfresh & _).
  destruct (login_token_opens_me Sample.anyEmail Sample.toyCompare
              Sample.env Sample.danaLogin Sample.members _ _ 691200000 Hkey
              Hrun) as (_ & _ & _ & _ & Hlate).
  assert (u = Sample.dana) as ->.
  { simpl in Hin. repeat (apply elem_of_cons in Hin as [->|Hin]);
      [discriminate | done | by apply elem_of_nil in Hin]. }
  eexists _, _. split; [reflexivity|].
  split; [apply Hfresh | apply Hlate]; by vm_compute.
Defined.

(** ** The socket server, event by event *)

Section Relay.

Implicit Types (w : World) (l : Listener) (sid : nat).

Lemma fold_keeps {A} (F : World → A) (g : World → Listener → World)
    (ls : list Listener) :
  (∀ w l, F (g w l) = F w) → ∀ w, F (foldl g w ls) = F w.
Proof.
  intros Hg. induction ls as [|l ls IH]; intros w; simpl; [done|].
  by rewrite IH, Hg.
Qed.

(** A fold of relaying steps appends to the outbox only what each step
    may append, as long as the steps keep [I]. *)
Lemma fold_outbox (I : World → Prop) (P : nat * Message → Prop)
    (g : World → Listener → World) (ls : list Listener) :
  (∀ w l, I w →
          I (g w l)
          ∧ ∃ extra, outbox (g w l) = outbox w ++ extra ∧ Forall P extra) →
  ∀ w, I w →
       ∃ extra, outbox (foldl g w ls) = outbox w ++ extra ∧ Forall P extra.
Proof.
  intros Hg. induction ls as [|l ls IH]; intros w Hw; simpl.
  - exists []. by rewrite app_nil_r.
  - destruct (Hg w l Hw) as (Hw' & x1 & H1 & HP1).
    destruct (IH (g w l) Hw') as (x2 & H2 & HP2).
    exists (x1 ++ x2). rewrite H2, H1, app_assoc. split; [done|].
    by apply Forall_app.
Qed.

Lemma broadcast_outbox sid r m w :
  ∃ extra,
    outbox (SocketServer.broadcast sid r m w) = outbox w ++ extra
    ∧ Forall (λ x, fst x ≠ sid ∧ snd x = m ∧ fst x ∈ members r w) extra.
Proof.
  unfold SocketServer.broadcast. simpl. eexists. split; [done|].
  apply Forall_forall. intros [to m'] Hin.
  apply list_elem_of_fmap in Hin as (x & [= -> ->] & Hx).
  apply elem_of_elements, elem_of_difference in Hx as [Hx Hsid].
  rewrite elem_of_singleton in Hsid. done.
Qed.

Lemma onUpdate_rooms sid update w l :
  rooms (SocketServer.merge sid update w l) = rooms w.
Proof.
  unfold SocketServer.merge. by destruct (heap w !! lDoc l).
Qed.

Lemma onUpdate_sockets sid update w l :
  sockets (SocketServer.merge sid update w l) = sockets w.
Proof.
  unfold SocketServer.merge. by destruct (heap w !! lDoc l).
Qed.

Lemma onUpdate_docs sid update w l :
  docs (SocketServer.merge sid update w l) = docs w.
Proof.
  unfold SocketServer.merge. by destruct (heap w !! lDoc l).
Qed.

Lemma onUpdate_outbox sid update w l :
  ∃ extra,
    outbox (SocketServer.merge sid update w l) = outbox w ++ extra
    ∧ Forall (λ x, fst x ≠ sid ∧ snd x = UpdateMsg update
                   ∧ ∃ r, fst x ∈ members r w) extra.
Proof.
  unfold SocketServer.merge. destruct (heap w !! lDoc l) as [doc|].
  - unfold Y.applyUpdate.
    destruct (broadcast_outbox sid (SocketServer.room (lContract l))
                (UpdateMsg update)
                (mkWorld (wDb w) (docs w)
                   (<[lDoc l := Y.mkDoc (Y.items doc ∪ update)
                                  (Y.observers doc)]> (heap w))
                   (redis w)
                   (inflight w
                    ++ (if bool_decide (¬ update ⊆ Y.items doc)
                        then map (Yjs.autoSave
                                    (Y.mkDoc (Y.items doc ∪ update)
                                       (Y.observers doc)))
                               (Y.observers doc)
                        else []))
                   (sockets w) (rooms w) (outbox w)))
      as (extra & Hout & Hall).
    exists extra. split; [exact Hout|].
    eapply Forall_impl; [exact Hall|]. intros x (? & ? & ?). eauto.
  - exists []. by rewrite app_nil_r.
Qed.

End Relay.

(** X16. An update is relayed as it came, and never back to its sender.
    When the argument of an ['update'] event decodes, every message the
    server emits in response carries exactly that update and goes to
    another socket that is a member of some room; rooms, sockets and the
    map of live documents are left as they were.  When it does not decode
    and the socket has joined a contract, the first listener throws: the
    process ends and nothing is relayed.  A socket that has not joined has
    no listener, and what it sends is dropped. *)
Theorem update_is_relayed_to_others (w : World) (sid : nat) (arg : Y.Wire) :
  let w' := SocketServer.step w (Update sid arg) in
  (∀ update,
     arg = Y.Encoded update →
     rooms w' = rooms w ∧ sockets w' = sockets w ∧ docs w' = docs w
     ∧ ∃ extra,
         outbox w' = outbox w ++ extra
         ∧ Forall (λ x, fst x ≠ sid ∧ snd x = UpdateMsg update
                        ∧ ∃ r, fst x ∈ members r w) extra)
  ∧ (∀ raw sock,
       arg = Y.Malformed raw →
       sockets w !! sid = Some sock →
       sListeners sock ≠ [] →
       w' = SocketServer.crash w
       ∧ outbox w' = outbox w ∧ heap w' = [] ∧ sockets w' = ∅)
  ∧ (∀ sock,
       sockets w !! sid = Some sock → sListeners sock = [] → w' = w).
Proof.
  simpl. split; [|split].
  - intros update ->. destruct (sockets w !! sid) as [sock|].
    + rewrite dispatch_encoded.
      split; [apply (fold_keeps rooms), onUpdate_rooms|].
      split; [apply (fold_keeps sockets), onUpdate_sockets|].
      split; [apply (fold_keeps docs), onUpdate_docs|].
      apply (fold_outbox (λ w0, rooms w0 = rooms w)); [|done].
      intros w0 l Hw0. split; [by rewrite onUpdate_rooms|].
      destruct (onUpdate_outbox sid update w0 l) as (extra & Hout & Hall).
      exists extra. split; [exact Hout|].
      eapply Forall_impl; [exact Hall|].
      intros x (? & ? & r & Hr). unfold members in *. rewrite Hw0 in Hr.
      eauto.
    + do 3 (split; [done|]). exists []. by rewrite app_nil_r.
  - intros raw sock -> -> Hls. by destruct (sListeners sock).
  - intros sock -> ->. by destruct arg.
Qed.

(** The theorem at the sample world, once Alice and Bob are in the room:
    what Bob sends goes to Alice alone, and text that is no update ends
    the process. *)
Lemma update_is_relayed_to_others_witness :
  let w :=
    SocketServer.run (Sample.world VIEWER)
      [Sample.hello 1 Sample.alice; Sample.hello 2 Sample.bob;
       JoinContract 1 "c1"; RedisReply; JoinContract 2 "c1"] in
  sockets w !! 2%nat = Some (mkSocket Sample.bob [mkListener "c1" 0])
  ∧ outbox (SocketServer.step w (Update 2 (Y.Encoded {[7%nat]})))
    = outbox w ++ [(1%nat, UpdateMsg {[7%nat]})]
  ∧ SocketServer.step w (Update 2 (Y.Malformed "hello"))
    = SocketServer.crash w
  ∧ heap (SocketServer.step w (Update 2 (Y.Malformed "hello"))) = [].
Proof.
  intros w.
  assert (Hsock : sockets w !! 2%nat
                  = Some (mkSocket Sample.bob [mkListener "c1" 0]))
    by (by vm_compute).
  destruct (update_is_relayed_to_others w 2 (Y.Malformed "hello"))
    as (_ & Hbad & _).
  destruct (Hbad "hello" _ eq_refl Hsock ltac:(discriminate))
    as (Hcrash & _ & Hheap & _).
  split; [exact Hsock|]. split; [by vm_compute|].
  split; [exact Hcrash | exact Hheap].
Defined.

(** X17. Presence is relayed and nothing else: a ['cursor'] event changes
    neither the live documents nor Redis nor the commands in flight nor
    rooms or sockets; every message it causes goes to another socket and
    carries the sender's id, name and colour with the position as sent. *)
Theorem presence_is_only_relayed (w : World) (sid : nat) (position : string) :
  let w' := SocketServer.step w (Cursor sid position) in
  docs w' = docs w ∧ heap w' = heap w ∧ redis w' = redis w
  ∧ inflight w' = inflight w ∧ sockets w' = sockets w ∧ rooms w' = rooms w
  ∧ ∃ extra,
      outbox w' = outbox w ++ extra
      ∧ Forall
          (λ x, fst x ≠ sid
                ∧ ∃ sock,
                    sockets w !! sid = Some sock
                    ∧ snd x
                      = CursorMsg (User.id (sUser sock))
                          (User.name (sUser sock)) (User.color (sUser sock))
                          position)
          extra.
Proof.
  simpl. destruct (sockets w !! sid) as [sock|] eqn:Hsock.
  - do 6 (split; [by apply fold_keeps|]).
    apply (fold_outbox (λ _, True)); [|done].
    intros w0 l _. split; [done|]. unfold SocketServer.onCursor.
    destruct (broadcast_outbox sid (SocketServer.room (lContract l))
                (CursorMsg (User.id (sUser sock)) (User.name (sUser sock))
                   (User.color (sUser sock)) position) w0)
      as (extra & Hout & Hall).
    exists extra. split; [exact Hout|].
    eapply Forall_impl; [exact Hall|]. intros x (? & ? & _). eauto.
  - do 6 (split; [done|]). exists []. by rewrite app_nil_r.
Qed.

(** ** Live documents *)

Section Growth.

Implicit Types (w : World) (h : list Y.Doc).

Lemma grows_refl h : grows h h.
Proof. intros a doc Ha. by exists doc. Qed.

Lemma grows_trans h1 h2 h3 : grows h1 h2 → grows h2 h3 → grows h1 h3.
Proof.
  intros H12 H23 a doc Ha.
  destruct (H12 a doc Ha) as (doc2 & Ha2 & Hsub2).
  destruct (H23 a doc2 Ha2) as (doc3 & Ha3 & Hsub3).
  exists doc3. split; [done|]. by transitivity (Y.items doc2).
Qed.

Lemma grows_app h k : grows h (h ++ k).
Proof.
  intros a doc Ha. exists doc. split; [|done]. by apply lookup_app_l_Some.
Qed.

(** Replacing a document by one with more items. *)
Lemma grows_insert h a doc doc' :
  h !! a = Some doc → Y.items doc ⊆ Y.items doc' →
  grows h (<[a := doc']> h).
Proof.
  intros Ha Hsub b docb Hb. destruct (decide (a = b)) as [<-|Hab].
  - exists doc'. rewrite list_lookup_insert_eq by (by eapply lookup_lt_Some).
    split; [done|]. by assert (docb = doc) as -> by congruence.
  - exists docb. by rewrite list_lookup_insert_ne.
Qed.

Lemma joined_heap sid cid a w :
  heap (SocketServer.joined sid cid a w) = heap w.
Proof.
  unfold SocketServer.joined.
  destruct (sockets w !! sid); [|done]. by destruct (heap w !! a).
Qed.

Lemma onUpdate_grows sid update w l :
  grows (heap w) (heap (SocketServer.merge sid update w l)).
Proof.
  unfold SocketServer.merge.
  destruct (heap w !! lDoc l) as [doc|] eqn:Hdoc; [|apply grows_refl].
  simpl. eapply grows_insert; [done|]. simpl. apply union_subseteq_l.
Qed.

Lemma fold_onUpdate_grows sid update (ls : list Listener) w :
  grows (heap w) (heap (foldl (SocketServer.merge sid update) w ls)).
Proof.
  revert w. induction ls as [|l ls IH]; intros w; simpl; [apply grows_refl|].
  eapply grows_trans; [apply onUpdate_grows | apply IH].
Qed.

End Growth.

(** ** Connecting and joining *)

Section Joining.

Implicit Types (w : World).

Lemma alter_last {A} (f : A → A) (l : list A) (x : A) :
  alter f (length l) (l ++ [x]) = l ++ [f x].
Proof.
  rewrite <- (Nat.add_0_r (length l)). by rewrite alter_app_r.
Qed.

Lemma run_cons w e es :
  SocketServer.run w (e :: es)
  = SocketServer.run (SocketServer.step w e) es.
Proof. done. Qed.

End Joining.

(** X19. Nothing is reachable without a handshake.  When the token is
    missing, does not verify or names no stored user, the connection is
    refused: the socket is not registered and the world is as before but
    for one error message to that socket.  And whatever a socket that is
    not registered sends afterwards (join, update, cursor) changes
    nothing. *)
Theorem unauthenticated_socket_reaches_nothing (w : World) (sid : nat)
    (token : option Jwt.token) (t : Z) (es : list Event) :
  sockets w !! sid = None →
  handshakeUser token t (wDb w) = None →
  Forall (sentBy sid) es →
  ∃ reason,
    SocketServer.run w (Connect sid token t :: es)
    = SocketServer.emit sid (ConnectError reason) w.
Proof.
  intros Hnew Hfail Hes.
  assert (Hconn : ∃ reason,
            SocketServer.step w (Connect sid token t)
            = SocketServer.emit sid (ConnectError reason) w).
  { simpl. unfold SocketServer.connect, handshakeUser in *.
    destruct token as [tok|]; [|by eexists].
    destruct (Jwt.empty tok); [by eexists|].
    destruct (Jwt.verify tok t); [|by eexists].
    rewrite Hfail. by eexists. }
  destruct Hconn as [reason Hconn]. exists reason.
  rewrite run_cons, Hconn.
  assert (Hstill : sockets (SocketServer.emit sid (ConnectError reason) w)
                   !! sid = None) by done.
  revert Hstill. generalize (SocketServer.emit sid (ConnectError reason) w).
  induction Hes as [|e es He _ IH]; intros w0 Hw0; [done|].
  rewrite run_cons.
  assert (SocketServer.step w0 e = w0) as ->; [|by apply IH].
  destruct e; simpl in He; try done; subst; simpl;
    unfold SocketServer.joinContract; by rewrite Hw0.
Qed.

(** The theorem at the sample world: a socket with a forged token joins and
    sends an update; only the refusal is left of it. *)
Lemma unauthenticated_socket_reaches_nothing_witness :
  handshakeUser (Some (Jwt.Garbage "forged")) 5 (wDb (Sample.world VIEWER))
  = None
  ∧ SocketServer.run (Sample.world VIEWER)
      [Connect 9 (Some (Jwt.Garbage "forged")) 5; JoinContract 9 "c1";
       Update 9 (Y.Encoded {[7%nat]}); Cursor 9 "p1"]
    = SocketServer.emit 9 (ConnectError "Invalid token")
        (Sample.world VIEWER).
Proof.
  split; [reflexivity|].
  destruct (unauthenticated_socket_reaches_nothing (Sample.world VIEWER) 9
              (Some (Jwt.Garbage "forged")) 5
              [JoinContract 9 "c1"; Update 9 (Y.Encoded {[7%nat]});
               Cursor 9 "p1"]
              eq_refl eq_refl) as [reason Hrun].
  { repeat constructor. }
  rewrite Hrun. f_equal.
  assert (Hout : outbox (SocketServer.run (Sample.world VIEWER)
                           [Connect 9 (Some (Jwt.Garbage "forged")) 5;
                            JoinContract 9 "c1";
                            Update 9 (Y.Encoded {[7%nat]}); Cursor 9 "p1"])
                 = [(9%nat, ConnectError "Invalid token")])
    by (by vm_compute).
  rewrite Hrun in Hout. simpl in Hout. by injection Hout as ->.
Defined.

(** X20. A document that is loaded is reused.  When the map of live
    documents has an entry for the contract, a join constructs nothing and
    sends nothing to Redis: the socket enters the room, receives the whole
    current state of that document, and its listeners are bound to that
    very document. *)
Theorem join_reuses_loaded_document (w : World) (sid : nat) (cid : string)
    (sock : Socket) (a : nat) (doc : Y.Doc) :
  sockets w !! sid = Some sock →
  docs w !! cid = Some a →
  heap w !! a = Some doc →
  let w' := SocketServer.step w (JoinContract sid cid) in
  heap w' = heap w ∧ docs w' = docs w ∧ inflight w' = inflight w
  ∧ redis w' = redis w
  ∧ outbox w' = outbox w ++ [(sid, Sync (Y.items doc))]
  ∧ sockets w' !! sid
    = Some (mkSocket (sUser sock) (sListeners sock ++ [mkListener cid a]))
  ∧ sid ∈ members (SocketServer.room cid) w'.
Proof.
  intros Hsock Hdocs Hheap. simpl. unfold SocketServer.joinContract.
  rewrite Hsock. unfold Yjs.getYjsDoc_start. simpl. rewrite Hdocs.
  unfold SocketServer.joined. simpl. rewrite Hsock, Hheap. simpl.
  do 5 (split; [done|]). split; [by rewrite lookup_insert_eq|].
  unfold members. simpl. rewrite lookup_insert_eq. simpl.
  apply elem_of_union_l. by apply elem_of_singleton.
Qed.

(** The theorem after Alice has loaded the sample document: Bob's join
    reuses it. *)
Lemma join_reuses_loaded_document_witness :
  let w :=
    SocketServer.run (Sample.world VIEWER)
      [Sample.hello 1 Sample.alice; Sample.hello 2 Sample.bob;
       JoinContract 1 "c1"; RedisReply; Update 1 (Y.Encoded {[7%nat]})] in
  docs w !! "c1" = Some 0%nat
  ∧ length (heap (SocketServer.step w (JoinContract 2 "c1"))) = 1%nat
  ∧ outbox (SocketServer.step w (JoinContract 2 "c1"))
    = outbox w ++ [(2%nat, Sync {[1%nat; 2%nat; 7%nat]})].
Proof.
  intros w.
  assert (Hsock : sockets w !! 2%nat = Some (mkSocket Sample.bob []))
    by (by vm_compute).
  assert (Hdocs : docs w !! "c1" = Some 0%nat) by (by vm_compute).
  assert (Hheap : heap w !! 0%nat
                  = Some (Y.mkDoc {[1%nat; 2%nat; 7%nat]} ["c1"]))
    by (by vm_compute).
  destruct (join_reuses_loaded_document w 2 "c1" _ _ _ Hsock Hdocs Hheap)
    as (Hh & _ & _ & _ & Hout & _).
  split; [exact Hdocs|]. split; [|exact Hout].
  rewrite Hh. by vm_compute.
Defined.

(** X21. The first load hands out what Redis holds.  When the contract has
    no live document and no command is in flight, a join followed by the
    answer of Redis constructs one document with exactly the stored items
    (none if the key is absent), publishes it in the map with one observer
    and sends its state to the joining socket. *)
Theorem first_load_restores_stored_state (w : World) (sid : nat)
    (cid : string) (sock : Socket) :
  sockets w !! sid = Some sock →
  docs w !! cid = None →
  inflight w = [] →
  let stored := default ∅ (redis w !! Yjs.key cid) in
  let w' := SocketServer.run w [JoinContract sid cid; RedisReply] in
  heap w' = heap w ++ [Y.mkDoc stored [cid]]
  ∧ docs w' = <[cid := length (heap w)]> (docs w)
  ∧ inflight w' = []
  ∧ redis w' = redis w
  ∧ outbox w' = outbox w ++ [(sid, Sync stored)]
  ∧ sockets w' !! sid
    = Some (mkSocket (sUser sock)
              (sListeners sock ++ [mkListener cid (length (heap w))])).
Proof.
  intros Hsock Hdocs Hq stored w'. subst w' stored.
  unfold SocketServer.run. simpl. unfold SocketServer.joinContract.
  rewrite Hsock. unfold Yjs.getYjsDoc_start. simpl. rewrite Hdocs. simpl.
  unfold SocketServer.redisReply. simpl. rewrite Hq. simpl.
  unfold SocketServer.joined, Yjs.getYjsDoc_resume. simpl.
  rewrite Hsock, alter_last.
  rewrite lookup_app_r, Nat.sub_diag by done. simpl.
  destruct (redis w !! Yjs.key cid) as [st|]; simpl;
    rewrite ?(left_id_L ∅ (∪)); rewrite lookup_insert_eq; done.
Qed.

(** The theorem at the sample world: Alice's first join receives the items
    1 and 2 that Redis holds. *)
Lemma first_load_restores_stored_state_witness :
  let w := SocketServer.step (Sample.world VIEWER)
             (Sample.hello 1 Sample.alice) in
  sockets w !! 1%nat = Some (mkSocket Sample.alice [])
  ∧ outbox (SocketServer.run w [JoinContract 1 "c1"; RedisReply])
    = [(1%nat, Sync {[1%nat; 2%nat]})].
Proof.
  intros w.
  assert (Hsock : sockets w !! 1%nat = Some (mkSocket Sample.alice []))
    by (by vm_compute).
  destruct (first_load_restores_stored_state w 1 "c1" _ Hsock eq_refl
              eq_refl) as (_ & _ & _ & _ & Hout & _).
  split; [exact Hsock|]. rewrite Hout. by vm_compute.
Defined.

(** ** Write-back and rooms *)

Section Draining.

Implicit Types (w : World).

(** Answering a queue of [SET]s applies them in order and touches nothing
    else. *)
Lemma drain_sets (cmds : list RedisCmd) w :
  Forall isSet cmds →
  inflight w = cmds →
  let w' := SocketServer.run w (replicate (length cmds) RedisReply) in
  inflight w' = [] ∧ redis w' = foldl applySet (redis w) cmds
  ∧ heap w' = heap w ∧ docs w' = docs w ∧ outbox w' = outbox w
  ∧ sockets w' = sockets w ∧ rooms w' = rooms w.
Proof.
  intros Hall. revert w.
  induction Hall as [|c cmds Hc _ IH]; intros w Hq; [done|].
  cbn [length replicate]. rewrite run_cons.
  destruct c as [k j|k v]; [done|].
  assert (SocketServer.step w RedisReply
          = mkWorld (wDb w) (docs w) (heap w) (<[k := v]> (redis w)) cmds
              (sockets w) (rooms w) (outbox w)) as ->.
  { simpl. unfold SocketServer.redisReply. by rewrite Hq. }
  destruct (IH (mkWorld (wDb w) (docs w) (heap w) (<[k := v]> (redis w))
                  cmds (sockets w) (rooms w) (outbox w)) eq_refl)
    as (H1 & H2 & H3 & H4 & H5 & H6 & H7).
  simpl in *. by rewrite H1, H2, H3, H4, H5, H6, H7.
Qed.

Lemma joined_rooms sid cid a w :
  rooms (SocketServer.joined sid cid a w) = rooms w.
Proof.
  unfold SocketServer.joined.
  destruct (sockets w !! sid); [|done]. by destruct (heap w !! a).
Qed.

Lemma socketJoin_members sid cid r w :
  members r w ⊆ members r (SocketServer.socketJoin sid cid w).
Proof.
  unfold members, SocketServer.socketJoin. simpl.
  destruct (decide (SocketServer.room cid = r)) as [<-|Hr].
  - rewrite lookup_insert_eq. simpl. apply union_subseteq_r.
  - by rewrite lookup_insert_ne.
Qed.

(** What a listener does to the state, for a document that has its one
    observer. *)
Lemma merge_effect sid update w l doc :
  heap w !! lDoc l = Some doc →
  Y.observers doc = [lContract l] →
  let w' := SocketServer.merge sid update w l in
  redis w' = redis w
  ∧ heap w'
    = <[lDoc l := Y.mkDoc (Y.items doc ∪ update) [lContract l]]> (heap w)
  ∧ inflight w'
    = inflight w
      ++ (if bool_decide (¬ update ⊆ Y.items doc)
          then [RedisSet (Yjs.key (lContract l)) (Y.items doc ∪ update)]
          else []).
Proof.
  intros Hdoc Hobs. unfold SocketServer.merge. rewrite Hdoc.
  unfold Y.applyUpdate. simpl. rewrite Hobs.
  split; [done|]. split; [done|]. by case_bool_decide.
Qed.

Lemma key_inj (a b : string) : Yjs.key a = Yjs.key b → a = b.
Proof. unfold Yjs.key. simpl. intros [= H]. exact H. Qed.

Lemma applySet_last m q k v :
  foldl applySet m (q ++ [RedisSet k v]) !! k = Some v.
Proof. rewrite foldl_app. simpl. apply lookup_insert_eq. Qed.

(** Listeners of other contracts leave a document and the key of its
    contract alone. *)
Lemma fold_merge_others sid update m docId a ls w :
  Forall (λ l, observed (heap w) (lContract l) (lDoc l)) ls →
  Forall (λ l, lContract l ≠ docId) ls →
  observed (heap w) docId a →
  let w' := foldl (SocketServer.merge sid update) w ls in
  heap w' !! a = heap w !! a
  ∧ foldl applySet m (inflight w') !! Yjs.key docId
    = foldl applySet m (inflight w) !! Yjs.key docId
  ∧ redis w' = redis w
  ∧ (Forall isSet (inflight w) → Forall isSet (inflight w')).
Proof.
  revert w. induction ls as [|x ls IH]; intros w Hobs Hne Ha; simpl; [done|].
  apply Forall_cons in Hobs as [(docx & Hx & Hox) Hobs].
  apply Forall_cons in Hne as [Hxne Hne].
  destruct (merge_effect sid update w x docx Hx Hox) as (Hr & Hh & Hq).
  assert (Hkeep : keepsObservers (heap w)
                    (heap (SocketServer.merge sid update w x))).
  { rewrite Hh. by eapply keepsObservers_insert. }
  assert (Hdiff : lDoc x ≠ a).
  { intros Heq. destruct Ha as (doca & Ha & Hoa). congruence. }
  destruct (IH (SocketServer.merge sid update w x)) as (H1 & H2 & H3 & H4).
  - eapply Forall_impl; [exact Hobs|]. intros l. by apply observed_keeps.
  - done.
  - by eapply observed_keeps.
  - split; [|split; [|split]].
    + rewrite H1, Hh. by apply list_lookup_insert_ne.
    + rewrite H2, Hq, foldl_app. case_bool_decide; simpl; [|done].
      apply lookup_insert_ne. intros Hk. by apply key_inj in Hk.
    + by rewrite H3.
    + intros Hsets. apply H4. rewrite Hq. apply Forall_app. split; [done|].
      case_bool_decide; by repeat constructor.
Qed.

(** Once every listener of a socket that joined each contract at most once
    has run, each of its documents holds the update, and the last write in
    flight for a document that changed carries its whole state. *)
Lemma fold_merge_settles sid update m ls w l doc :
  Forall (λ l, observed (heap w) (lContract l) (lDoc l)) ls →
  NoDup (map lContract ls) →
  l ∈ ls →
  heap w !! lDoc l = Some doc →
  let w' := foldl (SocketServer.merge sid update) w ls in
  heap w' !! lDoc l
  = Some (Y.mkDoc (Y.items doc ∪ update) [lContract l])
  ∧ redis w' = redis w
  ∧ (Forall isSet (inflight w) → Forall isSet (inflight w'))
  ∧ (¬ update ⊆ Y.items doc →
     foldl applySet m (inflight w') !! Yjs.key (lContract l)
     = Some (Y.items doc ∪ update)).
Proof.
  revert w. induction ls as [|x ls IH]; intros w Hobs Hnd Hl Hdoc; simpl;
    [by apply elem_of_nil in Hl|].
  apply Forall_cons in Hobs as [(docx & Hx & Hox) Hobs].
  simpl in Hnd. apply NoDup_cons in Hnd as [Hfresh Hnd].
  destruct (merge_effect sid update w x docx Hx Hox) as (Hr & Hh & Hq).
  assert (Hkeep : keepsObservers (heap w)
                    (heap (SocketServer.merge sid update w x))).
  { rewrite Hh. by eapply keepsObservers_insert. }
  assert (Hobs' : Forall (λ l0, observed
                                  (heap (SocketServer.merge sid update w x))
                                  (lContract l0) (lDoc l0)) ls).
  { eapply Forall_impl; [exact Hobs|]. intros l0. by apply observed_keeps. }
  assert (Hsets : Forall isSet (inflight w) →
                  Forall isSet (inflight (SocketServer.merge sid update w x))).
  { intros Hs. rewrite Hq. apply Forall_app. split; [done|].
    case_bool_decide; by repeat constructor. }
  apply elem_of_cons in Hl as [->|Hl].
  - assert (docx = doc) as -> by congruence.
    destruct (fold_merge_others sid update m (lContract x) (lDoc x) ls
                (SocketServer.merge sid update w x) Hobs')
      as (H1 & H2 & H3 & H4).
    { apply Forall_forall. intros l0 Hl0 Heq. apply Hfresh.
      rewrite <- Heq. by apply list_elem_of_fmap_2. }
    { eexists. rewrite Hh.
      rewrite list_lookup_insert_eq by (by eapply lookup_lt_Some). done. }
    split; [|split; [|split]].
    + rewrite H1, Hh.
      apply list_lookup_insert_eq. by eapply lookup_lt_Some.
    + by rewrite H3.
    + auto.
    + intros Hnew. rewrite H2, Hq. rewrite bool_decide_eq_true_2 by done.
      apply applySet_last.
  - assert (Hdiff : lDoc x ≠ lDoc l).
    { intros Heq.
      destruct (proj1 (Forall_forall _ _) Hobs l Hl) as (docl & Hdl & Hol).
      apply Hfresh. apply list_elem_of_fmap. exists l. split; [|done].
      rewrite Heq in Hx. congruence. }
    destruct (IH (SocketServer.merge sid update w x) Hobs' Hnd Hl)
      as (H1 & H2 & H3 & H4).
    { rewrite Hh. by rewrite list_lookup_insert_ne. }
    split; [done|]. split; [by rewrite H2|]. split; [auto|done].
Qed.

End Draining.

(** X22. What a merge writes back is what the store ends up holding.  In
    every state the server reaches from its start, take a socket that has
    joined each contract at most once, at a moment when no load is pending,
    and let it send an update that is new to the document of one of its
    contracts.  Once Redis has answered every command in flight, nothing is
    in flight, the key of that contract holds exactly the state of the live
    document, the earlier state with the update merged in, and the live
    document is still at its reference. *)
Theorem write_back_reaches_store (d : Db) (stored : gmap string (gset nat))
    (es : list Event) (sid : nat) (sock : Socket) (update : gset nat)
    (l : Listener) (doc : Y.Doc) :
  let w := SocketServer.run (boot d stored) es in
  sockets w !! sid = Some sock →
  NoDup (map lContract (sListeners sock)) →
  Forall isSet (inflight w) →
  l ∈ sListeners sock →
  heap w !! lDoc l = Some doc →
  ¬ update ⊆ Y.items doc →
  let w' := drain (SocketServer.step w (Update sid (Y.Encoded update))) in
  inflight w' = []
  ∧ redis w' !! Yjs.key (lContract l) = Some (Y.items doc ∪ update)
  ∧ heap w' !! lDoc l
    = Some (Y.mkDoc (Y.items doc ∪ update) [lContract l]).
Proof.
  intros w Hsock Hnd Hsets Hl Hdoc Hnew w'.
  assert (Hw : coherent w) by apply run_coherent, coherent_boot.
  assert (Hobs : Forall (λ l0, observed (heap w) (lContract l0) (lDoc l0))
                   (sListeners sock)).
  { apply Forall_forall. intros l0 Hl0. by eapply (co_listeners w Hw). }
  destruct (fold_merge_settles sid update (redis w) (sListeners sock) w l doc
              Hobs Hnd Hl Hdoc) as (Hh & Hr & Hq & Hk).
  assert (Hstep : SocketServer.step w (Update sid (Y.Encoded update))
                  = foldl (SocketServer.merge sid update) w (sListeners sock)).
  { simpl. by rewrite Hsock, dispatch_encoded. }
  subst w'. unfold drain. rewrite Hstep.
  destruct (drain_sets _ (foldl (SocketServer.merge sid update) w
                            (sListeners sock)) (Hq Hsets) eq_refl)
    as (H1 & H2 & H3 & _).
  split; [exact H1|]. split.
  - rewrite H2, Hr. by apply Hk.
  - by rewrite H3.
Qed.

(** The theorem after Alice's burst of two updates, once Redis has answered
    both writes: her third update is written back, and Redis then holds the
    document with all three items added. *)
Lemma write_back_reaches_store_witness :
  let w := SocketServer.run (Sample.world VIEWER)
             (Sample.burst ++ [RedisReply; RedisReply]) in
  sockets w !! 1%nat = Some (mkSocket Sample.alice [mkListener "c1" 0])
  ∧ inflight w = []
  ∧ heap w !! 0%nat = Some (Y.mkDoc {[1%nat; 2%nat; 7%nat; 8%nat]} ["c1"])
  ∧ redis (drain (SocketServer.step w (Update 1 (Y.Encoded {[9%nat]}))))
    !! "yjs:doc:c1"
    = Some ({[1%nat; 2%nat; 7%nat; 8%nat]} ∪ {[9%nat]}).
Proof.
  intros w.
  assert (Hsock : sockets w !! 1%nat
                  = Some (mkSocket Sample.alice [mkListener "c1" 0]))
    by (by vm_compute).
  assert (Hq : inflight w = []) by (by vm_compute).
  assert (Hdoc : heap w !! lDoc (mkListener "c1" 0)
                 = Some (Y.mkDoc {[1%nat; 2%nat; 7%nat; 8%nat]} ["c1"]))
    by (by vm_compute).
  assert (Hnew : ¬ ({[9%nat]} : gset nat) ⊆ {[1%nat; 2%nat; 7%nat; 8%nat]})
    by (apply (bool_decide_unpack _); by vm_compute).
  assert (Hnd : NoDup (map lContract [mkListener "c1" 0]))
    by (apply (bool_decide_unpack _); by vm_compute).
  assert (Hsets : Forall isSet (inflight w)) by (rewrite Hq; constructor).
  destruct (write_back_reaches_store (Sample.dbWith VIEWER)
              {[ "yjs:doc:c1" := {[1%nat; 2%nat]} ]}
              (Sample.burst ++ [RedisReply; RedisReply]) 1
              (mkSocket Sample.alice [mkListener "c1" 0]) {[9%nat]}
              (mkListener "c1" 0)
              (Y.mkDoc {[1%nat; 2%nat; 7%nat; 8%nat]} ["c1"])
              Hsock Hnd Hsets (list_elem_of_here _ _) Hdoc Hnew)
    as (_ & Hstore & _).
  split; [exact Hsock|]. split; [exact Hq|]. split; [exact Hdoc|].
  exact Hstore.
Defined.

(** X23. Joining never leaves.  A ['join-contract'] takes no socket out of
    any room and drops no listener: every room has at least the members it
    had, and every socket keeps its user and its earlier listeners, in
    order, in front of any new one. *)
Theorem join_never_leaves (w : World) (sid : nat) (cid : string) :
  let w' := SocketServer.step w (JoinContract sid cid) in
  (∀ r, members r w ⊆ members r w')
  ∧ ∀ s sock,
      sockets w !! s = Some sock →
      ∃ sock',
        sockets w' !! s = Some sock'
        ∧ sUser sock' = sUser sock
        ∧ sListeners sock `prefix_of` sListeners sock'.
Proof.
  simpl. unfold SocketServer.joinContract.
  destruct (sockets w !! sid) as [me|] eqn:Hme.
  - unfold Yjs.getYjsDoc_start. simpl.
    destruct (docs w !! cid) as [a|]; simpl.
    + split.
      * intros r. unfold members. rewrite joined_rooms.
        apply socketJoin_members.
      * intros s sock Hs. unfold SocketServer.joined. simpl. rewrite Hme.
        destruct (heap w !! a); simpl; [|by exists sock].
        destruct (decide (s = sid)) as [->|Hne].
        -- rewrite lookup_insert_eq. eexists. split; [done|].
           assert (sock = me) as -> by congruence. simpl.
           split; [done|]. by apply prefix_app_r.
        -- rewrite lookup_insert_ne by done. by exists sock.
    + split; [intros r; apply socketJoin_members|].
      intros s sock Hs. by exists sock.
  - split; [done|]. intros s sock Hs. by exists sock.
Qed.

(** The theorem for Alice, who joins the NDA and then the lease: she is in
    both rooms and has both listeners. *)
Lemma join_never_leaves_witness :
  let w :=
    SocketServer.run (Sample.world VIEWER)
      [Sample.hello 1 Sample.alice; JoinContract 1 "c1"; RedisReply;
       JoinContract 1 "c7"; RedisReply] in
  1%nat ∈ members "contract:c1" w ∧ 1%nat ∈ members "contract:c7" w
  ∧ sListeners <$> sockets w !! 1%nat
    = Some [mkListener "c1" 0; mkListener "c7" 1].
Proof.
  intros w.
  set (w1 := SocketServer.run (Sample.world VIEWER)
               [Sample.hello 1 Sample.alice; JoinContract 1 "c1";
                RedisReply]).
  destruct (join_never_leaves w1 1 "c7") as [Hrooms _].
  assert (H1 : 1%nat ∈ members "contract:c1" w1).
  { apply (bool_decide_unpack _). by vm_compute. }
  assert (H2 : members "contract:c1" (SocketServer.step w1 (JoinContract 1 "c7"))
               = members "contract:c1" w) by (by vm_compute).
  split; [rewrite <- H2; by apply Hrooms|].
  split; [apply (bool_decide_unpack _); by vm_compute | by vm_compute].
Defined.

(** X24. An update reaches every document the socket has joined.  The
    listeners of all earlier joins stay bound, so an ['update'] that
    decodes is merged into the document of each of them, whichever contract
    the client meant it for.  One that does not decode is merged nowhere:
    the first listener throws and the process ends with all its
    documents. *)
Theorem update_reaches_every_joined_document (w : World) (sid : nat)
    (sock : Socket) (arg : Y.Wire) (l : Listener) (doc : Y.Doc) :
  sockets w !! sid = Some sock →
  l ∈ sListeners sock →
  heap w !! lDoc l = Some doc →
  let w' := SocketServer.step w (Update sid arg) in
  (∀ update,
     arg = Y.Encoded update →
     ∃ doc',
       heap w' !! lDoc l = Some doc'
       ∧ update ⊆ Y.items doc'
       ∧ Y.items doc ⊆ Y.items doc')
  ∧ (∀ raw,
       arg = Y.Malformed raw →
       w' = SocketServer.crash w ∧ heap w' = [] ∧ docs w' = ∅).
Proof.
  intros Hsock Hl Hdoc. simpl. rewrite Hsock. split.
  - intros update ->. rewrite dispatch_encoded.
    clear Hsock. revert w doc Hdoc.
    induction (sListeners sock) as [|x ls IH]; intros w doc Hdoc.
    + by apply elem_of_nil in Hl.
    + simpl. apply elem_of_cons in Hl as [<-|Hl].
      * destruct (fold_onUpdate_grows sid update ls
                    (SocketServer.merge sid update w l) (lDoc l)
                    (Y.mkDoc (Y.items doc ∪ update) (Y.observers doc)))
          as (doc' & Hdoc' & Hsub).
        { by apply onUpdate_writes. }
        exists doc'. split; [done|]. simpl in Hsub.
        split; (etransitivity; [|exact Hsub]);
          [apply union_subseteq_r | apply union_subseteq_l].
      * destruct (onUpdate_grows sid update w x (lDoc l) doc Hdoc)
          as (doc1 & Hdoc1 & Hsub1).
        destruct (IH Hl _ doc1 Hdoc1) as (doc' & Hdoc' & Hu & Hsub).
        exists doc'. split; [done|]. split; [done|]. by etransitivity.
  - intros raw ->. destruct (sListeners sock); [|done].
    by apply elem_of_nil in Hl.
Qed.

(** The theorem for Alice in both rooms: the item she adds lands in the
    document of the NDA and in that of the lease. *)
Lemma update_reaches_every_joined_document_witness :
  let w :=
    SocketServer.run (Sample.world VIEWER)
      [Sample.hello 1 Sample.alice; JoinContract 1 "c1"; RedisReply;
       JoinContract 1 "c7"; RedisReply] in
  let w' := SocketServer.step w (Update 1 (Y.Encoded {[9%nat]})) in
  heap w = [Y.mkDoc {[1%nat; 2%nat]} ["c1"]; Y.mkDoc ∅ ["c7"]]
  ∧ ∃ nda lease,
      heap w' !! 0%nat = Some nda
      ∧ heap w' !! 1%nat = Some lease
      ∧ ({[9%nat]} : gset nat) ⊆ Y.items nda
      ∧ ({[9%nat]} : gset nat) ⊆ Y.items lease.
Proof.
  intros w w'.
  assert (Hsock : sockets w !! 1%nat
                  = Some (mkSocket Sample.alice
                            [mkListener "c1" 0; mkListener "c7" 1]))
    by (by vm_compute).
  assert (Hheap : heap w = [Y.mkDoc {[1%nat; 2%nat]} ["c1"]; Y.mkDoc ∅ ["c7"]])
    by (by vm_compute).
  destruct (update_reaches_every_joined_document w 1 _ (Y.Encoded {[9%nat]})
              (mkListener "c1" 0) (Y.mkDoc {[1%nat; 2%nat]} ["c1"]) Hsock)
    as [Hnda _];
    [apply list_elem_of_here | by rewrite Hheap|].
  destruct (Hnda _ eq_refl) as (nda & Hnda' & Hin1 & _).
  destruct (update_reaches_every_joined_document w 1 _ (Y.Encoded {[9%nat]})
              (mkListener "c7" 1) (Y.mkDoc ∅ ["c7"]) Hsock)
    as [Hlease _];
    [apply list_elem_of_further, list_elem_of_here | by rewrite Hheap|].
  destruct (Hlease _ eq_refl) as (lease & Hlease' & Hin2 & _).
  split; [exact Hheap|]. exists nda, lease.
  split; [exact Hnda'|]. split; [exact Hlease'|].
  split; [exact Hin1|exact Hin2].
Defined.

(** * The retry helper of the client *)

Section Retrying.

Context {T D : Type}.
Implicit Types (fn : nat → Retry.Outcome T) (delayOf : Z → nat → D).

Lemma backoff_S delayOf base n :
  Retry.backoff delayOf base (S n)
  = Retry.backoff delayOf base n ++ [delayOf base n].
Proof. unfold Retry.backoff. by rewrite seq_S, map_app. Qed.

(** The loop, entered at attempt [a] with the delays of the attempts before
    it behind it, when the first outcome that is not retried comes at
    attempt [k]. *)
Lemma loop_stops delayOf fn max base (k a : nat)
    (err : option Retry.Failure) :
  (a ≤ k)%nat →
  Z.of_nat k < max →
  (∀ j, (a ≤ j < k)%nat → Retry.retried (fn j)) →
  ¬ Retry.retried (fn k) →
  Retry.loop delayOf fn max base (Z.to_nat max - a) a err
    (Retry.backoff delayOf base a)
  = Retry.mkRun (Retry.endingOf (fn k)) (S k) (Retry.backoff delayOf base k).
Proof.
  intros Hak Hk Hretry Hstop.
  remember (k - a)%nat as n eqn:Hn. revert a err Hak Hretry Hn.
  induction n as [|n IH]; intros a err Hak Hretry Hn.
  - assert (a = k) as -> by lia.
    destruct (Z.to_nat max - k)%nat as [|rem] eqn:Hrem; [lia|]. simpl.
    destruct (fn k) as [v|e]; [done|]. simpl in *.
    destruct (Retry.clientError e); [done|]. by destruct Hstop.
  - destruct (Z.to_nat max - a)%nat as [|rem] eqn:Hrem; [lia|]. simpl.
    pose proof (Hretry a ltac:(lia)) as Ha.
    destruct (fn a) as [v|e]; [done|]. simpl in Ha. rewrite Ha.
    rewrite bool_decide_eq_true_2 by lia.
    rewrite <- backoff_S.
    assert (rem = Z.to_nat max - S a)%nat as -> by lia.
    apply IH; [lia| |lia]. intros j Hj. apply Hretry. lia.
Qed.

(** The loop when every remaining attempt is retried. *)
Lemma loop_exhausts delayOf fn max base (a : nat)
    (err : option Retry.Failure) :
  (∀ j, (a ≤ j)%nat → Z.of_nat j < max → Retry.retried (fn j)) →
  (a < Z.to_nat max)%nat →
  ∃ e,
    fn (Z.to_nat max - 1)%nat = Retry.Thrown e
    ∧ Retry.loop delayOf fn max base (Z.to_nat max - a) a err
        (Retry.backoff delayOf base a)
      = Retry.mkRun (Retry.Rethrown (Some e)) (Z.to_nat max)
          (Retry.backoff delayOf base (Z.to_nat max - 1)).
Proof.
  intros Hretry Ha.
  remember (Z.to_nat max - a)%nat as n eqn:Hn. revert a err Hretry Ha Hn.
  induction n as [|n IH]; intros a err Hretry Ha Hn; [lia|]. simpl.
  pose proof (Hretry a ltac:(lia) ltac:(lia)) as Hfa.
  destruct (fn a) as [v|e] eqn:Hfn; [done|]. simpl in Hfa. rewrite Hfa.
  destruct n as [|n].
  - assert (a = Z.to_nat max - 1)%nat as -> by lia.
    rewrite bool_decide_eq_false_2 by lia. simpl.
    exists e. split; [done|]. f_equal. lia.
  - rewrite bool_decide_eq_true_2 by lia. rewrite <- backoff_S.
    apply IH; [|lia|lia]. intros j Hj. apply Hretry. lia.
Qed.

End Retrying.

(** X25. When every attempt fails with an error that is retried (no axios
    response, a status of 0, a status of 500 or more, or not an axios
    error), the helper calls the function exactly [maxRetries] times and
    rethrows the error of the last call.  It sets a timer between the
    attempts only: [maxRetries - 1] timers, the one after attempt [a] with
    the delay [baseDelay * Math.pow(2, a)] as the engine computes it, and
    none after the last attempt.  [maxRetries] is a whole number that the
    loop counter reaches exactly. *)
Theorem retry_gives_up_after_max {T D} (delayOf : Z → nat → D)
    (fn : nat → Retry.Outcome T) (options : Retry.Options) :
  let max := default 3 (Retry.maxRetries options) in
  let base := default 1000 (Retry.baseDelay options) in
  0 < max →
  max ≤ Retry.maxSafe →
  (∀ j, Z.of_nat j < max → Retry.retried (fn j)) →
  ∃ e,
    fn (Z.to_nat max - 1)%nat = Retry.Thrown e
    ∧ Retry.ending (Retry.withRetry delayOf fn options)
      = Retry.Rethrown (Some e)
    ∧ Retry.calls (Retry.withRetry delayOf fn options) = Z.to_nat max
    ∧ Retry.timers (Retry.withRetry delayOf fn options)
      = map (delayOf base) (seq 0 (Z.to_nat max - 1))
    ∧ length (Retry.timers (Retry.withRetry delayOf fn options))
      = (Z.to_nat max - 1)%nat.
Proof.
  intros max base Hmax _ Hretry. unfold Retry.withRetry. fold max base.
  destruct (loop_exhausts delayOf fn max base 0 None) as (e & He & Hrun).
  { intros j _. apply Hretry. }
  { lia. }
  rewrite Nat.sub_0_r in Hrun.
  change (Retry.backoff delayOf base 0) with (@nil D) in Hrun.
  exists e. rewrite Hrun. simpl. do 4 (split; [done|]).
  unfold Retry.backoff. by rewrite length_map, length_seq.
Qed.

(** The theorem for the defaults and a server that answers 503 each time:
    three calls, and timers of one and two seconds where the products are
    exact. *)
Lemma retry_gives_up_after_max_witness :
  let fn : nat → Retry.Outcome nat :=
    λ _, Retry.Thrown (Retry.AxiosError (Some 503)) in
  Retry.withRetry Retry.exactDelay fn (Retry.mkOptions None None)
  = Retry.mkRun (Retry.Rethrown (Some (Retry.AxiosError (Some 503)))) 3
      [1000; 2000]
  ∧ length
      (Retry.timers
         (Retry.withRetry Retry.exactDelay fn (Retry.mkOptions None None)))
    = 2%nat.
Proof.
  intros fn.
  destruct (retry_gives_up_after_max Retry.exactDelay fn
              (Retry.mkOptions None None))
    as (e & _ & _ & _ & _ & Hlen);
    [done | by vm_compute | by intros j _ |].
  split; [reflexivity | exact Hlen].
Defined.

(** X26. The helper stops at the first outcome that is not retried.  If
    call number [k] (counted from 0, [k < maxRetries]) is the first that
    succeeds or fails with a client error (an axios response with a status
    from 1 to 499), the helper returns that value or rethrows that error
    after exactly [k + 1] calls, having set the [k] timers before them,
    the one after attempt [a] with the delay [baseDelay * Math.pow(2, a)]
    as the engine computes it, and none after. *)
Theorem retry_stops_at_first_final_outcome {T D} (delayOf : Z → nat → D)
    (fn : nat → Retry.Outcome T) (options : Retry.Options) (k : nat) :
  let max := default 3 (Retry.maxRetries options) in
  let base := default 1000 (Retry.baseDelay options) in
  Z.of_nat k < max →
  max ≤ Retry.maxSafe →
  (∀ j, (j < k)%nat → Retry.retried (fn j)) →
  ¬ Retry.retried (fn k) →
  Retry.withRetry delayOf fn options
  = Retry.mkRun (Retry.endingOf (fn k)) (S k)
      (map (delayOf base) (seq 0 k)).
Proof.
  intros max base Hk _ Hretry Hstop. unfold Retry.withRetry. fold max base.
  pose proof (loop_stops delayOf fn max base k 0 None ltac:(lia) Hk) as Hrun.
  rewrite Nat.sub_0_r in Hrun. apply Hrun; [|done].
  intros j Hj. apply Hretry. lia.
Qed.

(** The theorem for five retries of 100 ms and a server that answers 502,
    502 and then 404: three calls, timers of 100 and 200 ms where the
    products are exact, the 404 is rethrown. *)
Lemma retry_stops_at_first_final_outcome_witness :
  let fn : nat → Retry.Outcome nat :=
    λ j, if bool_decide (j < 2)%nat
         then Retry.Thrown (Retry.AxiosError (Some 502))
         else Retry.Thrown (Retry.AxiosError (Some 404)) in
  Retry.withRetry Retry.exactDelay fn (Retry.mkOptions (Some 5) (Some 100))
  = Retry.mkRun (Retry.Rethrown (Some (Retry.AxiosError (Some 404)))) 3
      [100; 200].
Proof.
  intros fn.
  apply (retry_stops_at_first_final_outcome Retry.exactDelay fn
           (Retry.mkOptions (Some 5) (Some 100)) 2).
  - done.
  - by vm_compute.
  - intros j Hj. unfold fn. by rewrite bool_decide_eq_true_2.
  - unfold fn. simpl. discriminate.
Defined.

(** X27. With [maxRetries] of zero or less the function is never called,
    no timer is set, and the helper throws [undefined]. *)
Theorem retry_without_attempts {T D} (delayOf : Z → nat → D)
    (fn : nat → Retry.Outcome T) (options : Retry.Options) (max : Z) :
  Retry.maxRetries options = Some max →
  max ≤ 0 →
  Retry.withRetry delayOf fn options = Retry.mkRun (Retry.Rethrown None) 0 [].
Proof.
  intros Hopt Hmax. unfold Retry.withRetry. rewrite Hopt. simpl.
  by rewrite Z2Nat.nonpos.
Qed.

(** The theorem for [maxRetries: 0] and a function that would succeed. *)
Lemma retry_without_attempts_witness :
  Retry.withRetry Retry.exactDelay (λ _, Retry.Resolved 7%nat)
    (Retry.mkOptions (Some 0) None)
  = Retry.mkRun (Retry.Rethrown None) 0 [].
Proof.
  exact (retry_without_attempts Retry.exactDelay (λ _, Retry.Resolved 7%nat)
           (Retry.mkOptions (Some 0) None) 0 eq_refl ltac:(done)).
Defined.

(** * Notifications *)

Section Inboxes.

Implicit Types (table : list Notification.t) (n : Notification.t).

#[local] Instance notification_newerFirst_trans :
  Transitive Notifications.newerFirst.
Proof. intros a b c. unfold Notifications.newerFirst. lia. Qed.

#[local] Instance notification_newerFirst_total :
  Total Notifications.newerFirst.
Proof. intros a b. unfold Notifications.newerFirst. lia. Qed.

(** A change that leaves alone the rows [P] selects does not show through
    the selection. *)
Lemma filter_map_fixed {A} (P : A → Prop) `{!∀ x, Decision (P x)}
    (g : A → A) (l : list A) :
  (∀ x, x ∈ l → P x → g x = x) →
  (∀ x, x ∈ l → ¬ P x → ¬ P (g x)) →
  filter P (map g l) = filter P l.
Proof.
  induction l as [|x l IH]; intros Hfix Hout; [done|]. simpl.
  rewrite !filter_cons.
  assert (Hin : x ∈ x :: l) by apply list_elem_of_here.
  rewrite IH.
  - destruct (decide (P x)) as [Hx|Hx].
    + rewrite (Hfix x Hin Hx). by rewrite decide_True.
    + by rewrite (decide_False (P := P (g x))) by (by apply Hout).
  - intros y Hy. apply Hfix. by apply list_elem_of_further.
  - intros y Hy. apply Hout. by apply list_elem_of_further.
Qed.

Lemma filter_filter_keep {A} (P Q : A → Prop) `{!∀ x, Decision (P x)}
    `{!∀ x, Decision (Q x)} (l : list A) :
  (∀ x, x ∈ l → P x → Q x) →
  filter P (filter Q l) = filter P l.
Proof.
  induction l as [|x l IH]; intros Himp; [done|].
  assert (Hin : x ∈ x :: l) by apply list_elem_of_here.
  assert (Hrest : filter P (filter Q l) = filter P l).
  { apply IH. intros y Hy. apply Himp. by apply list_elem_of_further. }
  rewrite (filter_cons Q). destruct (decide (Q x)) as [Hq|Hq].
  - rewrite !filter_cons, Hrest. done.
  - rewrite Hrest, filter_cons. destruct (decide (P x)) as [Hp|Hp]; [|done].
    exfalso. by apply Hq, Himp.
Qed.

(** Under the primary key, the row a user finds as the own one is the only
    row with that id. *)
Lemma findOwn_only (user : User.t) id table n x :
  Notifications.key table →
  Notifications.findOwn user id table = Some n →
  x ∈ table → Notification.id x = id →
  Notification.userId x = User.id user.
Proof.
  unfold Notifications.key, Notifications.findOwn. intros Hkey Hfind Hx Hid.
  apply find_some in Hfind as [Hn Hp]. apply list_elem_of_In in Hn.
  apply andb_true_iff in Hp as [Hnid Hown].
  apply bool_decide_eq_true in Hnid, Hown.
  assert (x = n) as ->; [|done].
  clear Hown. revert Hkey Hx Hn. induction table as [|y l IH]; intros Hkey Hx Hn.
  - by apply elem_of_nil in Hx.
  - simpl in Hkey. apply NoDup_cons in Hkey as [Hy Hkey].
    apply elem_of_cons in Hx as [->|Hx]; apply elem_of_cons in Hn as [->|Hn].
    + done.
    + exfalso. apply Hy. rewrite Hid, <- Hnid. by apply list_elem_of_fmap_2.
    + exfalso. apply Hy. rewrite Hnid, <- Hid. by apply list_elem_of_fmap_2.
    + by apply IH.
Qed.

Lemma notifications_sorted table :
  StronglySorted Notifications.newerFirst
    (merge_sort Notifications.newerFirst table).
Proof. apply StronglySorted_merge_sort; apply _. Qed.

End Inboxes.

(** X28. No route lets a user change the notifications of anybody else:
    in a table with unique ids, after marking one as read, marking all as
    read, deleting one or clearing all, the rows of every other user are
    exactly what they were, in the same order. *)
Theorem notifications_of_others_untouched (user : User.t)
    (q : Notifications.Request) (table : list Notification.t) :
  Notifications.key table →
  Notifications.ofOthers user (Notifications.handle user q table)
  = Notifications.ofOthers user table.
Proof.
  intros Hkey. unfold Notifications.ofOthers.
  destruct q as [id| |id|]; simpl.
  - unfold Notifications.markRead.
    destruct (Notifications.findOwn user id table) as [n|] eqn:Hown; [|done].
    destruct (find _ table); [|done]. simpl.
    apply filter_map_fixed.
    + intros x Hx Hother. case_bool_decide as Hid; [|done].
      exfalso. apply Hother. by apply (findOwn_only user id table n x).
    + intros x Hx Hmine. by case_bool_decide.
  - apply filter_map_fixed.
    + intros x Hx Hother. case_decide as Hu; [|done].
      exfalso. apply Hother. by destruct Hu.
    + intros x Hx Hmine. by case_decide.
  - unfold Notifications.delete.
    destruct (Notifications.findOwn user id table) as [n|] eqn:Hown; [|done].
    simpl. apply filter_filter_keep.
    intros x Hx Hother Hid. apply Hother.
    by apply (findOwn_only user id table n x).
  - apply filter_filter_keep. by intros x _ Hother.
Qed.

(** The theorem at the sample inbox: whatever Alice does, Bob's one
    notification stays. *)
Lemma notifications_of_others_untouched_witness :
  Notifications.key Inbox.table
  ∧ Notifications.ofOthers Sample.alice
      (Notifications.handle Sample.alice Notifications.Clear Inbox.table)
    = [Inbox.note "n2" "u2" true 20]
  ∧ Notifications.markRead Sample.alice "n2" Inbox.table
    = (Refused 404 "Notification not found", Inbox.table).
Proof.
  assert (Hkey : Notifications.key Inbox.table).
  { unfold Notifications.key. apply (bool_decide_unpack _). by vm_compute. }
  split; [exact Hkey|]. split; [|reflexivity].
  rewrite (notifications_of_others_untouched Sample.alice Notifications.Clear
             Inbox.table Hkey).
  reflexivity.
Defined.

(** X29. After "mark all as read" the user has nothing unread: the unread
    count is 0 and the unread-only list is empty, while the count of any
    other user is what it was. *)
Theorem read_all_leaves_nothing_unread (user other : User.t)
    (table : list Notification.t) :
  User.id other ≠ User.id user →
  let table' := snd (Notifications.readAll user table) in
  Notifications.count user table' = Sent 200 0%nat
  ∧ Notifications.recent user (Some "true") table' = Sent 200 []
  ∧ Notifications.count other table' = Notifications.count other table.
Proof.
  intros Hother table'. subst table'. simpl.
  assert (Hnone : ∀ P : Notification.t → Prop, ∀ Hdec : ∀ x, Decision (P x),
            (∀ x, P x → Notifications.unreadOf user x) →
            filter P
              (map (λ x, if decide (Notifications.unreadOf user x)
                         then Notification.setRead x else x) table) = []).
  { intros P Hdec HP. induction table as [|x l IH]; [done|]. simpl.
    rewrite filter_cons, IH. case_decide as Hx; [|done].
    apply HP in Hx. destruct Hx as [Hu Hr].
    case_decide as Hx'; [discriminate|]. by destruct Hx'. }
  split; [|split].
  - unfold Notifications.count. by rewrite Hnone.
  - unfold Notifications.recent. rewrite Hnone; [done|].
    intros x [Hu Hr]. split; [done|]. by apply Hr.
  - unfold Notifications.count. do 2 f_equal.
    apply filter_map_fixed.
    + intros x _ [Hu _]. case_decide as Hx; [|done].
      destruct Hx as [Hx _]. congruence.
    + intros x _ Hno. case_decide as Hx; [|done].
      intros [_ Hr]. discriminate.
Qed.

(** The theorem at the sample inbox: Alice had two unread, Bob one. *)
Lemma read_all_leaves_nothing_unread_witness :
  Notifications.count Sample.alice Inbox.table = Sent 200 2%nat
  ∧ Notifications.count Sample.alice
      (snd (Notifications.readAll Sample.alice Inbox.table))
    = Sent 200 0%nat
  ∧ Notifications.count Sample.bob
      (snd (Notifications.readAll Sample.alice Inbox.table))
    = Sent 200 1%nat.
Proof.
  destruct (read_all_leaves_nothing_unread Sample.alice Sample.bob
              Inbox.table ltac:(discriminate)) as (Hzero & _ & Hbob).
  split; [reflexivity|]. split; [exact Hzero|]. rewrite Hbob. reflexivity.
Defined.

(** X30. The list route shows a user the newest 50 of the own
    notifications: at most 50 rows, newest first, each one a row of the
    table that belongs to the user (and is unread when [unreadOnly=true]);
    a matching row that is left out is not newer than any row shown, and
    with at most 50 matching rows none is left out. *)
Theorem recent_notifications_are_own_newest (user : User.t)
    (unreadOnly : option string) (table : list Notification.t) :
  ∃ shown,
    Notifications.recent user unreadOnly table = Sent 200 shown
    ∧ (length shown ≤ 50)%nat
    ∧ StronglySorted Notifications.newerFirst shown
    ∧ (∀ n, n ∈ shown →
            n ∈ table ∧ Notifications.listed user unreadOnly n)
    ∧ (∀ n m, n ∈ table → Notifications.listed user unreadOnly n →
              n ∉ shown → m ∈ shown →
              Notification.createdAt n ≤ Notification.createdAt m)
    ∧ ((length (filter (Notifications.listed user unreadOnly) table) ≤ 50)%nat
       → shown ≡ₚ filter (Notifications.listed user unreadOnly) table).
Proof.
  unfold Notifications.recent.
  set (own := filter (Notifications.listed user unreadOnly) table).
  set (sorted := merge_sort Notifications.newerFirst own).
  assert (Hperm : sorted ≡ₚ own) by apply merge_sort_Permutation.
  assert (Hsorted : StronglySorted Notifications.newerFirst sorted)
    by apply notifications_sorted.
  rewrite <- (take_drop 50 sorted) in Hsorted.
  apply StronglySorted_app in Hsorted as (Hcross & Htake & _).
  eexists. split; [done|].
  split; [rewrite length_take; lia|]. split; [done|]. split; [|split].
  - intros n Hn. apply (subseteq_take 50 sorted) in Hn.
    rewrite Hperm in Hn.
    by apply list_elem_of_filter in Hn as [? ?].
  - intros n m Hn Hlisted Hout Hm.
    assert (Hin : n ∈ take 50 sorted ++ drop 50 sorted).
    { rewrite take_drop, Hperm. by apply list_elem_of_filter. }
    apply elem_of_app in Hin as [Hin|Hin]; [done|].
    apply (Hcross m n Hm Hin).
  - intros Hfew. rewrite take_ge; [done|]. by rewrite Hperm.
Qed.

(** The theorem at the sample inbox: Alice sees her three notifications,
    newest first, and not Bob's. *)
Lemma recent_notifications_are_own_newest_witness :
  ∃ shown,
    Notifications.recent Sample.alice None Inbox.table = Sent 200 shown
    ∧ map Notification.id shown = ["n4"; "n3"; "n1"]
    ∧ StronglySorted Notifications.newerFirst shown.
Proof.
  destruct (recent_notifications_are_own_newest Sample.alice None
              Inbox.table) as (shown & Hrun & _ & Hsorted & _).
  exists shown. split; [exact Hrun|]. split; [|exact Hsorted].
  vm_compute in Hrun. by injection Hrun as <-.
Defined.
